(** * MindfulCompanion: the response-generation pipeline

    A shallow embedding of the Python back end (safety_filter.py,
    emotion_detector.py, llm_handler.py, response_generator.py,
    utils/prompts.py and [truncate_text] of utils/helpers.py), the
    properties of its specification, and further properties of the code.

    Conventions of the embedding.
    - A Python [str] is a list of 8-bit characters.  The character-level
      operations ([str.lower], [str.isupper], [str.strip], the regular
      expression classes \d, \s, \w) are given on the ASCII range, where
      they are Python's; other bytes are caseless non-word characters.
      Python's own tables go further: \d matches every decimal digit of
      Unicode, and [str.isupper] holds of letters [str.lower] leaves as
      they are.  A statement that holds of the program on ASCII text only
      has [Str.is_ascii] as a hypothesis.
    - A Python [float] is the rational it denotes, and every float
      operation is the exact operation followed by rounding to binary64
      (round to nearest, ties to even).
    - A Python exception is an [outcome]; code that reads or writes the
      objects' attributes, calls the external collaborators or draws random
      numbers runs in the monad [M] over the [World]. *)

From Stdlib Require Import Ascii String ZArith QArith Qround Qabs Qpower.
From Stdlib Require Import Lia Lqa Bool Arith List.
Import ListNotations.
Open Scope nat_scope.

(** ** Python strings *)

Definition str := list ascii.

Definition py (s : string) : str := list_ascii_of_string s.

Definition dquote : str := ["034"%char].

Module Str.

Definition code (c : ascii) : nat := nat_of_ascii c.

Definition between (lo hi : nat) (c : ascii) : bool :=
  (lo <=? code c) && (code c <=? hi).

Definition is_upper (c : ascii) : bool := between 65 90 c.
Definition is_lower (c : ascii) : bool := between 97 122 c.
Definition is_digit (c : ascii) : bool := between 48 57 c.
Definition is_alpha (c : ascii) : bool := is_upper c || is_lower c.

(** [str.isspace] on one character: \t \n \v \f \r, the four separators
    0x1c..0x1f and the space. *)
Definition is_space (c : ascii) : bool :=
  between 9 13 c || between 28 31 c || (code c =? 32).

(** \w of the [re] module. *)
Definition is_word (c : ascii) : bool :=
  is_alpha c || is_digit c || (code c =? 95).

Definition lower_char (c : ascii) : ascii :=
  if is_upper c then ascii_of_nat (code c + 32) else c.

(** [s.lower()] *)
Definition lower (s : str) : str := map lower_char s.

Definition eqb (a b : str) : bool :=
  if list_eq_dec ascii_dec a b then true else false.

(** [s.startswith(p)] *)
Fixpoint starts_with (p s : str) : bool :=
  match p, s with
  | [], _ => true
  | _ :: _, [] => false
  | a :: p', b :: s' => Ascii.eqb a b && starts_with p' s'
  end.

(** [needle in hay] *)
Fixpoint contains (needle hay : str) : bool :=
  starts_with needle hay ||
  match hay with
  | [] => false
  | _ :: hay' => contains needle hay'
  end.

(** [c in chars] for one character *)
Definition mem (c : ascii) (chars : str) : bool :=
  existsb (Ascii.eqb c) chars.

Fixpoint lstrip_by (p : ascii -> bool) (s : str) : str :=
  match s with
  | [] => []
  | c :: s' => if p c then lstrip_by p s' else s
  end.

Definition rstrip_by (p : ascii -> bool) (s : str) : str :=
  rev (lstrip_by p (rev s)).

(** [s.strip()] *)
Definition strip (s : str) : str := rstrip_by is_space (lstrip_by is_space s).

(** [s.rstrip(chars)] *)
Definition rstrip (chars s : str) : str := rstrip_by (fun c => mem c chars) s.

(** [s.count(c)] for a one-character [c] *)
Definition count (c : ascii) (s : str) : nat := count_occ ascii_dec s c.

(** [len(set(s))] *)
Definition distinct (s : str) : nat := length (nodup ascii_dec s).

(** [s.rfind(c)] for a one-character [c]: the highest index, or -1. *)
Fixpoint rfind_from (c : ascii) (s : str) (i : Z) (found : Z) : Z :=
  match s with
  | [] => found
  | d :: s' => rfind_from c s' (i + 1) (if Ascii.eqb c d then i else found)
  end.

Definition rfind (c : ascii) (s : str) : Z := rfind_from c s 0 (-1).

(** [sep.join(parts)] *)
Fixpoint join (sep : str) (parts : list str) : str :=
  match parts with
  | [] => []
  | [p] => p
  | p :: rest => p ++ sep ++ join sep rest
  end.

(** [s.split(sep)] for a one-character separator. *)
Fixpoint split_acc (sep : ascii) (s : str) (cur : str) : list str :=
  match s with
  | [] => [rev cur]
  | c :: s' =>
      if Ascii.eqb c sep then rev cur :: split_acc sep s' []
      else split_acc sep s' (c :: cur)
  end.

Definition split (sep : ascii) (s : str) : list str := split_acc sep s [].

(** [any(k in text for k in keywords)] *)
Definition any_in (keywords : list str) (text : str) : bool :=
  existsb (fun k => contains k text) keywords.

(** [sum(1 for k in keywords if k in text)] *)
Definition count_in (keywords : list str) (text : str) : nat :=
  length (filter (fun k => contains k text) keywords).

(** [s.isascii()]: every character is below 128. On such a text the
    operations above are Python's. *)
Definition is_ascii (s : str) : bool := forallb (fun c => code c <? 128) s.

End Str.

(** ** Python floats

    The values of the pipeline stay far from the ends of the binary64
    range: no overflow is modelled. *)

Module Float.

Local Open Scope Q_scope.

(** The exponent e with 2^e <= x < 2^(e+1), for a positive x: the
    binary logarithm of the integer part when x >= 1, and otherwise the
    opposite of the least k with 1/x <= 2^k. *)
Definition floor_log2 (x : Q) : Z :=
  if Qle_bool 1 x then Z.log2 (Qfloor x)
  else (- Z.log2_up (Qceiling (/ x)))%Z.

Definition round_half_even (x : Q) : Z :=
  let f := Qfloor x in
  match Qcompare (x - inject_Z f) (1 # 2) with
  | Lt => f
  | Gt => (f + 1)%Z
  | Eq => if Z.even f then f else (f + 1)%Z
  end.

(** The unit in the last place of the binary64 numbers around x > 0:
    53 significant bits, least exponent -1022. *)
Definition ulp (x : Q) : Q :=
  Qpower 2 (Z.max (floor_log2 x) (-1022) - 52).

Definition round_pos (x : Q) : Q :=
  Qred (inject_Z (round_half_even (x / ulp x)) * ulp x).

(** Round to nearest binary64, ties to even. *)
Definition fl (x : Q) : Q :=
  match Qcompare x 0 with
  | Eq => 0
  | Gt => round_pos x
  | Lt => - round_pos (- x)
  end.

Definition of_int (n : Z) : Q := fl (inject_Z n).
Definition add (x y : Q) : Q := fl (x + y).
Definition sub (x y : Q) : Q := fl (x - y).
Definition mul (x y : Q) : Q := fl (x * y).

(** A decimal literal of the source. *)
Definition lit (x : Q) : Q := fl x.

Definition gtb (x y : Q) : bool := negb (Qle_bool x y).
Definition ltb (x y : Q) : bool := negb (Qle_bool y x).

Definition min (x y : Q) : Q := if ltb y x then y else x.
Definition abs (x : Q) : Q := Qred (Qabs x).

(** [round(x, 2)]: the exact value of x rounded half-even to two decimals,
    then the nearest float to that decimal. *)
Definition round2 (x : Q) : Q :=
  fl (inject_Z (round_half_even (x * 100)) / 100).

End Float.

(** ** Exceptions *)

Inductive exn : Type :=
| IndexError
| KeyError (key : str)
| ValueError
| ZeroDivisionError
| ServiceError (msg : str).

Inductive outcome (A : Type) : Type :=
| Returns (a : A)
| Raises (e : exn).

Arguments Returns {A} a.
Arguments Raises {A} e.

Definition obind {A B} (o : outcome A) (k : A -> outcome B) : outcome B :=
  match o with
  | Returns a => k a
  | Raises e => Raises e
  end.

Declare Scope py_scope.
Delimit Scope py_scope with py.
Open Scope py_scope.

Notation "'let?' x ':=' o 'in' k" := (obind o (fun x => k))
  (at level 10, x name, o at level 100, k at level 200) : py_scope.

Notation "'let?' ' p ':=' o 'in' k" := (obind o (fun x => match x with p => k end))
  (at level 10, p pattern, o at level 100, k at level 200) : py_scope.

(** ** Python built-ins that can raise *)

Module Builtin.

(** [s[i]] for a non-negative index *)
Definition index {A} (s : list A) (i : nat) : outcome A :=
  match nth_error s i with
  | Some a => Returns a
  | None => Raises IndexError
  end.

(** [d.get(key)] on a dict kept in insertion order *)
Fixpoint get {V} (d : list (str * V)) (key : str) : option V :=
  match d with
  | [] => None
  | (k, v) :: d' => if Str.eqb k key then Some v else get d' key
  end.

(** [d[key]] *)
Definition subscript {V} (d : list (str * V)) (key : str) : outcome V :=
  match get d key with
  | Some v => Returns v
  | None => Raises (KeyError key)
  end.

(** [d.get(key, default)], the default already evaluated *)
Definition get_or {V} (d : list (str * V)) (key : str) (default : V) : V :=
  match get d key with
  | Some v => v
  | None => default
  end.

(** [max(d, key=d.get)]: the first key, in insertion order, whose value
    is the greatest. *)
Fixpoint max_key_from (best : str) (best_v : nat) (d : list (str * nat)) : str :=
  match d with
  | [] => best
  | (k, v) :: d' =>
      if best_v <? v then max_key_from k v d' else max_key_from best best_v d'
  end.

Definition max_key (d : list (str * nat)) : outcome str :=
  match d with
  | [] => Raises ValueError
  | (k, v) :: d' => Returns (max_key_from k v d')
  end.

(** [a / b] on two ints: the quotient, correctly rounded. *)
Definition truediv (a b : Z) : outcome Q :=
  if (b =? 0)%Z then Raises ZeroDivisionError
  else Returns (Float.fl (inject_Z a / inject_Z b)).

(** [s[start:]]: a negative start counts from the end, and both are
    clipped to the list. *)
Definition slice_from {A} (start : Z) (s : list A) : list A :=
  let n := Z.of_nat (length s) in
  let i := if (start <? 0)%Z then Z.max (n + start) 0 else Z.min start n in
  skipn (Z.to_nat i) s.

(** [s[:stop]] for a non-negative stop *)
Definition slice_to {A} (stop : nat) (s : list A) : list A := firstn stop s.

(** [s[:stop]] for any integer stop: a negative stop counts from the
    end, and both are clipped to the list. *)
Definition slice_until {A} (stop : Z) (s : list A) : list A :=
  let n := Z.of_nat (length s) in
  let j := if (stop <? 0)%Z then Z.max (n + stop) 0 else Z.min stop n in
  firstn (Z.to_nat j) s.

(** [Counter(items)]: the counts, in the order of first occurrence. *)
Fixpoint count_one (counts : list (str * nat)) (item : str) : list (str * nat) :=
  match counts with
  | [] => [(item, 1)]
  | (k, n) :: counts' =>
      if Str.eqb k item then (k, S n) :: counts'
      else (k, n) :: count_one counts' item
  end.

Definition Counter (items : list str) : list (str * nat) :=
  fold_left count_one items [].

(** [counts.most_common(1)]: the first entry, in the order of the dict,
    whose count is the greatest; the empty list for an empty counter. *)
Fixpoint max_item_from (best : str * nat) (d : list (str * nat)) : str * nat :=
  match d with
  | [] => best
  | (k, v) :: d' =>
      if snd best <? v then max_item_from (k, v) d' else max_item_from best d'
  end.

Definition most_common_1 (counts : list (str * nat)) : list (str * nat) :=
  match counts with
  | [] => []
  | item :: counts' => [max_item_from item counts']
  end.

End Builtin.

(** ** The data of the pipeline *)

Record Validation := {
  valid : bool;
  reason : str;
  suggestion : option str
}.

Record CrisisCheck := {
  is_crisis : bool;
  severity : str;
  message : option str
}.

Record Turn := {
  role : str;
  content : str
}.

(** The dict of [detect_emotion]; the two short-circuit branches of
    [generate] build it with two keys only, hence the options. *)
Module EmotionData.
Record t := {
  primary_emotion : option str;
  confidence : option Q;
  sentiment : option str;
  intensity : option str;
  polarity : option Q;
  subjectivity : option Q
}.
End EmotionData.

Inductive value : Type :=
| VBool (b : bool)
| VInt (n : Z)
| VStr (s : str).

Module Reply.
Record t := {
  response : option str;
  emotion : str;
  emotion_confidence : Q;
  sentiment : str;
  intensity : str;
  emoji : str;
  color : str;
  is_safe : bool;
  metadata : list (str * value)
}.
End Reply.

(** ** The regular expressions of [re], as far as the source uses them *)

Module Re.

Inductive t : Type :=
| Eps
| Chr (p : ascii -> bool)
| Seq (a b : t)
| Alt (a b : t)
| Star (a : t)
| WordBoundary.

(** [r?], [r+], [r{n}], [r{0,n}] and a literal text; all greedy. *)
Definition Opt (r : t) : t := Alt r Eps.
Definition Plus (r : t) : t := Seq r (Star r).

Fixpoint Rep (n : nat) (r : t) : t :=
  match n with
  | O => Eps
  | S n' => Seq r (Rep n' r)
  end.

Fixpoint UpTo (n : nat) (r : t) : t :=
  match n with
  | O => Eps
  | S n' => Opt (Seq r (UpTo n' r))
  end.

Fixpoint Lit (s : str) : t :=
  match s with
  | [] => Eps
  | c :: s' => Seq (Chr (Ascii.eqb c)) (Lit s')
  end.

Definition one_of (chars : str) : ascii -> bool := fun c => Str.mem c chars.

Definition either (p q : ascii -> bool) : ascii -> bool := fun c => p c || q c.

Definition word_before (prev : option ascii) : bool :=
  match prev with
  | Some c => Str.is_word c
  | None => false
  end.

Definition word_after (s : str) : bool :=
  match s with
  | c :: _ => Str.is_word c
  | [] => false
  end.

(** A position in the subject: the character before it and the text
    after it. *)
Definition pos : Type := option ascii * str.

(** The backtracking matcher, in continuation-passing style: [run r prev s k]
    tries the ways [r] matches a prefix of [s] in the order of [re]
    (the left alternative first, one more iteration first) and returns
    the first for which the continuation [k] succeeds. *)
Fixpoint run (r : t) (prev : option ascii) (s : str)
    (k : option ascii -> str -> option pos) {struct r} : option pos :=
  match r with
  | Eps => k prev s
  | Chr p =>
      match s with
      | c :: s' => if p c then k (Some c) s' else None
      | [] => None
      end
  | Seq a b => run a prev s (fun prev' s' => run b prev' s' k)
  | Alt a b =>
      match run a prev s k with
      | Some x => Some x
      | None => run b prev s k
      end
  | Star a =>
      (fix loop (fuel : nat) (prev : option ascii) (s : str) : option pos :=
         match fuel with
         | O => k prev s
         | S fuel' =>
             match run a prev s
                     (fun prev' s' =>
                        if length s' <? length s then loop fuel' prev' s'
                        else None) with
             | Some x => Some x
             | None => k prev s
             end
         end) (length s) prev s
  | WordBoundary =>
      if xorb (word_before prev) (word_after s) then k prev s else None
  end.

(** [pattern.match] at one position: the position after the match. *)
Definition match_at (r : t) (prev : option ascii) (s : str) : option pos :=
  run r prev s (fun prev' s' => Some (prev', s')).

(** [re.sub(r, repl, s)], scanning from the left; [fuel] bounds the
    number of steps. An empty match counts as no match: no pattern of
    the source has one. *)
Fixpoint sub_from (fuel : nat) (r : t) (repl : str)
    (prev : option ascii) (s : str) : str :=
  match fuel with
  | O => s
  | S fuel' =>
      match match_at r prev s with
      | Some (prev', rest) =>
          if length rest <? length s
          then repl ++ sub_from fuel' r repl prev' rest
          else
            match s with
            | [] => []
            | c :: s' => c :: sub_from fuel' r repl (Some c) s'
            end
      | None =>
          match s with
          | [] => []
          | c :: s' => c :: sub_from fuel' r repl (Some c) s'
          end
      end
  end.

Definition sub (r : t) (repl : str) (s : str) : str :=
  sub_from (S (length s)) r repl None s.

(** The patterns without iteration and without \b, such as the pattern
    of phone numbers, and what they match: the words of their language,
    whatever comes before and after. *)
Fixpoint simple (r : t) : bool :=
  match r with
  | Eps | Chr _ => true
  | Seq a b | Alt a b => simple a && simple b
  | Star _ | WordBoundary => false
  end.

Fixpoint lang (r : t) (w : str) : Prop :=
  match r with
  | Eps => w = []
  | Chr p => exists c, w = [c] /\ p c = true
  | Seq a b => exists w1 w2, w = w1 ++ w2 /\ lang a w1 /\ lang b w2
  | Alt a b => lang a w \/ lang b w
  | Star _ | WordBoundary => False
  end.

(** Whether a simple pattern matches the empty word, the characters its
    words can start with, and the characters they can contain. *)
Fixpoint nullable (r : t) : bool :=
  match r with
  | Eps => true
  | Chr _ => false
  | Seq a b => nullable a && nullable b
  | Alt a b => nullable a || nullable b
  | Star _ | WordBoundary => true
  end.

Fixpoint first (r : t) (c : ascii) : bool :=
  match r with
  | Eps => false
  | Chr p => p c
  | Seq a b => first a c || (nullable a && first b c)
  | Alt a b => first a c || first b c
  | Star a => first a c
  | WordBoundary => false
  end.

Fixpoint alphabet (r : t) (c : ascii) : bool :=
  match r with
  | Eps => false
  | Chr p => p c
  | Seq a b | Alt a b => alphabet a c || alphabet b c
  | Star a => alphabet a c
  | WordBoundary => false
  end.

(** The character before the position reached after reading [w]. *)
Definition last_char (prev : option ascii) (w : str) : option ascii :=
  fold_left (fun _ c => Some c) w prev.

(** The words a pattern can match, iteration included; \b is taken to
    hold anywhere, so that every match of [run] is one of these words. *)
Inductive accepts : t -> str -> Prop :=
| accepts_eps : accepts Eps []
| accepts_chr p c : p c = true -> accepts (Chr p) [c]
| accepts_seq a b w1 w2 : accepts a w1 -> accepts b w2 -> accepts (Seq a b) (w1 ++ w2)
| accepts_left a b w : accepts a w -> accepts (Alt a b) w
| accepts_right a b w : accepts b w -> accepts (Alt a b) w
| accepts_stop a : accepts (Star a) []
| accepts_more a w1 w2 : accepts a w1 -> accepts (Star a) w2 -> accepts (Star a) (w1 ++ w2)
| accepts_boundary : accepts WordBoundary [].

Definition all_chars : list ascii := map ascii_of_nat (seq 0 256).

(** Every word of the pattern holds a character of the class [p]. *)
Fixpoint needs (p : ascii -> bool) (r : t) : bool :=
  match r with
  | Eps | Star _ | WordBoundary => false
  | Chr q => forallb (fun c => implb (q c) (p c)) all_chars
  | Seq a b => needs p a || needs p b
  | Alt a b => needs p a && needs p b
  end.

End Re.

(** ** safety_filter.py *)

Module SafetyFilter.

Definition crisis_keywords : list str :=
  [ py "suicide"; py "suicidal"; py "kill myself"; py "end my life";
    py "die"; py "self harm"; py "cutting"; py "overdose"; py "hurt myself";
    py "want to die"; py "better off dead"; py "no reason to live" ].

Definition medical_keywords : list str :=
  [ py "diagnose"; py "diagnosis"; py "prescribe"; py "prescription";
    py "medication"; py "disorder"; py "condition"; py "treatment plan";
    py "therapy"; py "cure"; py "illness"; py "disease"; py "syndrome";
    py "clinical" ].

Definition prohibited_phrases : list str :=
  [ py "you have"; py "you are diagnosed"; py "you suffer from";
    py "i diagnose"; py "you need medication"; py "take these pills";
    py "you should stop taking"; py "this is definitely" ].

Definition _get_crisis_response : str :=
  py "I'm concerned about what you've shared. Please know that you don't have to face this alone.

**If you're in immediate danger, please:**
• Call emergency services (911 in US)
• Go to your nearest emergency room
• Call a crisis hotline:
  - National Suicide Prevention Lifeline: 988
  - Crisis Text Line: Text HOME to 741741
  - International: findahelpline.com

You deserve support from trained professionals who can help you through this. I'm here to listen, but I'm not equipped to handle crisis situations. Please reach out to one of the resources above.".

Definition check_crisis (text : str) : CrisisCheck :=
  let text_lower := Str.lower text in
  let crisis_detected := Str.any_in crisis_keywords text_lower in
  if crisis_detected then
    {| is_crisis := true;
       severity := py "high";
       message := Some _get_crisis_response |}
  else
    {| is_crisis := false;
       severity := py "none";
       message := None |}.

Definition mental_health_terms : list str :=
  [ py "depression"; py "anxiety"; py "mental health"; py "therapy";
    py "counseling"; py "psychologist"; py "psychiatrist" ].

Definition _is_mental_health_topic (text : str) : bool :=
  Str.any_in mental_health_terms text.

Definition disclaimer : str :=
  py "

*Remember: I'm here for support, but I'm not a therapist or medical professional.*".

Definition _add_disclaimer (response : str) : str :=
  if negb (Str.contains disclaimer response) then response ++ disclaimer
  else response.

Definition _get_safe_alternative : str :=
  py "I want to support you, but I'm not qualified to provide medical advice or diagnosis. 

If you're experiencing mental health concerns, I encourage you to:
• Speak with a healthcare provider
• Contact a mental health professional
• Call a helpline for guidance

I'm here to listen and provide general emotional support. How are you feeling right now?".

Definition filter_response (response user_message : str) : str * bool :=
  let response_lower := Str.lower response in
  let contains_medical := Str.any_in medical_keywords response_lower in
  let contains_prohibited := Str.any_in prohibited_phrases response_lower in
  if contains_medical || contains_prohibited then
    let safe_response := _get_safe_alternative in
    (safe_response, false)
  else
    let response :=
      if _is_mental_health_topic response_lower then _add_disclaimer response
      else response in
    (response, true).

(** The test of the gibberish branch, [or] evaluated left to right:
    [text[0]] is read only when the text has three distinct characters
    or more. *)
Definition looks_like_gibberish (text : str) : outcome bool :=
  if Str.distinct text <? 3 then Returns true
  else
    let? first := Builtin.index text 0 in
    Returns (Float.gtb (inject_Z (Z.of_nat (Str.count first text)))
               (Float.mul (Float.of_int (Z.of_nat (length text)))
                  (Float.lit (7 # 10)))).

Definition validate_user_input (text : str) : outcome Validation :=
  if match text with [] => true | _ => false end
     || (length (Str.strip text) <? 2) then
    Returns {| valid := false;
               reason := py "empty";
               suggestion := Some (py "Please share what's on your mind.") |}
  else
    let? gibberish := looks_like_gibberish text in
    if gibberish then
      Returns {| valid := false;
                 reason := py "gibberish";
                 suggestion :=
                   Some (py "I'm having trouble understanding. Could you rephrase that?") |}
    else if 1000 <? length text then
      Returns {| valid := true;
                 reason := py "long";
                 suggestion :=
                   Some (py "That's a lot to process! Let's break it down together.") |}
    else
      Returns {| valid := true;
                 reason := py "ok";
                 suggestion := None |}.

(** http[s]?://(?:[a-zA-Z]|[0-9]|[$-_@.&+]|[!*\\(\\),]|(?:%[0-9a-fA-F][0-9a-fA-F]))+ *)
Definition hex_digit : ascii -> bool :=
  Re.either Str.is_digit
    (Re.either (Str.between 97 102) (Str.between 65 70)).

Definition url_char : Re.t :=
  Re.Alt (Re.Chr Str.is_alpha)
    (Re.Alt (Re.Chr Str.is_digit)
       (Re.Alt (Re.Chr (Re.either (Str.between 36 95) (Re.one_of (py "@.&+"))))
          (Re.Alt (Re.Chr (Re.one_of (py "!*\(\),")))
             (Re.Seq (Re.Chr (Re.one_of (py "%")))
                (Re.Seq (Re.Chr hex_digit) (Re.Chr hex_digit)))))).

Definition url_pattern : Re.t :=
  Re.Seq (Re.Lit (py "http"))
    (Re.Seq (Re.Opt (Re.Chr (Re.one_of (py "s"))))
       (Re.Seq (Re.Lit (py "://")) (Re.Plus url_char))).

(** \b[A-Za-z0-9._%+-]+@[A-Za-z0-9.-]+\.[A-Z|a-z]{2,}\b *)
Definition alnum : ascii -> bool := Re.either Str.is_alpha Str.is_digit.

Definition email_pattern : Re.t :=
  Re.Seq Re.WordBoundary
    (Re.Seq (Re.Plus (Re.Chr (Re.either alnum (Re.one_of (py "._%+-")))))
       (Re.Seq (Re.Chr (Re.one_of (py "@")))
          (Re.Seq (Re.Plus (Re.Chr (Re.either alnum (Re.one_of (py ".-")))))
             (Re.Seq (Re.Chr (Re.one_of (py ".")))
                (Re.Seq
                   (Re.Seq (Re.Rep 2 (Re.Chr (Re.either Str.is_alpha (Re.one_of (py "|")))))
                      (Re.Star (Re.Chr (Re.either Str.is_alpha (Re.one_of (py "|"))))))
                   Re.WordBoundary))))).

(** (\+\d{1,3}[-.\s]?)?\(?\d{3}\)?[-.\s]?\d{3}[-.\s]?\d{4} *)
Definition digit : Re.t := Re.Chr Str.is_digit.

Definition separator : Re.t :=
  Re.Opt (Re.Chr (Re.either (Re.one_of (py "-.")) Str.is_space)).

Definition phone_pattern : Re.t :=
  Re.Seq
    (Re.Opt
       (Re.Seq (Re.Chr (Re.one_of (py "+")))
          (Re.Seq (Re.Seq digit (Re.UpTo 2 digit)) separator)))
    (Re.Seq (Re.Opt (Re.Chr (Re.one_of (py "("))))
       (Re.Seq (Re.Rep 3 digit)
          (Re.Seq (Re.Opt (Re.Chr (Re.one_of (py ")"))))
             (Re.Seq separator
                (Re.Seq (Re.Rep 3 digit)
                   (Re.Seq separator (Re.Rep 4 digit))))))).

Definition link_removed : str := py "[link removed]".
Definition email_removed : str := py "[email removed]".
Definition phone_removed : str := py "[phone removed]".

Definition sanitize_output (text : str) : str :=
  let text := Re.sub url_pattern link_removed text in
  let text := Re.sub email_pattern email_removed text in
  let text := Re.sub phone_pattern phone_removed text in
  text.

End SafetyFilter.

(** ** The environment and the state *)

(** What the process finds around it: the optional packages, the
    environment variable, the remote text-generation service and the
    sentiment scorer (each may return or raise), and the numbers the
    random module draws. *)
Record Env := {
  HAS_HF_CLIENT : bool;
  HUGGINGFACE_API_KEY : option str;
  text_generation : str -> str -> outcome str;
  HAS_TEXTBLOB : bool;
  textblob_sentiment : str -> outcome (Q * Q);
  random_source : nat -> nat
}.

(** The attributes of an [LLMHandler]. *)
Record LLMHandlerObj := {
  api_key : option str;
  use_client : bool;
  current_model : str
}.

(** The calls [generate] makes on its collaborators, in a log kept next to
    the state. *)
Inductive call : Type :=
| CValidateUserInput
| CCheckCrisis
| CDetectEmotion
| CBuildPrompt
| CGenerateResponse
| CTextGeneration
| CFallbackResponse
| CRandomChoice
| CFilterResponse
| CSanitizeOutput
| CUpdateHistory.

(** The attributes of a [ResponseGenerator], the number of draws made from
    the random module, and the log of calls. *)
Record World := {
  llm : LLMHandlerObj;
  conversation_history : list Turn;
  draws : nat;
  calls : list call
}.

Definition M (A : Type) : Type := World -> outcome A * World.

Definition ret {A} (a : A) : M A := fun w => (Returns a, w).

Definition raise {A} (e : exn) : M A := fun w => (Raises e, w).

Definition bind {A B} (m : M A) (k : A -> M B) : M B :=
  fun w =>
    match m w with
    | (Returns a, w') => k a w'
    | (Raises e, w') => (Raises e, w')
    end.

(** [try: body except Exception as e: handler] *)
Definition try_except {A} (body : M A) (handler : exn -> M A) : M A :=
  fun w =>
    match body w with
    | (Returns a, w') => (Returns a, w')
    | (Raises e, w') => handler e w'
    end.

Definition lift {A} (o : outcome A) : M A := fun w => (o, w).

Definition get_world : M World := fun w => (Returns w, w).

Definition put_world (w : World) : M unit := fun _ => (Returns tt, w).

Notation "x <- m ;; k" := (bind m (fun x => k))
  (at level 61, m at next level, right associativity) : py_scope.

Notation "' p <- m ;; k" := (bind m (fun x => match x with p => k end))
  (at level 61, p pattern, m at next level, right associativity) : py_scope.

Notation "m ;; k" := (bind m (fun _ => k))
  (at level 61, right associativity) : py_scope.

Definition log (c : call) : M unit :=
  fun w =>
    (Returns tt,
     {| llm := llm w;
        conversation_history := conversation_history w;
        draws := draws w;
        calls := calls w ++ [c] |}).

(** A call on a collaborator that keeps no state. *)
Definition invoke {A} (c : call) (o : outcome A) : M A := log c ;; lift o.

(** [random.choice(seq)]: the element at a drawn index below [len(seq)],
    IndexError on an empty sequence. *)
Definition random_choice {A} (env : Env) (seq : list A) : M A :=
  log CRandomChoice ;;
  w <- get_world ;;
  put_world {| llm := llm w;
               conversation_history := conversation_history w;
               draws := S (draws w);
               calls := calls w |} ;;
  lift (Builtin.index seq (random_source env (draws w) mod length seq)).

(** ** emotion_detector.py *)

Module EmotionDetector.

Definition emotion_keywords : list (str * list str) :=
  [
    (py "sad",
       [ py "sad"; py "depressed"; py "down"; py "unhappy"; py "miserable";
         py "crying"; py "tears"; py "hopeless"; py "lonely"; py "empty";
         py "hurt"; py "pain"; py "grief"; py "loss"; py "heartbroken";
         py "devastated" ]);
    (py "anxious",
       [ py "anxious"; py "worried"; py "nervous"; py "stress"; py "panic";
         py "fear"; py "scared"; py "overwhelmed"; py "tense";
         py "restless"; py "uneasy"; py "terrified"; py "afraid";
         py "concern"; py "dread" ]);
    (py "angry",
       [ py "angry"; py "mad"; py "furious"; py "annoyed"; py "irritated";
         py "frustrated"; py "rage"; py "upset"; py "hate"; py "pissed";
         py "infuriated"; py "resentful" ]);
    (py "happy",
       [ py "happy"; py "joy"; py "excited"; py "great"; py "wonderful";
         py "amazing"; py "love"; py "grateful"; py "blessed";
         py "content"; py "cheerful"; py "delighted"; py "pleased";
         py "glad"; py "fantastic" ]);
    (py "fearful",
       [ py "fear"; py "scared"; py "afraid"; py "terrified";
         py "frightened"; py "horror"; py "panic"; py "dread"; py "phobia";
         py "nightmare" ]);
    (py "confused",
       [ py "confused"; py "lost"; py "unsure"; py "don't know";
         py "uncertain"; py "puzzled"; py "mixed"; py "conflicted" ]) ].

Definition intensity_words : list (str * list str) :=
  [
    (py "high",
       [ py "very"; py "extremely"; py "incredibly"; py "so"; py "really";
         py "absolutely" ]);
    (py "low",
       [ py "a bit"; py "slightly"; py "somewhat"; py "kind of";
         py "sort of" ]) ].

Definition positive_words : list str :=
  [
    py "happy"; py "joy"; py "good"; py "great"; py "wonderful";
    py "amazing"; py "love"; py "glad"; py "fantastic"; py "pleased";
    py "excited"; py "grateful"].

Definition negative_words : list str :=
  [
    py "sad"; py "depressed"; py "bad"; py "terrible"; py "awful";
    py "hate"; py "angry"; py "miserable"; py "lonely"; py "upset";
    py "anxious"; py "worried"].

Definition _calculate_intensity (text : str) (subjectivity : Q) : outcome str :=
  let? high_words := Builtin.subscript intensity_words (py "high") in
  let high_count := Str.count_in high_words text in
  let? low_words := Builtin.subscript intensity_words (py "low") in
  let low_count := Str.count_in low_words text in
  let? caps_ratio :=
    Builtin.truediv (Z.of_nat (length (filter Str.is_upper text)))
      (Z.max (Z.of_nat (length text)) 1) in
  let exclamation_count := Str.count "!"%char text in
  let intensity_score :=
    Float.sub
      (Float.add
         (Float.add
            (Float.add (Float.of_int (Z.of_nat high_count * 2))
               (Float.mul (Float.of_int (Z.of_nat exclamation_count))
                  (Float.lit (3 # 2))))
            (Float.mul caps_ratio (Float.of_int 10)))
         (Float.mul subjectivity (Float.of_int 2)))
      (Float.of_int (Z.of_nat low_count * 2)) in
  if Float.gtb intensity_score 5 then Returns (py "high")
  else if Float.gtb intensity_score 2 then Returns (py "medium")
  else Returns (py "low").

(** The polarity and the subjectivity: TextBlob's when the package is
    there (0.0 and 0.0 when it raises), a count of keywords otherwise. *)
Definition sentiment_scores (env : Env) (text : str) : outcome (Q * Q) :=
  if HAS_TEXTBLOB env then
    match textblob_sentiment env text with
    | Returns (polarity, subjectivity) => Returns (polarity, subjectivity)
    | Raises _ => Returns (Float.lit 0, Float.lit 0)
    end
  else
    let text_lower := Str.lower text in
    let pos_count := Z.of_nat (Str.count_in positive_words text_lower) in
    let neg_count := Z.of_nat (Str.count_in negative_words text_lower) in
    let? polarity :=
      if (pos_count + neg_count =? 0)%Z then Returns (Float.lit 0)
      else Builtin.truediv (pos_count - neg_count)
             (Z.max 1 (pos_count + neg_count)) in
    Returns (polarity, Float.lit 0).

Definition detect_emotion (env : Env) (text : str) : outcome EmotionData.t :=
  let text_lower := Str.lower text in
  let? '(polarity, subjectivity) := sentiment_scores env text in
  let emotion_scores :=
    flat_map
      (fun '(emotion, keywords) =>
         let score := Str.count_in keywords text_lower in
         if 0 <? score then [(emotion, score)] else [])
      emotion_keywords in
  let? '(primary_emotion, confidence) :=
    match emotion_scores with
    | _ :: _ =>
        let? primary_emotion := Builtin.max_key emotion_scores in
        let? score := Builtin.subscript emotion_scores primary_emotion in
        Returns (primary_emotion,
                 Float.min (Float.mul (Float.of_int (Z.of_nat score))
                              (Float.lit (1 # 4)))
                   (Float.lit 1))
    | [] =>
        if Float.gtb polarity (Float.lit (3 # 10)) then
          Returns (py "happy", polarity)
        else if Float.ltb polarity (Float.lit (- (3 # 10))) then
          Returns (py "sad", Float.abs polarity)
        else
          Returns (py "neutral", Float.lit (1 # 2))
    end in
  let? intensity := _calculate_intensity text_lower subjectivity in
  let sentiment :=
    if Float.gtb polarity (Float.lit (1 # 10)) then py "positive"
    else if Float.ltb polarity (Float.lit (- (1 # 10))) then py "negative"
    else py "neutral" in
  Returns
    {| EmotionData.primary_emotion := Some primary_emotion;
       EmotionData.confidence := Some (Float.round2 confidence);
       EmotionData.sentiment := Some sentiment;
       EmotionData.intensity := Some intensity;
       EmotionData.polarity := Some (Float.round2 polarity);
       EmotionData.subjectivity := Some (Float.round2 subjectivity) |}.

Definition emoji_map : list (str * str) :=
  [ (py "sad", py "ðŸ˜¢");
    (py "anxious", py "ðŸ˜°");
    (py "angry", py "ðŸ˜ ");
    (py "happy", py "ðŸ˜Š");
    (py "fearful", py "ðŸ˜¨");
    (py "confused", py "ðŸ˜•");
    (py "neutral", py "ðŸ˜") ].

Definition get_emotion_emoji (emotion : str) : str :=
  Builtin.get_or emoji_map emotion (py "ðŸ’­").

Definition color_map : list (str * str) :=
  [ (py "sad", py "#6B8E23");
    (py "anxious", py "#FF8C00");
    (py "angry", py "#DC143C");
    (py "happy", py "#32CD32");
    (py "fearful", py "#9370DB");
    (py "confused", py "#4682B4");
    (py "neutral", py "#808080") ].

Definition get_emotion_color (emotion : str) : str :=
  Builtin.get_or color_map emotion (py "#808080").

End EmotionDetector.

(** ** utils/prompts.py *)

Module PromptBuilder.

Definition system_prompt : str :=
  py "You are a compassionate mental wellness companion. Your role is to:

- Listen actively and validate emotions
- Provide supportive, non-judgmental responses
- Offer general wellness tips and coping strategies
- Encourage self-care and healthy habits
- NEVER diagnose or provide medical advice
- NEVER claim to be a therapist or medical professional
- Redirect to professional help when appropriate

Guidelines:
- Keep responses warm, empathetic, and concise (2-4 sentences)
- Use " ++ dquote ++ py "I understand" ++ dquote ++ py ", " ++ dquote ++ py "That sounds difficult" ++ dquote ++ py ", " ++ dquote ++ py "Your feelings are valid" ++ dquote ++ py "
- Ask thoughtful follow-up questions
- Suggest healthy coping mechanisms
- Avoid clinical language
- Be authentic and human

If someone is in crisis, immediately suggest professional crisis resources.".

Definition emotion_guidance : list (str * str) :=
  [ (py "sad",
     py "The user is feeling sad. Acknowledge their pain, validate their feelings, 
            and gently encourage them without dismissing their emotions. Suggest small, 
            manageable self-care activities.");
    (py "anxious",
     py "The user is feeling anxious. Help them feel grounded. Suggest 
            breathing exercises or grounding techniques. Remind them this feeling is temporary.");
    (py "angry",
     py "The user is feeling angry. Validate that anger is a normal emotion. 
            Help them identify what triggered it. Suggest healthy ways to process these feelings.");
    (py "happy",
     py "The user is feeling happy! Celebrate with them. Ask what contributed 
            to these positive feelings. Encourage them to savor this moment.");
    (py "fearful",
     py "The user is feeling fearful. Provide reassurance. Help them feel 
            safe. Break down their fears into manageable pieces. Remind them of their strength.");
    (py "confused",
     py "The user is feeling confused. Help them organize their thoughts. 
            Ask clarifying questions. Break things down step by step.");
    (py "neutral",
     py "Engage warmly and naturally. Ask open-ended questions to understand 
            how they're really feeling.") ].

Definition _get_emotion_context (emotion : str) : outcome str :=
  let? default := Builtin.subscript emotion_guidance (py "neutral") in
  Returns (Builtin.get_or emotion_guidance emotion default).

Definition _format_history (history : list Turn) (max_turns : Z) : str :=
  let recent_history :=
    if (max_turns * 2 <? Z.of_nat (length history))%Z
    then Builtin.slice_from (- (max_turns * 2)) history
    else history in
  let formatted :=
    map (fun msg =>
           let role := if Str.eqb (role msg) (py "user")
                       then py "User" else py "Assistant" in
           let content := Builtin.slice_to 200 (content msg) in
           role ++ py ": " ++ content)
        recent_history in
  Str.join (py "
") formatted.

Definition build_prompt (user_message emotion : str)
    (conversation_history : list Turn) : outcome str :=
  let prompt_parts := [system_prompt] in
  let? emotion_context := _get_emotion_context emotion in
  let prompt_parts :=
    prompt_parts ++
    [py "
Current user emotion: " ++ emotion ++ py "
" ++ emotion_context] in
  let prompt_parts :=
    match conversation_history with
    | _ :: _ =>
        let history_text := _format_history conversation_history 3 in
        prompt_parts ++ [py "
Conversation history:
" ++ history_text]
    | [] => prompt_parts
    end in
  let prompt_parts :=
    prompt_parts ++
    [py "
User: " ++ user_message ++ py "

Respond with empathy and support:"] in
  Returns (Str.join (py "
") prompt_parts).

End PromptBuilder.

(** ** llm_handler.py *)

Module LLMHandler.

Definition models : list (str * str) :=
  [ (py "primary", py "mistralai/Mistral-7B-Instruct-v0.1");
    (py "fallback", py "gpt2") ].

Definition truthy (s : option str) : bool :=
  match s with
  | Some (_ :: _) => true
  | _ => false
  end.

(** [LLMHandler(api_key)] *)
Definition __init__ (env : Env) (api_key : option str) : outcome LLMHandlerObj :=
  let api_key := if truthy api_key then api_key else HUGGINGFACE_API_KEY env in
  let use_client := HAS_HF_CLIENT env && truthy api_key in
  let? primary := Builtin.subscript models (py "primary") in
  Returns {| api_key := api_key;
             use_client := use_client;
             current_model := primary |}.

Definition _clean_response (text : str) : outcome str :=
  let text := Str.strip text in
  match text with
  | [] => Returns text
  | _ :: _ =>
      let? last := Builtin.index text (length text - 1) in
      if negb (Str.mem last (py ".!?")) then
        let last_punct :=
          Z.max (Z.max (Str.rfind "."%char text) (Str.rfind "!"%char text))
            (Str.rfind "?"%char text) in
        if (0 <? last_punct)%Z
        then Returns (Builtin.slice_to (Z.to_nat (last_punct + 1)) text)
        else Returns text
      else Returns text
  end.

Definition fallback_responses : list (str * list str) :=
  [
    (py "sad",
       [ py "I hear you, and it's completely okay to feel this way right now.";
         py "These difficult emotions are temporary, even though they feel heavy.";
         py "You're stronger than you realize. Let's take this one moment at a time.";
         py "What you're feeling is valid. Would it help to talk about what's troubling you?";
         py "Sometimes we all need support. I'm here to listen without judgment." ]);
    (py "anxious",
       [ py "Anxiety can feel overwhelming, but remember: you've handled difficult moments before.";
         py "Try this: breathe in for 4 counts, hold for 4, breathe out for 6. Let's slow things down.";
         py "What's one small thing you could control right now? Sometimes focusing helps.";
         py "Your worries are real, but not everything you worry about will happen.";
         py "Grounding yourself might help. What's one thing you can see, hear, or feel right now?" ]);
    (py "angry",
       [ py "Your anger is valid. Strong feelings mean something matters to you.";
         py "Before acting on this feeling, pause. What do you really need right now?";
         py "It's okay to be frustrated. Let's explore what's really bothering you.";
         py "Anger often masks another emotion. Can you dig deeper into what you're feeling?";
         py "Taking a break might help. What usually calms you down?" ]);
    (py "happy",
       [ py "That's wonderful! I'm genuinely glad you're experiencing these positive feelings.";
         py "This is beautiful to hear. What's making you feel so good right now?";
         py "Let's celebrate this moment with you! What's contributing most?";
         py "Savor this feeling! These good moments are important and worth recognizing.";
         py "Your joy is contagious. Keep embracing these positive moments!" ]);
    (py "neutral",
       [ py "I'm here and listening. What's on your mind today?";
         py "How are you truly feeling beneath the surface?";
         py "I'm interested in what you have to share. What brings you here?";
         py "Take your time. I'm ready to listen to whatever you want to express.";
         py "Tell me more. What would be most helpful to talk about right now?" ]);
    (py "fearful",
       [ py "Fear is natural, but you're safe right now in this moment.";
         py "What you're afraid of feels real, and that's okay. Let's face it together.";
         py "You're braver than you believe. What specifically is scaring you?";
         py "Fear often shrinks when we talk about it. I'm here to listen.";
         py "Remember: you've overcome challenges before. This is just one more." ]) ].

Definition context_additions : list (str * str) :=
  [ (py "sleep|tired|exhausted",
     py " Getting quality sleep could really help you right now.");
    (py "work|job|boss|colleague",
     py " Work stress is real. Remember, you deserve breaks and boundaries.");
    (py "relationship|friend|family|love",
     py " Relationships matter. Communication is often the first step.");
    (py "health|sick|pain|hurt",
     py " Your wellbeing is important. Take care of yourself first.");
    (py "money|financial|broke|debt",
     py " Financial stress is significant. But you have more control than you think.");
    (py "future|tomorrow|worry|what if",
     py " Focus on today. Tomorrow will take care of itself.") ].

(** The loop over [context_additions.items()], with its [break]. *)
Fixpoint add_context (items : list (str * str)) (user_message_lower : str)
    (base_response : str) : str :=
  match items with
  | [] => base_response
  | (keywords, addition) :: items' =>
      if Str.any_in (Str.split "|"%char keywords) user_message_lower
      then Str.rstrip (py ".!?") base_response ++ py "." ++ addition
      else add_context items' user_message_lower base_response
  end.

Definition _fallback_response (env : Env) (emotion user_message : str) : M str :=
  log CFallbackResponse ;;
  default <- lift (Builtin.subscript fallback_responses (py "neutral")) ;;
  let responses := Builtin.get_or fallback_responses emotion default in
  base_response <- random_choice env responses ;;
  let user_message_lower := Str.lower user_message in
  ret (add_context context_additions user_message_lower base_response).

(** The handler of the [except] clause prints the error and the trace
    before it falls back; the model leaves the printing out. *)
Definition generate_response (env : Env) (prompt emotion : str) : M str :=
  log CGenerateResponse ;;
  w <- get_world ;;
  if negb (truthy (api_key (llm w))) || negb (use_client (llm w)) then
    _fallback_response env emotion prompt
  else
    try_except
      (log CTextGeneration ;;
       response_text <- lift (text_generation env prompt (current_model (llm w))) ;;
       match response_text with
       | _ :: _ => lift (_clean_response response_text)
       | [] => _fallback_response env emotion prompt
       end)
      (fun e => _fallback_response env emotion prompt).

Definition switch_model (model_type : str) : M bool :=
  match Builtin.get models model_type with
  | Some m =>
      w <- get_world ;;
      put_world {| llm := {| api_key := api_key (llm w);
                             use_client := use_client (llm w);
                             current_model := m |};
                   conversation_history := conversation_history w;
                   draws := draws w;
                   calls := calls w |} ;;
      ret true
  | None => ret false
  end.

End LLMHandler.

(** ** response_generator.py *)

Module ResponseGenerator.

(** [ResponseGenerator(api_key)] *)
Definition __init__ (env : Env) (api_key : option str) : outcome World :=
  let? handler := LLMHandler.__init__ env api_key in
  Returns {| llm := handler;
             conversation_history := [];
             draws := 0;
             calls := [] |}.

Definition _create_response_object (response : option str)
    (emotion_data : EmotionData.t) (is_safe : bool)
    (metadata : list (str * value)) : Reply.t :=
  let get_str (field : option str) (default : str) :=
    match field with Some v => v | None => default end in
  let primary := get_str (EmotionData.primary_emotion emotion_data) (py "neutral") in
  {| Reply.response := response;
     Reply.emotion := primary;
     Reply.emotion_confidence :=
       match EmotionData.confidence emotion_data with
       | Some c => c
       | None => Float.lit (1 # 2)
       end;
     Reply.sentiment := get_str (EmotionData.sentiment emotion_data) (py "neutral");
     Reply.intensity := get_str (EmotionData.intensity emotion_data) (py "medium");
     Reply.emoji := EmotionDetector.get_emotion_emoji primary;
     Reply.color := EmotionDetector.get_emotion_color primary;
     Reply.is_safe := is_safe;
     Reply.metadata := metadata |}.

Definition _update_history (user_msg bot_msg : str) (max_history : Z) : M unit :=
  log CUpdateHistory ;;
  w <- get_world ;;
  let history :=
    (conversation_history w ++ [{| role := py "user"; content := user_msg |}])
    ++ [{| role := py "assistant"; content := bot_msg |}] in
  let history :=
    if (max_history * 2 <? Z.of_nat (length history))%Z
    then Builtin.slice_from (- (max_history * 2)) history
    else history in
  put_world {| llm := llm w;
               conversation_history := history;
               draws := draws w;
               calls := calls w |}.

(** The two-key dicts of the short-circuit branches. *)
Definition emotion_only (emotion : str) (confidence : Q) : EmotionData.t :=
  {| EmotionData.primary_emotion := Some emotion;
     EmotionData.confidence := Some confidence;
     EmotionData.sentiment := None;
     EmotionData.intensity := None;
     EmotionData.polarity := None;
     EmotionData.subjectivity := None |}.

(** [d["primary_emotion"]] *)
Definition primary_emotion_of (emotion_data : EmotionData.t) : outcome str :=
  match EmotionData.primary_emotion emotion_data with
  | Some e => Returns e
  | None => Raises (KeyError (py "primary_emotion"))
  end.

Definition generate (env : Env) (user_message : str)
    (conversation_context : option (list Turn)) : M Reply.t :=
  (* Step 1: validate input *)
  validation <- invoke CValidateUserInput
                  (SafetyFilter.validate_user_input user_message) ;;
  if negb (valid validation) then
    ret (_create_response_object (suggestion validation)
           (emotion_only (py "neutral") (Float.lit 1)) true
           [(py "validation_failed", VBool true)])
  else
  (* Step 2: check for crisis *)
  crisis_check <- invoke CCheckCrisis
                    (Returns (SafetyFilter.check_crisis user_message)) ;;
  if is_crisis crisis_check then
    ret (_create_response_object (message crisis_check)
           (emotion_only (py "fearful") (Float.lit 1)) true
           [(py "is_crisis", VBool true)])
  else
  (* Step 3: detect emotion *)
  emotion_data <- invoke CDetectEmotion
                    (EmotionDetector.detect_emotion env user_message) ;;
  (* Step 4: build the prompt *)
  emotion <- lift (primary_emotion_of emotion_data) ;;
  w <- get_world ;;
  let history :=
    match conversation_context with
    | Some (t :: ts) => t :: ts
    | _ => conversation_history w
    end in
  prompt <- invoke CBuildPrompt
              (PromptBuilder.build_prompt user_message emotion history) ;;
  (* Step 5: generate the response *)
  emotion <- lift (primary_emotion_of emotion_data) ;;
  raw_response <- LLMHandler.generate_response env prompt emotion ;;
  (* Step 6: safety filter *)
  '(filtered_response, is_safe) <-
    invoke CFilterResponse
      (Returns (SafetyFilter.filter_response raw_response user_message)) ;;
  (* Step 7: sanitize output *)
  final_response <- invoke CSanitizeOutput
                      (Returns (SafetyFilter.sanitize_output filtered_response)) ;;
  (* Step 8: update the conversation history *)
  _update_history user_message final_response 10 ;;
  (* Step 9: the response object *)
  w <- get_world ;;
  ret (_create_response_object (Some final_response) emotion_data is_safe
         [(py "model_used", VStr (current_model (llm w)));
          (py "prompt_length", VInt (Z.of_nat (length prompt)))]).

Definition reset_conversation : M unit :=
  w <- get_world ;;
  put_world {| llm := llm w;
               conversation_history := [];
               draws := draws w;
               calls := calls w |}.

(** The dict of [get_conversation_summary]; the distribution is left out
    of it when the history is empty. *)
Record Summary := {
  message_count : nat;
  dominant_emotion : str;
  emotion_distribution : option (list (str * nat))
}.

(** [[detect_emotion(msg)["primary_emotion"] for msg in user_messages]] *)
Fixpoint emotions_of (env : Env) (user_messages : list str) : outcome (list str) :=
  match user_messages with
  | [] => Returns []
  | msg :: rest =>
      let? emotion_data := EmotionDetector.detect_emotion env msg in
      let? emotion := primary_emotion_of emotion_data in
      let? emotions := emotions_of env rest in
      Returns (emotion :: emotions)
  end.

Definition get_conversation_summary (env : Env) (w : World) : outcome Summary :=
  match conversation_history w with
  | [] =>
      Returns {| message_count := 0;
                 dominant_emotion := py "neutral";
                 emotion_distribution := None |}
  | _ :: _ =>
      let user_messages :=
        map content
          (filter (fun msg => Str.eqb (role msg) (py "user"))
             (conversation_history w)) in
      let? emotions := emotions_of env user_messages in
      let emotion_counts := Builtin.Counter emotions in
      let? dominant_emotion :=
        match emotions with
        | _ :: _ =>
            let? top := Builtin.index (Builtin.most_common_1 emotion_counts) 0 in
            Returns (fst top)
        | [] => Returns (py "neutral")
        end in
      Returns {| message_count := length user_messages;
                 dominant_emotion := dominant_emotion;
                 emotion_distribution := Some emotion_counts |}
  end.

Definition suggestions : list (str * list str) :=
  [
    (py "sad",
       [ py "Tell me more about what's bothering you";
         py "What usually helps when you feel this way?";
         py "I'm here to listen" ]);
    (py "anxious",
       [ py "Let's try a breathing exercise";
         py "What's making you feel anxious?";
         py "How can I support you right now?" ]);
    (py "angry",
       [ py "Tell me what happened";
         py "What triggered these feelings?";
         py "Take your time to express yourself" ]);
    (py "happy",
       [ py "That's wonderful! Tell me more";
         py "What made your day better?";
         py "I'm glad to hear that!" ]);
    (py "neutral",
       [ py "How are you feeling today?";
         py "What's on your mind?";
         py "Tell me about your day" ]) ].

Definition get_suggestions (emotion : str) : outcome (list str) :=
  let? default := Builtin.subscript suggestions (py "neutral") in
  Returns (Builtin.get_or suggestions emotion default).

End ResponseGenerator.

(** ** utils/helpers.py *)

Module Helpers.

Definition truncate_text (text : str) (max_length : Z) (suffix : str) : str :=
  if (Z.of_nat (length text) <=? max_length)%Z then text
  else Builtin.slice_until (max_length - Z.of_nat (length suffix)) text ++ suffix.

End Helpers.

(** ** The vocabulary of the specification *)

Module Spec.

(** The text contains the keyword, whatever the case of its letters. *)
Definition contains_ci (keyword text : str) : Prop :=
  exists before found after,
    text = before ++ found ++ after /\ Str.lower found = Str.lower keyword.

Definition has_crisis_keyword (text : str) : Prop :=
  exists keyword,
    In keyword SafetyFilter.crisis_keywords /\ contains_ci keyword text.

(** A medical or diagnostic keyword, or a prohibited phrase. *)
Definition flagged (response : str) : Prop :=
  exists keyword,
    In keyword (SafetyFilter.medical_keywords ++ SafetyFilter.prohibited_phrases)
    /\ contains_ci keyword response.

(** The user message names one of the topics of a group
    such as sleep|tired|exhausted. *)
Definition mentions (group user_message : str) : bool :=
  Str.any_in (Str.split "|"%char group) (Str.lower user_message).

(** The addendum the specification asks for: that of the first group,
    in the order of declaration, the user message mentions. *)
Fixpoint addendum_for (items : list (str * str)) (user_message : str)
    : option str :=
  match items with
  | [] => None
  | (group, addition) :: items' =>
      if mentions group user_message then Some addition
      else addendum_for items' user_message
  end.

(** The uppercase-character ratio of a text. *)
Definition uppercase_ratio (text : str) : outcome Q :=
  Builtin.truediv (Z.of_nat (length (filter Str.is_upper text)))
    (Z.max (Z.of_nat (length text)) 1).

(** The intensity the specification defines: the score of section 4.1,
    its uppercase ratio taken on the input text. *)
Definition intensity (text : str) (subjectivity : Q) : outcome str :=
  let text_lower := Str.lower text in
  let? high_words := Builtin.subscript EmotionDetector.intensity_words (py "high") in
  let? low_words := Builtin.subscript EmotionDetector.intensity_words (py "low") in
  let high_count := Z.of_nat (Str.count_in high_words text_lower) in
  let low_count := Z.of_nat (Str.count_in low_words text_lower) in
  let exclamation_count := Z.of_nat (Str.count "!"%char text) in
  let? ratio := uppercase_ratio text in
  let score :=
    Float.sub
      (Float.add
         (Float.add
            (Float.add (Float.of_int (high_count * 2))
               (Float.mul (Float.of_int exclamation_count) (Float.lit (3 # 2))))
            (Float.mul ratio (Float.of_int 10)))
         (Float.mul subjectivity (Float.of_int 2)))
      (Float.of_int (low_count * 2)) in
  if Float.gtb score 5 then Returns (py "high")
  else if Float.gtb score 2 then Returns (py "medium")
  else Returns (py "low").

(** The turns of a list of exchanges, oldest first. *)
Definition turns_of (exchanges : list (str * str)) : list Turn :=
  flat_map (fun '(user_msg, bot_msg) =>
              [ {| role := py "user"; content := user_msg |};
                {| role := py "assistant"; content := bot_msg |} ])
           exchanges.

(** One [_update_history] per exchange, oldest first. *)
Fixpoint record_all (exchanges : list (str * str)) (max_history : Z) : M unit :=
  match exchanges with
  | [] => ret tt
  | (user_msg, bot_msg) :: rest =>
      ResponseGenerator._update_history user_msg bot_msg max_history ;;
      record_all rest max_history
  end.

(** A reply of the fallback path: a sentence of the pool of the emotion
    (the neutral pool when the emotion has none), with the addendum the
    loop over the topic groups gives it. *)
Definition is_fallback_reply (emotion user_message reply : str) : Prop :=
  exists pool base,
    Builtin.get LLMHandler.fallback_responses (py "neutral") = Some pool /\
    In base (Builtin.get_or LLMHandler.fallback_responses emotion pool) /\
    reply = LLMHandler.add_context LLMHandler.context_additions
              (Str.lower user_message) base.

(** A reply of the remote path: the service is usable and returns a
    text that is not empty, which [_clean_response] trims. *)
Definition is_remote_reply (env : Env) (prompt : str) (w : World) (reply : str)
    : Prop :=
  LLMHandler.truthy (api_key (llm w)) = true
  /\ use_client (llm w) = true
  /\ exists text,
       text_generation env prompt (current_model (llm w)) = Returns text
       /\ text <> []
       /\ LLMHandler._clean_response text = Returns reply.

(** The [n] most recent entries of a history. *)
Definition most_recent (n : nat) (history : list Turn) : list Turn :=
  skipn (length history - n) history.

(** The characters a URL goes on with, after its scheme. *)
Definition url_class (c : ascii) : bool := Re.first SafetyFilter.url_char c.

(** A URL, as the pattern sees it, starts the text: a scheme and one
    character more. *)
Definition url_at (s : str) : Prop :=
  exists scheme c rest,
    (scheme = py "http://" \/ scheme = py "https://")
    /\ url_class c = true
    /\ s = scheme ++ c :: rest.

(** No URL starts anywhere in the text. *)
Definition url_free (s : str) : Prop :=
  forall before after, s = before ++ after -> ~ url_at after.


(** The calls the generation client makes after [generate_response] is
    entered: the fallback alone, the service alone, or the service and
    then the fallback. *)
Definition generation_runs : list (list call) :=
  [ [CFallbackResponse; CRandomChoice];
    [CTextGeneration];
    [CTextGeneration; CFallbackResponse; CRandomChoice] ].

(** The calls of one [generate], in their order: the validation alone,
    the validation and the crisis check, or all the stages. *)
Definition pipeline_runs : list (list call) :=
  [CValidateUserInput]
  :: [CValidateUserInput; CCheckCrisis]
  :: map (fun made =>
            [CValidateUserInput; CCheckCrisis; CDetectEmotion; CBuildPrompt;
             CGenerateResponse] ++ made
            ++ [CFilterResponse; CSanitizeOutput; CUpdateHistory])
       generation_runs.

(** The history [generate] gives the prompt builder: the context of the
    caller, or the history of the orchestrator when there is none. *)
Definition history_for (conversation_context : option (list Turn)) (w : World)
    : list Turn :=
  match conversation_context with
  | Some (t :: ts) => t :: ts
  | _ => conversation_history w
  end.

(** The sentence the draw number [n] picks in the pool of the emotion. *)
Definition drawn_base (env : Env) (emotion : str) (n : nat) : option str :=
  match Builtin.get LLMHandler.fallback_responses (py "neutral") with
  | Some pool =>
      let responses := Builtin.get_or LLMHandler.fallback_responses emotion pool in
      nth_error responses (random_source env n mod length responses)
  | None => None
  end.

(** The reply of the fallback path at the draw number [n]. *)
Definition drawn_reply (env : Env) (emotion user_message : str) (n : nat)
    (reply : str) : Prop :=
  exists base,
    drawn_base env emotion n = Some base /\
    reply = LLMHandler.add_context LLMHandler.context_additions
              (Str.lower user_message) base.

(** The seven labels of the classifier. *)
Definition labels : list str :=
  [ py "sad"; py "anxious"; py "angry"; py "happy"; py "fearful";
    py "confused"; py "neutral" ].

(** A character of plain prose: no digit, no colon, no at sign. *)
Definition plain (c : ascii) : bool :=
  negb (Str.is_digit c || Ascii.eqb c ":"%char || Ascii.eqb c "@"%char).

(** No phone number, as the pattern sees it, starts anywhere in the text. *)
Definition phone_free (s : str) : Prop :=
  forall before after prev,
    s = before ++ after ->
    Re.match_at SafetyFilter.phone_pattern prev after = None.

(** The score of a category: the number of its keywords in the text,
    whatever the case of the text. *)
Definition score (keywords : list str) (text : str) : nat :=
  Str.count_in keywords (Str.lower text).

(** The scores the loop of [detect_emotion] keeps, for a way [f] of
    scoring the keywords of a category. *)
Definition scores_of (f : list str -> nat) (table : list (str * list str))
    : list (str * nat) :=
  flat_map (fun '(emotion, keywords) =>
              let score := f keywords in
              if 0 <? score then [(emotion, score)] else [])
    table.

(** The polarity of the keyword fallback, for the numbers of positive
    and of negative words found. *)
Definition word_polarity (pos_count neg_count : nat) : Q :=
  if (Z.of_nat pos_count + Z.of_nat neg_count =? 0)%Z then Float.lit 0
  else Float.fl (inject_Z (Z.of_nat pos_count - Z.of_nat neg_count)
                 / inject_Z (Z.max 1 (Z.of_nat pos_count + Z.of_nat neg_count))).

(** The primary emotion and the confidence when no keyword of a
    category is found. *)
Definition by_polarity (polarity : Q) : str * Q :=
  if Float.gtb polarity (Float.lit (3 # 10)) then (py "happy", polarity)
  else if Float.ltb polarity (Float.lit (- (3 # 10))) then
    (py "sad", Float.abs polarity)
  else (py "neutral", Float.lit (1 # 2)).

(** The intensity of the keyword fallback: twice the score of section
    4.1 when nothing is known of the subjectivity and no capital is
    counted, compared with twice its thresholds. *)
Definition offline_intensity (text : str) : str :=
  let high_count :=
    Z.of_nat (score (Builtin.get_or EmotionDetector.intensity_words (py "high") [])
                text) in
  let low_count :=
    Z.of_nat (score (Builtin.get_or EmotionDetector.intensity_words (py "low") [])
                text) in
  let exclamation_count := Z.of_nat (Str.count "!"%char text) in
  let doubled := (4 * high_count + 3 * exclamation_count - 4 * low_count)%Z in
  if (10 <? doubled)%Z then py "high"
  else if (4 <? doubled)%Z then py "medium"
  else py "low".

End Spec.

(** A process without the optional packages and without a key, and the
    orchestrator it constructs. *)
Definition offline : Env :=
  {| HAS_HF_CLIENT := false;
     HUGGINGFACE_API_KEY := None;
     text_generation := fun _ _ => Raises (ServiceError (py "unreachable"));
     HAS_TEXTBLOB := false;
     textblob_sentiment := fun _ => Raises (ServiceError (py "unreachable"));
     random_source := fun _ => 0%nat |}.

Definition fresh : World :=
  {| llm := {| api_key := None;
               use_client := false;
               current_model := py "mistralai/Mistral-7B-Instruct-v0.1" |};
     conversation_history := [];
     draws := 0;
     calls := [] |}.

(** A process with both packages and a key, whose remote service and
    scorer raise on every call, and the orchestrator it constructs. *)
Definition failing : Env :=
  {| HAS_HF_CLIENT := true;
     HUGGINGFACE_API_KEY := Some (py "hf_key");
     text_generation := fun _ _ => Raises (ServiceError (py "timeout"));
     HAS_TEXTBLOB := true;
     textblob_sentiment := fun _ => Raises (ServiceError (py "corpus missing"));
     random_source := fun n => n |}.

Definition connected : World :=
  {| llm := {| api_key := Some (py "hf_key");
               use_client := true;
               current_model := py "mistralai/Mistral-7B-Instruct-v0.1" |};
     conversation_history := [];
     draws := 0;
     calls := [] |}.

(** A process whose remote service answers every prompt with the same
    text, advice of the kind the moderation discards. *)
Definition advising : Env :=
  {| HAS_HF_CLIENT := true;
     HUGGINGFACE_API_KEY := Some (py "hf_key");
     text_generation :=
       fun _ _ => Returns (py " It sounds like a sleep disorder. You need medication");
     HAS_TEXTBLOB := false;
     textblob_sentiment := fun _ => Raises (ServiceError (py "unreachable"));
     random_source := fun n => n |}.

(** A process whose remote service answers every prompt with the same
    text, which points to a web page. *)
Definition linking : Env :=
  {| HAS_HF_CLIENT := true;
     HUGGINGFACE_API_KEY := Some (py "hf_key");
     text_generation :=
       fun _ _ => Returns (py " Try https://calm.example/breathe?min=5 today. And then");
     HAS_TEXTBLOB := false;
     textblob_sentiment := fun _ => Raises (ServiceError (py "unreachable"));
     random_source := fun n => n |}.

(** * Properties *)

(** The two orchestrators are those the constructor builds. *)
Lemma fresh_is_constructed :
  ResponseGenerator.__init__ offline None = Returns fresh.
Proof. reflexivity. Qed.

Lemma connected_is_constructed :
  ResponseGenerator.__init__ failing None = Returns connected.
Proof. reflexivity. Qed.

(** ** Strings *)

Lemma starts_with_app (p s : str) :
  Str.starts_with p s = true <-> exists after, s = p ++ after.
Proof.
  revert s; induction p as [|a p IH]; intros s; simpl.
  - split; [intros _; now exists s | reflexivity].
  - destruct s as [|b s].
    + split; [discriminate | intros [x Hx]; discriminate].
    + rewrite andb_true_iff, Ascii.eqb_eq, IH. split.
      * intros [-> [x ->]]. now exists x.
      * intros [x Hx]. injection Hx as -> ->. split; [reflexivity | now exists x].
Qed.

Lemma contains_app (needle hay : str) :
  Str.contains needle hay = true <->
  exists before after, hay = before ++ needle ++ after.
Proof.
  induction hay as [|c hay IH].
  - simpl. rewrite orb_false_r, starts_with_app. split.
    + intros [x Hx]. now exists [], x.
    + intros [b [x Hx]]. destruct b; [now exists x | discriminate].
  - cbn [Str.contains]. rewrite orb_true_iff, starts_with_app, IH. split.
    + intros [[x Hx] | [b [x Hx]]].
      * now exists [], x.
      * exists (c :: b), x. now rewrite Hx.
    + intros [b [x Hx]]. destruct b as [|c' b].
      * left. now exists x.
      * right. injection Hx as -> ->. now exists b, x.
Qed.

Lemma lower_app (a b : str) : Str.lower (a ++ b) = Str.lower a ++ Str.lower b.
Proof. apply map_app. Qed.

Lemma lower_char_idem (c : ascii) : Str.lower_char (Str.lower_char c) = Str.lower_char c.
Proof.
  assert (H : forallb (fun n => let c := ascii_of_nat n in
              Ascii.eqb (Str.lower_char (Str.lower_char c)) (Str.lower_char c))
              (seq 0 256) = true) by (vm_compute; reflexivity).
  rewrite forallb_forall in H.
  specialize (H (nat_of_ascii c)). cbv zeta in H.
  rewrite ascii_nat_embedding in H. apply Ascii.eqb_eq, H.
  apply in_seq. pose proof (nat_ascii_bounded c). lia.
Qed.

Lemma lower_idem (s : str) : Str.lower (Str.lower s) = Str.lower s.
Proof.
  unfold Str.lower. rewrite map_map. apply map_ext. intros c. apply lower_char_idem.
Qed.

(** [keyword in text.lower()], for a keyword in lower case, is containment
    whatever the case. *)
Lemma contains_lower (keyword text : str) :
  Str.lower keyword = keyword ->
  (Str.contains keyword (Str.lower text) = true <-> Spec.contains_ci keyword text).
Proof.
  intros Hk. rewrite contains_app. unfold Spec.contains_ci. rewrite Hk. split.
  - intros [b [a H]]. unfold Str.lower in H.
    apply map_eq_app in H as [b' [r [-> [Hb Hr]]]].
    apply map_eq_app in Hr as [m [a' [-> [Hm Ha]]]].
    now exists b', m, a'.
  - intros [b [m [a [-> Hm]]]]. exists (Str.lower b), (Str.lower a).
    now rewrite !lower_app, Hm.
Qed.

Lemma any_in_lower (keywords : list str) (text : str) :
  forallb (fun k => Str.eqb (Str.lower k) k) keywords = true ->
  (Str.any_in keywords (Str.lower text) = true <->
   exists k, In k keywords /\ Spec.contains_ci k text).
Proof.
  intros Hl. rewrite forallb_forall in Hl. unfold Str.any_in.
  rewrite existsb_exists. split.
  - intros [k [Hin Hc]]. exists k. split; [assumption|].
    apply contains_lower; [|assumption].
    specialize (Hl k Hin). unfold Str.eqb in Hl.
    now destruct (list_eq_dec ascii_dec (Str.lower k) k).
  - intros [k [Hin Hc]]. exists k. split; [assumption|].
    apply contains_lower; [|assumption].
    specialize (Hl k Hin). unfold Str.eqb in Hl.
    now destruct (list_eq_dec ascii_dec (Str.lower k) k).
Qed.

(** ** The moderation of a candidate response *)

Lemma flagged_iff (response : str) :
  Spec.flagged response <->
  Str.any_in SafetyFilter.medical_keywords (Str.lower response)
  || Str.any_in SafetyFilter.prohibited_phrases (Str.lower response) = true.
Proof.
  rewrite orb_true_iff, !any_in_lower by (vm_compute; reflexivity).
  unfold Spec.flagged. split.
  - intros [k [Hin Hc]]. apply in_app_or in Hin as [Hin | Hin];
      [left | right]; now exists k.
  - intros [[k [Hin Hc]] | [k [Hin Hc]]]; exists k; split;
      try assumption; apply in_or_app; [now left | now right].
Qed.

(** C4. A candidate that contains, whatever the case, a medical keyword
    or a prohibited phrase is discarded: [filter_response] returns the
    fixed safe alternative and [False]. A candidate that contains none is
    returned, as it is or with the disclaimer appended, and [True]. *)
Theorem filter_response_moderates (response user_message : str) :
  (Spec.flagged response ->
   SafetyFilter.filter_response response user_message
   = (SafetyFilter._get_safe_alternative, false))
  /\
  (~ Spec.flagged response ->
   SafetyFilter.filter_response response user_message = (response, true)
   \/ SafetyFilter.filter_response response user_message
      = (response ++ SafetyFilter.disclaimer, true)).
Proof.
  unfold SafetyFilter.filter_response. rewrite flagged_iff.
  destruct (Str.any_in SafetyFilter.medical_keywords (Str.lower response)
            || Str.any_in SafetyFilter.prohibited_phrases (Str.lower response)).
  - split; [reflexivity | intros H; now elim H].
  - split; [discriminate | intros _].
    destruct (SafetyFilter._is_mental_health_topic (Str.lower response));
      [|now left].
    unfold SafetyFilter._add_disclaimer.
    destruct (Str.contains SafetyFilter.disclaimer response); cbn [negb];
      [now left | now right].
Qed.

Lemma filter_response_moderates_witness :
  SafetyFilter.filter_response (py "You have depression and need medication") []
  = (SafetyFilter._get_safe_alternative, false)
  /\ (SafetyFilter.filter_response (py "Anxiety can feel overwhelming.") []
      = (py "Anxiety can feel overwhelming.", true)
      \/ SafetyFilter.filter_response (py "Anxiety can feel overwhelming.") []
         = (py "Anxiety can feel overwhelming." ++ SafetyFilter.disclaimer, true)).
Proof.
  split.
  - apply (proj1 (filter_response_moderates
                    (py "You have depression and need medication") [])).
    exists (py "medication"). split; [vm_compute; tauto|].
    exists (py "You have depression and need "), (py "medication"), [].
    split; reflexivity.
  - apply (proj2 (filter_response_moderates (py "Anxiety can feel overwhelming.") [])).
    intros H. apply flagged_iff in H. vm_compute in H. discriminate.
Defined.

(** ** The crisis branch *)

Lemma check_crisis_iff (text : str) :
  is_crisis (SafetyFilter.check_crisis text) = true <-> Spec.has_crisis_keyword text.
Proof.
  unfold Spec.has_crisis_keyword.
  rewrite <- any_in_lower by (vm_compute; reflexivity).
  unfold SafetyFilter.check_crisis.
  destruct (Str.any_in SafetyFilter.crisis_keywords (Str.lower text));
    simpl; split; congruence.
Qed.

Lemma check_crisis_message (text : str) :
  is_crisis (SafetyFilter.check_crisis text) = true ->
  message (SafetyFilter.check_crisis text) = Some SafetyFilter._get_crisis_response.
Proof.
  unfold SafetyFilter.check_crisis.
  destruct (Str.any_in SafetyFilter.crisis_keywords (Str.lower text));
    simpl; [reflexivity | discriminate].
Qed.

(** The world after the two calls of the crisis branch. *)
Lemma generate_on_crisis (env : Env) (user_message : str)
    (conversation_context : option (list Turn)) (w : World) (validation : Validation) :
  SafetyFilter.validate_user_input user_message = Returns validation ->
  valid validation = true ->
  is_crisis (SafetyFilter.check_crisis user_message) = true ->
  ResponseGenerator.generate env user_message conversation_context w
  = (Returns
       (ResponseGenerator._create_response_object
          (Some SafetyFilter._get_crisis_response)
          (ResponseGenerator.emotion_only (py "fearful") (Float.lit 1)) true
          [(py "is_crisis", VBool true)]),
     {| llm := llm w;
        conversation_history := conversation_history w;
        draws := draws w;
        calls := (calls w ++ [CValidateUserInput]) ++ [CCheckCrisis] |}).
Proof.
  intros Hv Hvalid Hc.
  unfold ResponseGenerator.generate, invoke, bind, log, lift, ret.
  rewrite Hv, Hvalid. cbn [negb]. cbv beta iota.
  rewrite Hc, (check_crisis_message _ Hc). reflexivity.
Qed.

(** C1, as the specification states it, fails: validation runs first, and
    a text with a crisis keyword that it rejects gets the validation
    reply. "dddddie" contains "die", and its first character fills more
    than 70% of it. *)
Lemma crisis_keyword_in_rejected_text :
  Spec.has_crisis_keyword (py "dddddie")
  /\ exists reply w',
       ResponseGenerator.generate offline (py "dddddie") None fresh
       = (Returns reply, w')
       /\ Builtin.get (Reply.metadata reply) (py "is_crisis") = None
       /\ Builtin.get (Reply.metadata reply) (py "validation_failed")
          = Some (VBool true)
       /\ Reply.response reply
          = Some (py "I'm having trouble understanding. Could you rephrase that?")
       /\ Reply.response reply <> Some SafetyFilter._get_crisis_response.
Proof.
  split.
  - exists (py "die"). split; [vm_compute; tauto|].
    exists (py "dddd"), (py "die"), []. split; reflexivity.
  - eexists. eexists. split; [vm_compute; reflexivity|].
    repeat split; try (vm_compute; reflexivity). discriminate.
Qed.

(** C1, amended. For every text that passes validation and contains a
    crisis keyword, whatever the case of its letters, [generate] returns
    a reply whose metadata carry is_crisis = True and whose response is
    the fixed crisis message, whatever the environment (the classifier,
    the service) and the context. *)
Theorem crisis_keyword_gets_crisis_reply (env : Env) (user_message : str)
    (conversation_context : option (list Turn)) (w : World) (validation : Validation) :
  SafetyFilter.validate_user_input user_message = Returns validation ->
  valid validation = true ->
  Spec.has_crisis_keyword user_message ->
  exists reply w',
    ResponseGenerator.generate env user_message conversation_context w
    = (Returns reply, w')
    /\ Builtin.get (Reply.metadata reply) (py "is_crisis") = Some (VBool true)
    /\ Reply.response reply = Some SafetyFilter._get_crisis_response.
Proof.
  intros Hv Hvalid Hk. apply check_crisis_iff in Hk.
  eexists. eexists. split.
  - apply (generate_on_crisis env user_message conversation_context w validation Hv Hvalid Hk).
  - split; reflexivity.
Qed.

Lemma crisis_keyword_gets_crisis_reply_witness :
  exists reply w',
    ResponseGenerator.generate offline (py "I want to KILL myself") None fresh
    = (Returns reply, w')
    /\ Builtin.get (Reply.metadata reply) (py "is_crisis") = Some (VBool true)
    /\ Reply.response reply = Some SafetyFilter._get_crisis_response.
Proof.
  apply (crisis_keyword_gets_crisis_reply offline (py "I want to KILL myself")
           None fresh
           {| valid := true; reason := py "ok"; suggestion := None |}).
  - vm_compute; reflexivity.
  - reflexivity.
  - exists (py "kill myself"). split; [vm_compute; tauto|].
    exists (py "I want to "), (py "KILL myself"), []. split; reflexivity.
Defined.

(** The calls of the generative path: the classifier, the prompt builder,
    the generation client with its remote service, its fallback pool and
    the random draw. *)
Lemma crisis_calls_avoid_generation (c : call) :
  In c [CDetectEmotion; CBuildPrompt; CGenerateResponse; CTextGeneration;
        CFallbackResponse; CRandomChoice] ->
  ~ In c [CValidateUserInput; CCheckCrisis].
Proof.
  intros H [E | [E | []]]; subst c; simpl in H;
    repeat (destruct H as [H | H]; [discriminate|]); exact H.
Qed.

(** C2. When [check_crisis] reports a crisis for a message that passed
    validation, [generate] ends on the crisis branch: the emotion is
    fearful with confidence 1.0, the response is the fixed crisis
    message, and the only calls made are the validation and the crisis
    check; the classifier, the prompt builder and the generation client
    (remote service, fallback pool, random draw) are not called, and
    neither the history nor the random state changes. *)
Theorem crisis_never_reaches_generation (env : Env) (user_message : str)
    (conversation_context : option (list Turn)) (w : World) (validation : Validation) :
  SafetyFilter.validate_user_input user_message = Returns validation ->
  valid validation = true ->
  is_crisis (SafetyFilter.check_crisis user_message) = true ->
  exists reply w',
    ResponseGenerator.generate env user_message conversation_context w
    = (Returns reply, w')
    /\ Reply.emotion reply = py "fearful"
    /\ Reply.emotion_confidence reply = 1%Q
    /\ Reply.response reply = Some SafetyFilter._get_crisis_response
    /\ Builtin.get (Reply.metadata reply) (py "is_crisis") = Some (VBool true)
    /\ calls w' = calls w ++ [CValidateUserInput; CCheckCrisis]
    /\ (forall c,
          In c [CDetectEmotion; CBuildPrompt; CGenerateResponse; CTextGeneration;
                CFallbackResponse; CRandomChoice] ->
          ~ In c [CValidateUserInput; CCheckCrisis])
    /\ draws w' = draws w
    /\ conversation_history w' = conversation_history w
    /\ llm w' = llm w.
Proof.
  intros Hv Hvalid Hc.
  eexists. eexists. split.
  - apply (generate_on_crisis env user_message conversation_context w validation Hv Hvalid Hc).
  - cbn [calls draws conversation_history llm]. rewrite <- app_assoc.
    repeat split; try reflexivity. apply crisis_calls_avoid_generation.
Qed.

Lemma crisis_never_reaches_generation_witness :
  exists reply w',
    ResponseGenerator.generate offline (py "I want to kill myself") None fresh
    = (Returns reply, w')
    /\ Reply.emotion reply = py "fearful"
    /\ Reply.emotion_confidence reply = 1%Q
    /\ Reply.response reply = Some SafetyFilter._get_crisis_response
    /\ Builtin.get (Reply.metadata reply) (py "is_crisis") = Some (VBool true)
    /\ calls w' = calls fresh ++ [CValidateUserInput; CCheckCrisis]
    /\ (forall c,
          In c [CDetectEmotion; CBuildPrompt; CGenerateResponse; CTextGeneration;
                CFallbackResponse; CRandomChoice] ->
          ~ In c [CValidateUserInput; CCheckCrisis])
    /\ draws w' = draws fresh
    /\ conversation_history w' = conversation_history fresh
    /\ llm w' = llm fresh.
Proof.
  apply (crisis_never_reaches_generation offline (py "I want to kill myself")
           None fresh
           {| valid := true; reason := py "ok"; suggestion := None |}).
  - vm_compute; reflexivity.
  - reflexivity.
  - vm_compute; reflexivity.
Defined.

(** ** No exception leaves the pipeline *)

Lemma validate_user_input_returns (text : str) :
  exists validation, SafetyFilter.validate_user_input text = Returns validation.
Proof.
  unfold SafetyFilter.validate_user_input, SafetyFilter.looks_like_gibberish.
  destruct text as [|c text]; [cbn [orb]; eauto|].
  cbn [orb]. destruct (length (Str.strip (c :: text)) <? 2); [eauto|].
  destruct (Str.distinct (c :: text) <? 3); cbn [obind]; [eauto|].
  cbn [Builtin.index nth_error obind].
  match goal with |- context [if ?b then _ else _] => destruct b end; [eauto|].
  destruct (1000 <? length (c :: text)); eauto.
Qed.

Lemma truediv_returns (a b : Z) :
  b <> 0%Z -> exists q, Builtin.truediv a b = Returns q.
Proof.
  intros Hb. unfold Builtin.truediv.
  destruct (Z.eqb_spec b 0); [contradiction | eauto].
Qed.

Lemma eqb_refl (a : str) : Str.eqb a a = true.
Proof. unfold Str.eqb. destruct (list_eq_dec ascii_dec a a); congruence. Qed.

Lemma eqb_eq (a b : str) : Str.eqb a b = true <-> a = b.
Proof.
  unfold Str.eqb. destruct (list_eq_dec ascii_dec a b); split; congruence.
Qed.

Lemma get_of_key {V} (d : list (str * V)) (key : str) :
  In key (map fst d) -> exists v, Builtin.get d key = Some v.
Proof.
  induction d as [|[k v] d IH]; simpl; [tauto|].
  intros [-> | Hin].
  - rewrite eqb_refl. eauto.
  - destruct (Str.eqb k key); eauto.
Qed.

Lemma max_key_from_in (d : list (str * nat)) (best : str) (best_v : nat) :
  Builtin.max_key_from best best_v d = best
  \/ In (Builtin.max_key_from best best_v d) (map fst d).
Proof.
  revert best best_v. induction d as [|[k v] d IH]; intros best best_v; simpl.
  - now left.
  - destruct (best_v <? v).
    + destruct (IH k v) as [-> | H]; right; [now left | now right].
    + destruct (IH best best_v) as [-> | H]; [now left | right; now right].
Qed.

Lemma calculate_intensity_returns (text : str) (subjectivity : Q) :
  exists intensity,
    EmotionDetector._calculate_intensity text subjectivity = Returns intensity.
Proof.
  unfold EmotionDetector._calculate_intensity.
  change (Builtin.subscript EmotionDetector.intensity_words (py "high"))
    with (Returns [py "very"; py "extremely"; py "incredibly"; py "so";
                   py "really"; py "absolutely"]).
  change (Builtin.subscript EmotionDetector.intensity_words (py "low"))
    with (Returns [py "a bit"; py "slightly"; py "somewhat"; py "kind of";
                   py "sort of"]).
  cbn [obind].
  destruct (truediv_returns (Z.of_nat (length (filter Str.is_upper text)))
              (Z.max (Z.of_nat (length text)) 1)) as [q Hq]; [lia|].
  rewrite Hq. cbn [obind].
  repeat match goal with |- context [if ?b then _ else _] => destruct b end; eauto.
Qed.

Lemma sentiment_scores_returns (env : Env) (text : str) :
  exists polarity subjectivity,
    EmotionDetector.sentiment_scores env text = Returns (polarity, subjectivity).
Proof.
  unfold EmotionDetector.sentiment_scores.
  destruct (HAS_TEXTBLOB env).
  - destruct (textblob_sentiment env text) as [[p s]|e]; eauto.
  - match goal with |- context [if ?b then _ else _] => destruct b eqn:E end.
    + cbn [obind]. eauto.
    + match goal with |- context [Builtin.truediv ?a ?b] =>
        destruct (truediv_returns a b) as [q Hq]; [lia|]; rewrite Hq end.
      cbn [obind]. eauto.
Qed.

Lemma detect_emotion_returns (env : Env) (text : str) :
  exists emotion_data primary,
    EmotionDetector.detect_emotion env text = Returns emotion_data
    /\ EmotionData.primary_emotion emotion_data = Some primary.
Proof.
  unfold EmotionDetector.detect_emotion.
  destruct (sentiment_scores_returns env text) as [p [s Hs]]. rewrite Hs.
  cbn [obind].
  destruct (calculate_intensity_returns (Str.lower text) s) as [i Hi].
  match goal with |- context [flat_map ?f ?l] => destruct (flat_map f l) as [|[k v] d] end.
  - repeat match goal with |- context [if ?b then _ else _] => destruct b end;
      cbn [obind]; rewrite Hi; cbn [obind];
      do 2 eexists; split; reflexivity.
  - cbn [Builtin.max_key obind].
    assert (Hin : In (Builtin.max_key_from k v d) (map fst ((k, v) :: d))).
    { destruct (max_key_from_in d k v) as [-> | H]; [now left | now right]. }
    apply get_of_key in Hin as [score Hscore].
    unfold Builtin.subscript. rewrite Hscore. cbn [obind].
    rewrite Hi. cbn [obind]. do 2 eexists; split; reflexivity.
Qed.

Lemma build_prompt_returns (user_message emotion : str) (history : list Turn) :
  exists prompt,
    PromptBuilder.build_prompt user_message emotion history = Returns prompt.
Proof.
  unfold PromptBuilder.build_prompt, PromptBuilder._get_emotion_context.
  destruct (Builtin.subscript PromptBuilder.emotion_guidance (py "neutral")) eqn:E.
  - cbn [obind]. eauto.
  - vm_compute in E. discriminate.
Qed.

Lemma clean_response_returns (text : str) :
  exists cleaned, LLMHandler._clean_response text = Returns cleaned.
Proof.
  unfold LLMHandler._clean_response.
  destruct (Str.strip text) as [|c t] eqn:E; [eauto|].
  assert (H : exists last, nth_error (c :: t) (length (c :: t) - 1) = Some last).
  { destruct (nth_error (c :: t) (length (c :: t) - 1)) eqn:N; [eauto|].
    apply nth_error_None in N. simpl in N. lia. }
  destruct H as [last Hl]. unfold Builtin.index. rewrite Hl. cbn [obind].
  repeat match goal with |- context [if ?b then _ else _] => destruct b end; eauto.
Qed.

Lemma get_in_values {V} (d : list (str * V)) (key : str) (v : V) :
  Builtin.get d key = Some v -> In v (map snd d).
Proof.
  induction d as [|[k x] d IH]; simpl; [discriminate|].
  destruct (Str.eqb k key); [intros [= ->]; now left | intros H; right; auto].
Qed.

Lemma fallback_pool_not_empty (emotion : str) (neutral : list str) :
  Builtin.get LLMHandler.fallback_responses (py "neutral") = Some neutral ->
  Builtin.get_or LLMHandler.fallback_responses emotion neutral <> [].
Proof.
  intros Hn.
  assert (Hall : forallb (fun pool => negb (length pool =? 0))
                   (map snd LLMHandler.fallback_responses) = true)
    by (vm_compute; reflexivity).
  rewrite forallb_forall in Hall.
  assert (Hin : In (Builtin.get_or LLMHandler.fallback_responses emotion neutral)
                  (map snd LLMHandler.fallback_responses)).
  { unfold Builtin.get_or.
    destruct (Builtin.get LLMHandler.fallback_responses emotion) eqn:E;
      eapply get_in_values; eassumption. }
  apply Hall in Hin. intros E. rewrite E in Hin. discriminate.
Qed.

Lemma index_mod_returns {A} (seq : list A) (r : nat) :
  seq <> [] ->
  exists a, Builtin.index seq (r mod length seq) = Returns a /\ In a seq.
Proof.
  intros Hne. unfold Builtin.index.
  assert (Hlt : r mod length seq < length seq).
  { apply Nat.mod_upper_bound. destruct seq; [contradiction | discriminate]. }
  destruct (nth_error seq (r mod length seq)) eqn:E.
  - exists a. split; [reflexivity | eapply nth_error_In; eassumption].
  - apply nth_error_None in E. lia.
Qed.

(** The fallback path returns a reply of the pool, after one draw. *)
Lemma fallback_response_returns (env : Env) (emotion user_message : str) (w : World) :
  exists reply,
    LLMHandler._fallback_response env emotion user_message w
    = (Returns reply,
       {| llm := llm w;
          conversation_history := conversation_history w;
          draws := S (draws w);
          calls := (calls w ++ [CFallbackResponse]) ++ [CRandomChoice] |})
    /\ Spec.is_fallback_reply emotion user_message reply.
Proof.
  unfold LLMHandler._fallback_response, Spec.is_fallback_reply, Builtin.subscript.
  destruct (Builtin.get LLMHandler.fallback_responses (py "neutral"))
    as [neutral|] eqn:En; [|vm_compute in En; discriminate].
  destruct (index_mod_returns
              (Builtin.get_or LLMHandler.fallback_responses emotion neutral)
              (random_source env (draws w))
              (fallback_pool_not_empty emotion neutral En)) as [base [Hb Hin]].
  exists (LLMHandler.add_context LLMHandler.context_additions
            (Str.lower user_message) base).
  split.
  - unfold random_choice, bind, log, lift, get_world, put_world, ret.
    cbn [draws llm conversation_history calls]. rewrite Hb. reflexivity.
  - exists neutral, base. auto.
Qed.

Lemma generate_response_returns (env : Env) (prompt emotion : str) (w : World) :
  exists reply w',
    LLMHandler.generate_response env prompt emotion w = (Returns reply, w')
    /\ llm w' = llm w
    /\ conversation_history w' = conversation_history w
    /\ (Spec.is_fallback_reply emotion prompt reply \/ Spec.is_remote_reply env prompt w reply).
Proof.
  unfold LLMHandler.generate_response, bind, log, get_world.
  cbn [llm conversation_history draws calls].
  destruct (LLMHandler.truthy (api_key (llm w))) eqn:Ek; cbn [negb orb].
  2:{ destruct (fallback_response_returns env emotion prompt
                  {| llm := llm w; conversation_history := conversation_history w;
                     draws := draws w; calls := calls w ++ [CGenerateResponse] |})
        as [reply [Hr Hf]].
      rewrite Hr. do 2 eexists. repeat split; auto. }
  destruct (use_client (llm w)) eqn:Eu; cbn [negb].
  2:{ destruct (fallback_response_returns env emotion prompt
                  {| llm := llm w; conversation_history := conversation_history w;
                     draws := draws w; calls := calls w ++ [CGenerateResponse] |})
        as [reply [Hr Hf]].
      rewrite Hr. do 2 eexists. repeat split; auto. }
  unfold try_except, bind, log, lift.
  cbn [llm conversation_history draws calls].
  destruct (text_generation env prompt (current_model (llm w))) as [text|e] eqn:Et.
  - destruct text as [|c text].
    + match goal with |- context [LLMHandler._fallback_response _ _ _ ?w0] =>
        destruct (fallback_response_returns env emotion prompt w0) as [reply [Hr Hf]]
      end.
      rewrite Hr. do 2 eexists. repeat split; auto.
    + destruct (clean_response_returns (c :: text)) as [cleaned Hc]. rewrite Hc.
      do 2 eexists. repeat split; try reflexivity.
      right. repeat split; auto. exists (c :: text). repeat split; auto. discriminate.
  - match goal with |- context [LLMHandler._fallback_response _ _ _ ?w0] =>
      destruct (fallback_response_returns env emotion prompt w0) as [reply [Hr Hf]]
    end.
    rewrite Hr. do 2 eexists. repeat split; auto.
Qed.

(** The pruning of [_update_history], for a bound of one exchange or more. *)
Lemma prune_most_recent (max_history : Z) (history : list Turn) :
  (1 <= max_history)%Z ->
  (if (max_history * 2 <? Z.of_nat (length history))%Z
   then Builtin.slice_from (- (max_history * 2)) history
   else history)
  = Spec.most_recent (Z.to_nat (2 * max_history)) history.
Proof.
  intros HN. unfold Spec.most_recent, Builtin.slice_from.
  destruct (Z.ltb_spec (max_history * 2) (Z.of_nat (length history))) as [Hlt | Hge].
  - destruct (Z.ltb_spec (- (max_history * 2)) 0) as [_ | Hneg]; [|lia].
    f_equal. lia.
  - replace (length history - Z.to_nat (2 * max_history)) with 0 by lia.
    reflexivity.
Qed.

(** [generate] returns, whatever the message, the context, the state and
    the environment; it leaves the history as it is or appends the exchange
    and prunes. *)
Lemma generate_returns (env : Env) (user_message : str)
    (conversation_context : option (list Turn)) (w : World) :
  exists reply w',
    ResponseGenerator.generate env user_message conversation_context w
    = (Returns reply, w')
    /\ llm w' = llm w
    /\ (conversation_history w' = conversation_history w
        \/ exists bot_msg,
             conversation_history w'
             = Spec.most_recent 20
                 ((conversation_history w
                     ++ [{| role := py "user"; content := user_message |}])
                    ++ [{| role := py "assistant"; content := bot_msg |}])).
Proof.
  unfold ResponseGenerator.generate, invoke, bind, log, lift, ret, get_world.
  destruct (validate_user_input_returns user_message) as [v Hv]. rewrite Hv.
  destruct (valid v); cbn [negb].
  2:{ do 2 eexists. split; [reflexivity|]. cbn [llm conversation_history]. auto. }
  destruct (is_crisis (SafetyFilter.check_crisis user_message)).
  { do 2 eexists. split; [reflexivity|]. cbn [llm conversation_history]. auto. }
  destruct (detect_emotion_returns env user_message) as [ed [primary [Hed Hp]]].
  rewrite Hed. unfold ResponseGenerator.primary_emotion_of. rewrite Hp.
  cbn [llm conversation_history draws calls].
  match goal with |- context [PromptBuilder.build_prompt ?a ?b ?c] =>
    destruct (build_prompt_returns a b c) as [prompt Hprompt]; rewrite Hprompt end.
  match goal with |- context [LLMHandler.generate_response ?e ?p ?em ?w0] =>
    destruct (generate_response_returns e p em w0) as [raw [w1 [Hg [Hl [Hh _]]]]];
    rewrite Hg end.
  destruct (SafetyFilter.filter_response raw user_message) as [filtered safe].
  unfold ResponseGenerator._update_history, bind, log, get_world, put_world, ret.
  cbn [llm conversation_history draws calls] in *.
  do 2 eexists. split; [reflexivity|]. cbn [llm conversation_history].
  split; [assumption|]. right. rewrite Hh. eexists.
  apply (prune_most_recent 10). lia.
Qed.

(** C3. The contract of the pipeline is total. Whatever the message, the
    context, the state and the environment (the service absent, raising
    or returning an empty text; the scorer absent or raising),
    [generate] returns a reply and raises nothing; so does
    [generate_response], which returns a text; and when the service is
    not usable, raises or returns an empty text, that text is a reply of
    the fallback pool. *)
Theorem pipeline_is_total (env : Env) :
  (forall user_message conversation_context w,
     exists reply w',
       ResponseGenerator.generate env user_message conversation_context w
       = (Returns reply, w'))
  /\
  (forall prompt emotion w,
     exists reply w',
       LLMHandler.generate_response env prompt emotion w = (Returns reply, w'))
  /\
  (forall prompt emotion w,
     LLMHandler.truthy (api_key (llm w)) && use_client (llm w) = false
     \/ (exists e, text_generation env prompt (current_model (llm w)) = Raises e)
     \/ text_generation env prompt (current_model (llm w)) = Returns [] ->
     exists reply w',
       LLMHandler.generate_response env prompt emotion w = (Returns reply, w')
       /\ Spec.is_fallback_reply emotion prompt reply).
Proof.
  repeat split.
  - intros m c w. destruct (generate_returns env m c w) as [r [w' [H _]]]. eauto.
  - intros p e w.
    destruct (generate_response_returns env p e w) as [r [w' [H _]]]. eauto.
  - intros p e w Hfail.
    destruct (generate_response_returns env p e w)
      as [r [w' [H [_ [_ [Hf | [Hk [Hu [t [Ht [Hne Hc]]]]]]]]]]].
    + eauto.
    + exfalso. destruct Hfail as [Hoff | [[x Hx] | Hempty]].
      * rewrite Hk, Hu in Hoff. discriminate.
      * congruence.
      * rewrite Hempty in Ht. injection Ht as <-. now apply Hne.
Qed.

Lemma pipeline_is_total_witness :
  exists reply w',
    LLMHandler.generate_response failing (py "I am tired") (py "sad") connected
    = (Returns reply, w')
    /\ Spec.is_fallback_reply (py "sad") (py "I am tired") reply.
Proof.
  apply (proj2 (proj2 (pipeline_is_total failing))).
  right. left. exists (ServiceError (py "timeout")). reflexivity.
Defined.

(** ** The bounded history *)

Lemma most_recent_all (n : nat) (history : list Turn) :
  length history <= n -> Spec.most_recent n history = history.
Proof.
  intros H. unfold Spec.most_recent.
  replace (length history - n) with 0 by lia. reflexivity.
Qed.

Lemma most_recent_length (n : nat) (history : list Turn) :
  length (Spec.most_recent n history) = Nat.min n (length history).
Proof. unfold Spec.most_recent. rewrite length_skipn. lia. Qed.

Lemma skipn_past {A} (dropped rest : list A) (k : nat) :
  skipn (length dropped + k) (dropped ++ rest) = skipn k rest.
Proof. induction dropped as [|a dropped IH]; [reflexivity | exact IH]. Qed.

(** Pruning commutes with appending: what is dropped early would be
    dropped later. *)
Lemma most_recent_app (n : nat) (older newer : list Turn) :
  Spec.most_recent n (Spec.most_recent n older ++ newer)
  = Spec.most_recent n (older ++ newer).
Proof.
  destruct (Nat.le_gt_cases (length older) n) as [Hle | Hgt].
  - now rewrite (most_recent_all n older Hle).
  - unfold Spec.most_recent at 1 3.
    rewrite !length_app, most_recent_length, Nat.min_l by lia.
    unfold Spec.most_recent.
    pose proof (firstn_skipn (length older - n) older) as Hsplit.
    pose proof (length_firstn (length older - n) older) as Hlen.
    rewrite Nat.min_l in Hlen by lia.
    set (dropped := firstn (length older - n) older) in *.
    set (kept := skipn (length older - n) older) in *.
    rewrite <- Hsplit at 2. rewrite <- app_assoc.
    replace (length older + length newer - n)
      with (length dropped + length newer) by lia.
    rewrite skipn_past. f_equal. lia.
Qed.

Lemma update_history_prunes (user_msg bot_msg : str) (max_history : Z) (w : World) :
  (1 <= max_history)%Z ->
  ResponseGenerator._update_history user_msg bot_msg max_history w
  = (Returns tt,
     {| llm := llm w;
        conversation_history :=
          Spec.most_recent (Z.to_nat (2 * max_history))
            (conversation_history w ++ Spec.turns_of [(user_msg, bot_msg)]);
        draws := draws w;
        calls := calls w ++ [CUpdateHistory] |}).
Proof.
  intros HN.
  unfold ResponseGenerator._update_history, bind, log, get_world, put_world.
  cbn [llm conversation_history draws calls].
  rewrite (prune_most_recent max_history _ HN).
  cbn [Spec.turns_of flat_map app]. now rewrite <- app_assoc.
Qed.

Lemma turns_of_cons (user_msg bot_msg : str) (rest : list (str * str)) :
  Spec.turns_of ((user_msg, bot_msg) :: rest)
  = Spec.turns_of [(user_msg, bot_msg)] ++ Spec.turns_of rest.
Proof. reflexivity. Qed.

Lemma turns_of_length (exchanges : list (str * str)) :
  length (Spec.turns_of exchanges) = 2 * length exchanges.
Proof.
  induction exchanges as [|[u b] rest IH]; [reflexivity|].
  rewrite turns_of_cons, length_app, IH. simpl. lia.
Qed.

Lemma record_all_prunes (exchanges : list (str * str)) (max_history : Z) (w : World) :
  (1 <= max_history)%Z ->
  length (conversation_history w) <= Z.to_nat (2 * max_history) ->
  exists w',
    Spec.record_all exchanges max_history w = (Returns tt, w')
    /\ conversation_history w'
       = Spec.most_recent (Z.to_nat (2 * max_history))
           (conversation_history w ++ Spec.turns_of exchanges).
Proof.
  intros HN. revert w.
  induction exchanges as [|[u b] rest IH]; intros w Hw.
  - exists w. split; [reflexivity|]. cbn [Spec.turns_of flat_map].
    rewrite app_nil_r. symmetry. now apply most_recent_all.
  - cbn [Spec.record_all]. unfold bind at 1.
    rewrite (update_history_prunes u b max_history w HN).
    match goal with |- context [Spec.record_all rest max_history ?w0] =>
      destruct (IH w0) as [w' [Hrun Hhist]] end.
    { cbn [conversation_history]. rewrite most_recent_length. lia. }
    exists w'. split; [exact Hrun|].
    rewrite Hhist. cbn [conversation_history].
    now rewrite most_recent_app, <- app_assoc, <- turns_of_cons.
Qed.

(** The bound is a number of exchanges, one at least: [generate], the
    only caller of [_update_history], leaves it at its default, 10. A
    bound of zero, which no call passes, would prune nothing, since
    [history[-0:]] is the whole list. *)
Remark bound_of_zero_keeps_everything :
  exists w',
    Spec.record_all [(py "hi", py "hello")] 0 fresh = (Returns tt, w')
    /\ conversation_history w' = Spec.turns_of [(py "hi", py "hello")]
    /\ length (conversation_history w') = 2
    /\ conversation_history w'
       <> Spec.most_recent (2 * 0)
            (conversation_history fresh ++ Spec.turns_of [(py "hi", py "hello")]).
Proof.
  eexists. split; [vm_compute; reflexivity|].
  cbn [conversation_history]. repeat split. discriminate.
Qed.

(** C9. With [max_history] = N, a bound of one exchange at least, on a
    history within the bound: after any number of exchanges the history
    is the most recent 2 x N turns, in the order they were appended;
    after N + 1 exchanges on an empty history, it is the last N
    exchanges, the oldest pair dropped; and every [generate] (whose bound
    is 10) keeps the history within 20 turns, leaving it as it is or
    appending the exchange and keeping the most recent 20. *)
Theorem history_is_bounded_fifo (N : Z) :
  (1 <= N)%Z ->
  (forall exchanges w,
     length (conversation_history w) <= Z.to_nat (2 * N) ->
     exists w',
       Spec.record_all exchanges N w = (Returns tt, w')
       /\ conversation_history w'
          = Spec.most_recent (Z.to_nat (2 * N))
              (conversation_history w ++ Spec.turns_of exchanges)
       /\ length (conversation_history w') <= Z.to_nat (2 * N))
  /\
  (forall oldest rest w,
     conversation_history w = [] ->
     length rest = Z.to_nat N ->
     exists w',
       Spec.record_all (oldest :: rest) N w = (Returns tt, w')
       /\ conversation_history w' = Spec.turns_of rest
       /\ length (conversation_history w') = Z.to_nat (2 * N))
  /\
  (forall env user_message conversation_context w,
     length (conversation_history w) <= 20 ->
     exists reply w',
       ResponseGenerator.generate env user_message conversation_context w
       = (Returns reply, w')
       /\ length (conversation_history w') <= 20
       /\ (conversation_history w' = conversation_history w
           \/ exists bot_msg,
                conversation_history w'
                = Spec.most_recent 20
                    (conversation_history w
                       ++ Spec.turns_of [(user_message, bot_msg)]))).
Proof.
  intros HN. repeat split.
  - intros exchanges w Hw.
    destruct (record_all_prunes exchanges N w HN Hw) as [w' [Hrun Hhist]].
    exists w'. repeat split; try assumption.
    rewrite Hhist, most_recent_length. lia.
  - intros [u b] rest w Hw Hlen.
    destruct (record_all_prunes ((u, b) :: rest) N w HN) as [w' [Hrun Hhist]].
    { rewrite Hw. simpl. lia. }
    exists w'. split; [exact Hrun|].
    assert (Hrest : conversation_history w' = Spec.turns_of rest).
    { rewrite Hhist, Hw. cbn [app]. rewrite turns_of_cons.
      unfold Spec.most_recent. rewrite length_app, (turns_of_length rest).
      replace (length (Spec.turns_of [(u, b)]) + 2 * length rest - Z.to_nat (2 * N))
        with (length (Spec.turns_of [(u, b)]) + 0)
        by (change (length (Spec.turns_of [(u, b)])) with 2; lia).
      now rewrite skipn_past. }
    split; [exact Hrest|]. rewrite Hrest, turns_of_length. lia.
  - intros env m c w Hw.
    destruct (generate_returns env m c w) as [r [w' [Hrun [_ Hhist]]]].
    exists r, w'. split; [exact Hrun|].
    destruct Hhist as [Hsame | [bot Hnew]].
    + split; [now rewrite Hsame | now left].
    + split.
      * rewrite Hnew, most_recent_length. lia.
      * right. exists bot. rewrite Hnew. cbn [Spec.turns_of flat_map app].
        now rewrite <- app_assoc.
Qed.

Lemma history_is_bounded_fifo_witness :
  exists w',
    Spec.record_all [(py "one", py "1"); (py "two", py "2"); (py "three", py "3")]
      2 fresh
    = (Returns tt, w')
    /\ conversation_history w'
       = Spec.turns_of [(py "two", py "2"); (py "three", py "3")]
    /\ length (conversation_history w') = Z.to_nat (2 * 2).
Proof.
  apply (proj1 (proj2 (history_is_bounded_fifo 2 ltac:(lia)))
           (py "one", py "1") [(py "two", py "2"); (py "three", py "3")] fresh);
    reflexivity.
Defined.

(** ** Floats *)

Section FloatBounds.

Local Open Scope Q_scope.

Lemma round_half_even_le (y : Q) :
inject_Z (Float.round_half_even y) <= y + (1 # 2).
Proof.
unfold Float.round_half_even.
pose proof (Qfloor_le y) as Hlo.
destruct (Qcompare_spec (y - inject_Z (Qfloor y)) (1 # 2)) as [He | Hl | Hg].
- destruct (Z.even (Qfloor y)).
  + lra.
  + rewrite inject_Z_plus. change (inject_Z 1) with 1. lra.
- lra.
- rewrite inject_Z_plus. change (inject_Z 1) with 1. lra.
Qed.

Lemma round_half_even_ge (y : Q) (n : Z) :
inject_Z n <= y -> inject_Z n <= inject_Z (Float.round_half_even y).
Proof.
intros Hn. unfold Float.round_half_even.
assert (Hf : (n <= Qfloor y)%Z).
{ rewrite <- (Qfloor_Z n). now apply Qfloor_resp_le. }
rewrite <- Zle_Qle.
repeat match goal with |- context [match ?c with _ => _ end] => destruct c end; lia.
Qed.

Lemma floor_log2_le (x : Q) :
1 <= x -> (0 <= Float.floor_log2 x)%Z /\ 2 ^ Float.floor_log2 x <= x.
Proof.
intros Hx. unfold Float.floor_log2.
apply Qle_bool_iff in Hx as Hb. rewrite Hb.
assert (Hf : (1 <= Qfloor x)%Z).
{ rewrite <- (Qfloor_Z 1). now apply Qfloor_resp_le. }
split; [apply Z.log2_nonneg|].
apply Qle_trans with (inject_Z (Qfloor x)); [|apply Qfloor_le].
rewrite <- (Zpower_Qpower 2) by apply Z.log2_nonneg.
rewrite <- Zle_Qle. apply Z.log2_spec. lia.
Qed.

Lemma fl_bounds (x : Q) :
1 <= x ->
2 ^ Float.floor_log2 x <= Float.fl x
/\ Float.fl x <= x + x * (1 # 9007199254740992).
Proof.
intros Hx. destruct (floor_log2_le x Hx) as [He Hpow].
unfold Float.fl.
assert (Hpos : 0 < x) by lra.
apply Qgt_alt in Hpos. rewrite Hpos.
unfold Float.round_pos, Float.ulp. rewrite Qred_correct.
rewrite Z.max_l by lia.
set (e := Float.floor_log2 x) in *.
assert (Hu : 0 < 2 ^ (e - 52)) by (apply Qpower_0_lt; reflexivity).
assert (Hscale : 2 ^ (e - 52) * 4503599627370496 == 2 ^ e).
{ change 4503599627370496 with (2 ^ 52).
  rewrite <- Qpower_plus by discriminate. now replace (e - 52 + 52)%Z with e by lia. }
set (u := 2 ^ (e - 52)) in *.
split.
- assert (H : inject_Z 4503599627370496 <= inject_Z (Float.round_half_even (x / u))).
  { apply round_half_even_ge. change (inject_Z 4503599627370496) with 4503599627370496.
    apply Qle_shift_div_l; [assumption|]. rewrite Qmult_comm, Hscale. assumption. }
  rewrite <- Hscale. rewrite (Qmult_comm u).
  apply Qmult_le_compat_r; [exact H | lra].
- pose proof (round_half_even_le (x / u)) as Hr.
  apply Qle_trans with ((x / u + (1 # 2)) * u).
  + apply Qmult_le_compat_r; [exact Hr | lra].
  + assert (Hdiv : x / u * u == x) by (field; lra).
    assert (Hux : u * 4503599627370496 <= x) by (rewrite Hscale; assumption).
    lra.
Qed.

(** The test [count > len * 0.7] of the source succeeds whenever the
  count exceeds 70% of the length, for every length below 2^49: the
  two roundings of the product stay under the next tenth. *)
Lemma exceeds_seventy_percent (count len : nat) :
(2 <= len)%nat ->
(Z.of_nat len < 2 ^ 49)%Z ->
(7 * len < 10 * count)%nat ->
Float.gtb (inject_Z (Z.of_nat count))
  (Float.mul (Float.of_int (Z.of_nat len)) (Float.lit (7 # 10))) = true.
Proof.
intros Hlen Hbound Hcount.
assert (Hf : Float.lit (7 # 10) = 3152519739159347 # 4503599627370496)
  by (vm_compute; reflexivity).
rewrite Hf. unfold Float.mul, Float.of_int, Float.gtb.
set (L := inject_Z (Z.of_nat len)).
assert (HL2 : 2 <= L).
{ unfold L. change 2 with (inject_Z 2). rewrite <- Zle_Qle. lia. }
assert (HL1 : 1 <= L) by lra.
assert (HLmax : L <= 562949953421312).
{ unfold L. change 562949953421312 with (inject_Z (2 ^ 49)).
  rewrite <- Zle_Qle. lia. }
destruct (fl_bounds L HL1) as [Hlo Hhi].
assert (Ha2 : 2 <= Float.fl L).
{ apply Qle_trans with (2 ^ Float.floor_log2 L); [|exact Hlo].
  change 2 with (2 ^ 1) at 1. apply Qpower_le_compat_l; [|lra].
  unfold Float.floor_log2. apply Qle_bool_iff in HL1 as Hb. rewrite Hb.
  unfold L. rewrite Qfloor_Z. change 1%Z with (Z.log2 2).
  apply Z.log2_le_mono. lia. }
set (a := Float.fl L) in *.
assert (Hz : 1 <= a * (3152519739159347 # 4503599627370496)) by lra.
destruct (fl_bounds _ Hz) as [_ Hzhi].
set (r := Float.fl (a * (3152519739159347 # 4503599627370496))) in *.
assert (HC : 7 * L + 1 <= 10 * inject_Z (Z.of_nat count)).
{ unfold L. change 7 with (inject_Z 7). change 10 with (inject_Z 10).
  change 1 with (inject_Z 1).
  rewrite <- !inject_Z_mult, <- inject_Z_plus, <- Zle_Qle. lia. }
apply negb_true_iff. destruct (Qle_bool (inject_Z (Z.of_nat count)) r) eqn:E;
  [|reflexivity].
apply Qle_bool_iff in E. lra.
Qed.

(** Beyond 2^51 the roundings can reach the next integer: a count above
    70% of such a length is not always above the product. *)
Remark rounding_hides_a_tenth :
  (7 * 3309000247796427 < 10 * 2316300173457499)%Z
  /\ Float.gtb (inject_Z 2316300173457499)
       (Float.mul (Float.of_int 3309000247796427) (Float.lit (7 # 10))) = false.
Proof. split; [lia | vm_compute; reflexivity]. Qed.

End FloatBounds.

(** ** Validation *)

Lemma distinct_le_length (text : str) : Str.distinct text <= length text.
Proof.
  unfold Str.distinct. induction text as [|c text IH]; [reflexivity|].
  simpl. destruct (in_dec ascii_dec c text); simpl; lia.
Qed.

(** C6, as the specification states it, fails twice. The emptiness check
    comes first: "a" is one character at 100% and is reported empty. And
    only the first character is counted: in "bcaaaaaaaa" the character
    "a" fills 80% of the text, the first character "b" 10%, and the text
    is valid. *)
Lemma dominant_character_not_gibberish :
  (7 * length (py "bcaaaaaaaa") < 10 * Str.count "a"%char (py "bcaaaaaaaa")
   /\ SafetyFilter.validate_user_input (py "bcaaaaaaaa")
      = Returns {| valid := true; reason := py "ok"; suggestion := None |})
  /\
  (7 * length (py "a") < 10 * Str.count "a"%char (py "a")
   /\ Str.distinct (py "a") < 3
   /\ SafetyFilter.validate_user_input (py "a")
      = Returns {| valid := false;
                   reason := py "empty";
                   suggestion := Some (py "Please share what's on your mind.") |}).
Proof.
  repeat split; try (vm_compute; reflexivity); vm_compute; lia.
Qed.

(** C6, amended. For every text that passes the emptiness check (two
    characters or more once stripped) and is shorter than 2^49
    characters: if it has fewer than 3 distinct characters, or if the
    frequency of its first character exceeds 70% of its length,
    [validate_user_input] returns valid = False with the reason
    gibberish. *)
Theorem gibberish_is_rejected (text : str) :
  2 <= length (Str.strip text) ->
  (Z.of_nat (length text) < 2 ^ 49)%Z ->
  Str.distinct text < 3
  \/ (exists first, hd_error text = Some first
                    /\ 7 * length text < 10 * Str.count first text) ->
  SafetyFilter.validate_user_input text
  = Returns {| valid := false;
               reason := py "gibberish";
               suggestion :=
                 Some (py "I'm having trouble understanding. Could you rephrase that?") |}.
Proof.
  intros Hstrip Hbound Hgib.
  unfold SafetyFilter.validate_user_input, SafetyFilter.looks_like_gibberish.
  destruct text as [|c text]; [simpl in Hstrip; lia|].
  cbn [orb]. destruct (Nat.ltb_spec (length (Str.strip (c :: text))) 2); [lia|].
  destruct (Nat.ltb_spec (Str.distinct (c :: text)) 3) as [Hd | Hd];
    [reflexivity|].
  destruct Hgib as [Hlt | [first [Hfirst Hfreq]]]; [lia|].
  injection Hfirst as <-.
  cbn [Builtin.index nth_error obind].
  rewrite exceeds_seventy_percent; [reflexivity | | assumption | assumption].
  pose proof (distinct_le_length (c :: text)). lia.
Qed.

Lemma gibberish_is_rejected_witness :
  SafetyFilter.validate_user_input (py "aaaaaaaabc")
  = Returns {| valid := false;
               reason := py "gibberish";
               suggestion :=
                 Some (py "I'm having trouble understanding. Could you rephrase that?") |}.
Proof.
  apply (gibberish_is_rejected (py "aaaaaaaabc")).
  - vm_compute. lia.
  - vm_compute. reflexivity.
  - right. exists "a"%char. split; [reflexivity | vm_compute; lia].
Defined.

(** ** The fallback pools *)

Lemma get_missing {V} (d : list (str * V)) (key : str) :
  ~ In key (map fst d) -> Builtin.get d key = None.
Proof.
  induction d as [|[k v] d IH]; simpl; [reflexivity|].
  intros H. destruct (Str.eqb k key) eqn:E.
  - apply eqb_eq in E. tauto.
  - apply IH. tauto.
Qed.

(** C10. The fallback pools are those of sad, anxious, angry, happy,
    neutral and fearful. For any other label, [_fallback_response] draws
    its sentence from the neutral pool. "confused" is such a label: it
    has a keyword set and a prompt template, the classifier produces it,
    and it has no pool. *)
Theorem confused_draws_from_neutral_pool :
  map fst LLMHandler.fallback_responses
  = [py "sad"; py "anxious"; py "angry"; py "happy"; py "neutral"; py "fearful"]
  /\
  (forall emotion,
     ~ In emotion (map fst LLMHandler.fallback_responses) ->
     forall env user_message w,
     exists neutral base w',
       Builtin.get LLMHandler.fallback_responses (py "neutral") = Some neutral
       /\ In base neutral
       /\ LLMHandler._fallback_response env emotion user_message w
          = (Returns (LLMHandler.add_context LLMHandler.context_additions
                        (Str.lower user_message) base), w'))
  /\ ~ In (py "confused") (map fst LLMHandler.fallback_responses)
  /\ In (py "confused") (map fst EmotionDetector.emotion_keywords)
  /\ In (py "confused") (map fst PromptBuilder.emotion_guidance)
  /\ exists emotion_data,
       EmotionDetector.detect_emotion offline (py "I am confused")
       = Returns emotion_data
       /\ EmotionData.primary_emotion emotion_data = Some (py "confused").
Proof.
  split; [reflexivity|]. split.
  - intros emotion Hno env user_message w.
    destruct (fallback_response_returns env emotion user_message w)
      as [reply [Hrun [neutral [base [Hn [Hin ->]]]]]].
    unfold Builtin.get_or in Hin. rewrite (get_missing _ _ Hno) in Hin.
    exists neutral, base. eexists. repeat split; eassumption.
  - split.
    + intros H. vm_compute in H. intuition discriminate.
    + split; [vm_compute; tauto|]. split; [vm_compute; tauto|].
      eexists. split; vm_compute; reflexivity.
Qed.

Lemma confused_draws_from_neutral_pool_witness :
  exists neutral base w',
    Builtin.get LLMHandler.fallback_responses (py "neutral") = Some neutral
    /\ In base neutral
    /\ LLMHandler._fallback_response offline (py "confused") (py "I am lost") fresh
       = (Returns (LLMHandler.add_context LLMHandler.context_additions
                     (Str.lower (py "I am lost")) base), w').
Proof.
  apply (proj1 (proj2 confused_draws_from_neutral_pool) (py "confused")).
  intros H. vm_compute in H. intuition discriminate.
Defined.

Lemma contains_prefix_app (needle a b : str) :
  Str.contains needle a = true -> Str.contains needle (a ++ b) = true.
Proof.
  rewrite !contains_app. intros [x [y ->]]. exists x, (y ++ b).
  now rewrite <- !app_assoc.
Qed.

(** Every prompt starts with the system prompt, which says "healthy":
    the loop over the topic groups, run on a prompt, always finds one. *)
Lemma prompt_mentions_a_topic (user_message emotion : str) (history : list Turn)
    (prompt : str) :
  PromptBuilder.build_prompt user_message emotion history = Returns prompt ->
  exists addition,
    Spec.addendum_for LLMHandler.context_additions prompt = Some addition.
Proof.
  intros Hp.
  assert (Hstart : exists rest, prompt = PromptBuilder.system_prompt ++ rest).
  { unfold PromptBuilder.build_prompt in Hp.
    destruct (PromptBuilder._get_emotion_context emotion) as [context|]; [|discriminate].
    cbn [obind] in Hp. destruct history; injection Hp as <-;
      cbn [app Str.join]; eexists; reflexivity. }
  destruct Hstart as [rest ->].
  assert (Hhealth : Spec.mentions (py "health|sick|pain|hurt")
                      (PromptBuilder.system_prompt ++ rest) = true).
  { unfold Spec.mentions, Str.any_in. rewrite lower_app.
    change (Str.split "|"%char (py "health|sick|pain|hurt"))
      with [py "health"; py "sick"; py "pain"; py "hurt"].
    cbn [existsb]. rewrite contains_prefix_app; [reflexivity|].
    vm_compute. reflexivity. }
  unfold LLMHandler.context_additions. cbn [Spec.addendum_for].
  rewrite Hhealth.
  repeat match goal with |- context [if ?b then _ else _] => destruct b end; eauto.
Qed.

Lemma add_context_addendum (items : list (str * str)) (user_message base : str) :
  LLMHandler.add_context items (Str.lower user_message) base
  = match Spec.addendum_for items user_message with
    | Some addition => Str.rstrip (py ".!?") base ++ py "." ++ addition
    | None => base
    end.
Proof.
  induction items as [|[group addition] items IH]; [reflexivity|].
  cbn [LLMHandler.add_context Spec.addendum_for]. unfold Spec.mentions.
  destruct (Str.any_in (Str.split "|"%char group) (Str.lower user_message));
    [reflexivity | exact IH].
Qed.

(** C5 at "hello there" and at "money troubles", without a remote
    service. The first message names no topic, and the reply carries the
    addendum of the health group all the same: the text searched is the
    composed prompt, whose system part says "healthy". The second names
    money, and gets the addendum of the health group, declared before. *)
Lemma addendum_follows_the_prompt :
  Spec.addendum_for LLMHandler.context_additions (py "hello there") = None
  /\ (exists reply w',
        ResponseGenerator.generate offline (py "hello there") None fresh
        = (Returns reply, w')
        /\ Reply.response reply
           = Some (py "I'm here and listening. What's on your mind today. Your wellbeing is important. Take care of yourself first."))
  /\ Spec.addendum_for LLMHandler.context_additions (py "money troubles")
     = Some (py " Financial stress is significant. But you have more control than you think.")
  /\ (exists reply w',
        ResponseGenerator.generate offline (py "money troubles") None fresh
        = (Returns reply, w')
        /\ Reply.response reply
           = Some (py "I'm here and listening. What's on your mind today. Your wellbeing is important. Take care of yourself first.")).
Proof.
  split; [vm_compute; reflexivity|]. split.
  - do 2 eexists. split; vm_compute; reflexivity.
  - split; [vm_compute; reflexivity|].
    do 2 eexists. split; vm_compute; reflexivity.
Qed.

(** ** The intensity *)

Lemma lower_has_no_uppercase (text : str) :
  filter Str.is_upper (Str.lower text) = [].
Proof.
  assert (H : forallb (fun n => negb (Str.is_upper (Str.lower_char (ascii_of_nat n))))
                (seq 0 256) = true) by (vm_compute; reflexivity).
  rewrite forallb_forall in H.
  induction text as [|c text IH]; [reflexivity|].
  cbn [Str.lower map filter]. fold (Str.lower text).
  specialize (H (nat_of_ascii c)). rewrite ascii_nat_embedding in H.
  rewrite (proj1 (negb_true_iff _) (H ltac:(apply in_seq; pose proof (nat_ascii_bounded c); lia))).
  exact IH.
Qed.

(** C7 at "HELLO WORLD", without the sentiment package. The text is all
    capitals: the score of the specification is 10 x 10/11, above 5, and
    the intensity high. [detect_emotion] hands the lower-cased text to
    [_calculate_intensity], which finds no capital in it, whatever the
    text: the score is 0 and the intensity low. *)
Lemma capitals_do_not_raise_intensity :
  (forall text, length (filter Str.is_upper (Str.lower text)) = 0)
  /\ Spec.intensity (py "HELLO WORLD") 0 = Returns (py "high")
  /\ exists emotion_data,
       EmotionDetector.detect_emotion offline (py "HELLO WORLD")
       = Returns emotion_data
       /\ EmotionData.intensity emotion_data = Some (py "low").
Proof.
  split; [intros text; now rewrite lower_has_no_uppercase|].
  split; [vm_compute; reflexivity|].
  eexists. split; vm_compute; reflexivity.
Qed.

(** ** Redaction *)

Lemma last_char_app (prev : option ascii) (w1 w2 : str) :
  Re.last_char prev (w1 ++ w2) = Re.last_char (Re.last_char prev w1) w2.
Proof. apply fold_left_app. Qed.

(** What the matcher finds is a word of the language. *)
Lemma run_sound (r : Re.t) :
  Re.simple r = true ->
  forall prev s k x,
    Re.run r prev s k = Some x ->
    exists w rest,
      s = w ++ rest /\ Re.lang r w /\ k (Re.last_char prev w) rest = Some x.
Proof.
  induction r as [|p|a IHa b IHb|a IHa b IHb|a IHa|]; intros Hs prev s k x Hrun;
    cbn [Re.simple] in Hs; try discriminate.
  - exists [], s. repeat split; auto.
  - cbn [Re.run] in Hrun. destruct s as [|c s]; [discriminate|].
    destruct (p c) eqn:Hp; [|discriminate].
    exists [c], s. split; [reflexivity|]. split; [exists c; auto | exact Hrun].
  - apply andb_true_iff in Hs as [Ha Hb]. cbn [Re.run] in Hrun.
    apply (IHa Ha) in Hrun as [w1 [s1 [-> [Hl1 Hrun]]]].
    apply (IHb Hb) in Hrun as [w2 [s2 [-> [Hl2 Hk]]]].
    exists (w1 ++ w2), s2. rewrite app_assoc, last_char_app.
    repeat split; auto. exists w1, w2. auto.
  - apply andb_true_iff in Hs as [Ha Hb]. cbn [Re.run] in Hrun.
    destruct (Re.run a prev s k) eqn:Ea.
    + injection Hrun as <-. apply (IHa Ha) in Ea as [w [rest [-> [Hl Hk]]]].
      exists w, rest. repeat split; auto. now left.
    + apply (IHb Hb) in Hrun as [w [rest [-> [Hl Hk]]]].
      exists w, rest. repeat split; auto. now right.
Qed.

(** Where a word of the language starts the text, the matcher finds a
    match, that one or an earlier choice. *)
Lemma run_complete (r : Re.t) :
  Re.simple r = true ->
  forall w, Re.lang r w ->
  forall prev rest k,
    k (Re.last_char prev w) rest <> None ->
    Re.run r prev (w ++ rest) k <> None.
Proof.
  induction r as [|p|a IHa b IHb|a IHa b IHb|a IHa|]; intros Hs w Hl prev rest k Hk;
    cbn [Re.simple] in Hs; try discriminate; cbn [Re.lang] in Hl.
  - subst w. exact Hk.
  - destruct Hl as [c [-> Hp]]. cbn [Re.run app]. now rewrite Hp.
  - apply andb_true_iff in Hs as [Ha Hb].
    destruct Hl as [w1 [w2 [-> [Hl1 Hl2]]]].
    cbn [Re.run]. rewrite <- app_assoc. apply (IHa Ha w1 Hl1).
    apply (IHb Hb w2 Hl2). now rewrite <- last_char_app.
  - apply andb_true_iff in Hs as [Ha Hb]. cbn [Re.run].
    destruct (Re.run a prev (w ++ rest) k) eqn:Ea; [discriminate|].
    destruct Hl as [Hl | Hl].
    + exfalso. now apply (IHa Ha w Hl prev rest k Hk).
    + now apply (IHb Hb w Hl).
Qed.

Lemma lang_nullable (r : Re.t) : Re.lang r [] -> Re.nullable r = true.
Proof.
  induction r as [|p|a IHa b IHb|a IHa b IHb|a IHa|]; cbn [Re.lang Re.nullable];
    try tauto.
  - intros [c [H _]]. discriminate.
  - intros [w1 [w2 [H [H1 H2]]]]. symmetry in H. apply app_eq_nil in H as [-> ->].
    now rewrite IHa, IHb.
  - intros [H | H]; [rewrite IHa | rewrite IHb]; auto using orb_true_r.
Qed.

Lemma lang_first (r : Re.t) (c : ascii) (w : str) :
  Re.lang r (c :: w) -> Re.first r c = true.
Proof.
  revert w. induction r as [|p|a IHa b IHb|a IHa b IHb|a IHa|]; intros w;
    cbn [Re.lang Re.first]; try tauto.
  - discriminate.
  - intros [d [H Hp]]. now injection H as -> ->.
  - intros [w1 [w2 [H [H1 H2]]]]. destruct w1 as [|d w1].
    + cbn [app] in H. subst w2. rewrite (lang_nullable a H1), (IHb w H2).
      apply orb_true_r.
    + injection H as -> ->. now rewrite (IHa _ H1).
  - intros [H | H]; [rewrite (IHa _ H) | rewrite (IHb _ H)]; auto using orb_true_r.
Qed.

Lemma lang_alphabet (r : Re.t) (w : str) :
  Re.lang r w -> Forall (fun c => Re.alphabet r c = true) w.
Proof.
  revert w. induction r as [|p|a IHa b IHb|a IHa b IHb|a IHa|]; intros w;
    cbn [Re.lang Re.alphabet]; try tauto.
  - intros ->. constructor.
  - intros [c [-> Hp]]. now repeat constructor.
  - intros [w1 [w2 [-> [H1 H2]]]]. apply Forall_app. split.
    + eapply Forall_impl; [|apply (IHa _ H1)]. cbn. intros c ->. reflexivity.
    + eapply Forall_impl; [|apply (IHb _ H2)]. cbn. intros c ->. apply orb_true_r.
  - intros [H | H].
    + eapply Forall_impl; [|apply (IHa _ H)]. cbn. intros c ->. reflexivity.
    + eapply Forall_impl; [|apply (IHb _ H)]. cbn. intros c ->. apply orb_true_r.
Qed.

Lemma prefix_within (good : ascii -> bool) (w u tail rest : str) :
  u ++ tail = w ++ rest ->
  Forall (fun c => good c = true) w ->
  tail = [] \/ (exists b t, tail = b :: t /\ good b = false) ->
  exists y, u = w ++ y.
Proof.
  revert u. induction w as [|a w IH]; intros u Heq Hgood Htail.
  - now exists u.
  - inversion Hgood as [|a' w' Ha Hw]; subst.
    destruct u as [|a' u].
    + cbn [app] in Heq. destruct Htail as [-> | [b [t [-> Hb]]]]; [discriminate|].
      injection Heq as -> _. congruence.
    + injection Heq as -> Heq. destruct (IH u Heq Hw Htail) as [y ->]. now exists y.
Qed.

Section SimpleMatch.

Variable r : Re.t.
Hypothesis r_simple : Re.simple r = true.
Hypothesis r_not_nullable : Re.nullable r = false.

Lemma match_at_sound (prev : option ascii) (s : str) (x : Re.pos) :
  Re.match_at r prev s = Some x ->
  exists c w, s = (c :: w) ++ snd x /\ Re.lang r (c :: w).
Proof.
  intros H. apply (run_sound r r_simple) in H as [w [rest [-> [Hl Hk]]]].
  injection Hk as <-. cbn [snd].
  destruct w as [|c w]; [|now exists c, w].
  apply lang_nullable in Hl. congruence.
Qed.

Lemma match_at_shorter (prev : option ascii) (s : str) (x : Re.pos) :
  Re.match_at r prev s = Some x -> length (snd x) < length s.
Proof.
  intros H. apply match_at_sound in H as [c [w [-> _]]].
  rewrite length_app. simpl. lia.
Qed.

Lemma no_match_at (prev : option ascii) (c : ascii) (s : str) :
  Re.first r c = false -> Re.match_at r prev (c :: s) = None.
Proof.
  intros Hc. destruct (Re.match_at r prev (c :: s)) eqn:E; [|reflexivity].
  apply match_at_sound in E as [d [w [Heq Hl]]].
  injection Heq as <- _. apply lang_first in Hl. congruence.
Qed.

Lemma no_match_at_end (prev : option ascii) : Re.match_at r prev [] = None.
Proof.
  destruct (Re.match_at r prev []) eqn:E; [|reflexivity].
  apply match_at_sound in E as [d [w [Heq _]]]. discriminate.
Qed.

End SimpleMatch.

Section SimpleSubstitution.

Variables (r : Re.t) (repl : str).
Hypothesis r_simple : Re.simple r = true.
Hypothesis r_not_nullable : Re.nullable r = false.
Hypothesis repl_starts_no_match :
  forallb (fun c => negb (Re.first r c)) repl = true.
Hypothesis repl_head_outside :
  match repl with
  | b :: _ => negb (Re.alphabet r b)
  | [] => false
  end = true.

(** One step of [sub_from], by cases on the match at the position. *)
Lemma sub_from_match (fuel : nat) (prev prev' : option ascii) (s rest : str) :
  Re.match_at r prev s = Some (prev', rest) ->
  Re.sub_from (S fuel) r repl prev s = repl ++ Re.sub_from fuel r repl prev' rest.
Proof.
  intros H. cbn [Re.sub_from]. rewrite H.
  apply (match_at_shorter r r_simple r_not_nullable) in H. cbn [snd] in H.
  apply Nat.ltb_lt in H. now rewrite H.
Qed.

Lemma sub_from_no_match (fuel : nat) (prev : option ascii) (c : ascii) (s : str) :
  Re.match_at r prev (c :: s) = None ->
  Re.sub_from (S fuel) r repl prev (c :: s)
  = c :: Re.sub_from fuel r repl (Some c) s.
Proof. intros H. cbn [Re.sub_from]. now rewrite H. Qed.


(** The output starts with a part of the input, copied, and goes on, if
    the input does, with a character no match contains. *)
Lemma sub_from_prefix (fuel : nat) :
  forall prev s,
    length s < fuel ->
    exists copied unread tail,
      s = copied ++ unread
      /\ Re.sub_from fuel r repl prev s = copied ++ tail
      /\ (tail = []
          \/ exists b t, tail = b :: t /\ Re.alphabet r b = false).
Proof.
  induction fuel as [|fuel IH]; intros prev s Hfuel; [lia|].
  destruct (Re.match_at r prev s) as [[prev' rest]|] eqn:E.
  - rewrite (sub_from_match fuel _ _ _ _ E).
    exists [], s. eexists. split; [reflexivity|]. split; [reflexivity|].
    right. destruct repl as [|b t]; [discriminate|].
    exists b. eexists. split; [reflexivity|].
    now apply negb_true_iff.
  - destruct s as [|c s].
    + exists [], [], []. cbn [Re.sub_from]. rewrite E. auto.
    + rewrite (sub_from_no_match fuel _ _ _ E).
      destruct (IH (Some c) s) as [copied [unread [tail [-> [Hout Htail]]]]];
        [simpl in Hfuel; lia|].
      exists (c :: copied), unread, tail. rewrite Hout. auto.
Qed.



End SimpleSubstitution.

(** An iteration followed by a continuation that always succeeds always
    succeeds. *)
Lemma star_total (a : Re.t) (k : option ascii -> str -> option Re.pos) :
  (forall prev s, k prev s <> None) ->
  forall prev s, Re.run (Re.Star a) prev s k <> None.
Proof.
  intros Hk prev s. cbn [Re.run].
  generalize (length s) at 1. intros fuel. revert prev s.
  induction fuel as [|fuel IH]; intros prev s; [apply Hk|].
  match goal with |- context [Re.run a prev s ?k'] => destruct (Re.run a prev s k') end;
    [discriminate | apply Hk].
Qed.

Lemma lang_Lit (t w : str) : Re.lang (Re.Lit t) w <-> w = t.
Proof.
  revert w. induction t as [|c t IH]; intros w; cbn [Re.Lit Re.lang].
  - tauto.
  - split.
    + intros [w1 [w2 [-> [[d [-> Hd]] Hw2]]]]. apply Ascii.eqb_eq in Hd as <-.
      apply IH in Hw2 as ->. reflexivity.
    + intros ->. exists [c], t. split; [reflexivity|]. split.
      * exists c. split; [reflexivity | apply Ascii.eqb_refl].
      * now apply IH.
Qed.

(** The pattern of URLs without its iteration: a scheme and one character
    more. *)
Lemma url_pattern_unfold (prev : option ascii) (s : str)
    (k : option ascii -> str -> option Re.pos) :
  Re.run SafetyFilter.url_pattern prev s k
  = Re.run
      (Re.Seq (Re.Lit (py "http"))
         (Re.Seq (Re.Opt (Re.Chr (Re.one_of (py "s"))))
            (Re.Seq (Re.Lit (py "://")) SafetyFilter.url_char)))
      prev s
      (fun prev' s' => Re.run (Re.Star SafetyFilter.url_char) prev' s' k).
Proof. reflexivity. Qed.

Lemma url_char_lang (w : str) :
  Re.lang SafetyFilter.url_char w ->
  exists c w', w = c :: w' /\ Spec.url_class c = true.
Proof.
  intros H. destruct w as [|c w'].
  - apply lang_nullable in H. discriminate.
  - exists c, w'. split; [reflexivity|]. now apply lang_first in H.
Qed.

Lemma for_all_chars (P : ascii -> bool) :
  forallb (fun n => P (ascii_of_nat n)) (seq 0 256) = true ->
  forall c, P c = true.
Proof.
  intros H c. rewrite forallb_forall in H.
  rewrite <- (ascii_nat_embedding c). apply H, in_seq.
  pose proof (nat_ascii_bounded c). lia.
Qed.

Lemma url_class_lang (c : ascii) :
  Spec.url_class c = true -> Re.lang SafetyFilter.url_char [c].
Proof.
  intros H.
  assert (Hall : forall d,
             implb (Spec.url_class d)
               (Str.is_alpha d || Str.is_digit d
                || Re.either (Str.between 36 95) (Re.one_of (py "@.&+")) d
                || Re.one_of (py "!*\(\),") d) = true)
    by (apply for_all_chars; vm_compute; reflexivity).
  specialize (Hall c). rewrite H in Hall. cbn [implb] in Hall.
  unfold SafetyFilter.url_char. cbn [Re.lang].
  apply orb_true_iff in Hall as [Hall | H4]; [|right; right; right; left; eauto].
  apply orb_true_iff in Hall as [Hall | H3]; [|right; right; left; eauto].
  apply orb_true_iff in Hall as [H1 | H2]; [left; eauto | right; left; eauto].
Qed.

Lemma url_match_sound (prev : option ascii) (s : str) (x : Re.pos) :
  Re.match_at SafetyFilter.url_pattern prev s = Some x -> Spec.url_at s.
Proof.
  unfold Re.match_at. rewrite url_pattern_unfold. intros H.
  apply run_sound in H as [w [rest [-> [Hl _]]]]; [|reflexivity].
  destruct Hl as [w1 [w2 [-> [H1 [w3 [w4 [-> [H3 [w5 [w6 [-> [H5 H6]]]]]]]]]]]].
  apply lang_Lit in H1 as ->. apply lang_Lit in H5 as ->.
  apply url_char_lang in H6 as [c [w' [-> Hc]]].
  destruct H3 as [[d [-> Hd]] | ->].
  - unfold Re.one_of, Str.mem in Hd. cbn [existsb py list_ascii_of_string] in Hd.
    rewrite orb_false_r in Hd. apply Ascii.eqb_eq in Hd as ->.
    exists (py "https://"), c, (w' ++ rest). auto.
  - exists (py "http://"), c, (w' ++ rest). auto.
Qed.

(** The matcher only moves forward: what it hands to its continuation
    is an end of the text. *)
Lemma run_forward (r : Re.t) :
  forall prev s k x,
    Re.run r prev s k = Some x ->
    exists prev' w s', s = w ++ s' /\ k prev' s' = Some x.
Proof.
  induction r as [|p|a IHa b IHb|a IHa b IHb|a IHa|]; intros prev s k x Hrun;
    cbn [Re.run] in Hrun.
  - exists prev, [], s. auto.
  - destruct s as [|c s]; [discriminate|]. destruct (p c); [|discriminate].
    exists (Some c), [c], s. auto.
  - apply IHa in Hrun as [p1 [w1 [s1 [-> Hrun]]]].
    apply IHb in Hrun as [p2 [w2 [s2 [-> Hk]]]].
    exists p2, (w1 ++ w2), s2. now rewrite app_assoc.
  - destruct (Re.run a prev s k) eqn:Ea.
    + injection Hrun as <-. now apply IHa in Ea.
    + now apply IHb in Hrun.
  - revert Hrun. generalize (length s) at 1. intros fuel. revert prev s.
    induction fuel as [|fuel IH]; intros prev s Hrun; [exists prev, [], s; auto|].
    match type of Hrun with context [Re.run a prev s ?k'] =>
      destruct (Re.run a prev s k') eqn:Ea end.
    + injection Hrun as <-. apply IHa in Ea as [p1 [w1 [s1 [-> Hk]]]].
      destruct (length s1 <? length (w1 ++ s1)); [|discriminate].
      apply IH in Hk as [p2 [w2 [s2 [-> Hk]]]].
      exists p2, (w1 ++ w2), s2. now rewrite app_assoc.
    + exists prev, [], s. auto.
  - destruct (xorb (Re.word_before prev) (Re.word_after s)); [|discriminate].
    exists prev, [], s. auto.
Qed.

Lemma match_at_suffix (r : Re.t) (prev : option ascii) (s : str) (x : Re.pos) :
  Re.match_at r prev s = Some x -> exists w, s = w ++ snd x.
Proof.
  intros H. apply run_forward in H as [p [w [s' [-> Hk]]]].
  injection Hk as <-. now exists w.
Qed.

Lemma url_match_complete (prev : option ascii) (s : str) :
  Spec.url_at s ->
  exists x, Re.match_at SafetyFilter.url_pattern prev s = Some x
            /\ length (snd x) < length s.
Proof.
  intros [scheme [c [rest [Hscheme [Hc ->]]]]].
  assert (Hrun : Re.match_at SafetyFilter.url_pattern prev (scheme ++ c :: rest) <> None).
  { unfold Re.match_at. rewrite url_pattern_unfold.
    change (scheme ++ c :: rest) with (scheme ++ [c] ++ rest). rewrite app_assoc.
    apply run_complete; [reflexivity | | apply star_total; discriminate].
    destruct Hscheme as [-> | ->].
    - exists (py "http"), (py "://" ++ [c]). split; [reflexivity|].
      split; [now apply lang_Lit|].
      exists [], (py "://" ++ [c]). split; [reflexivity|]. split; [now right|].
      exists (py "://"), [c]. split; [reflexivity|].
      split; [now apply lang_Lit | now apply url_class_lang].
    - exists (py "http"), (py "s://" ++ [c]). split; [reflexivity|].
      split; [now apply lang_Lit|].
      exists (py "s"), (py "://" ++ [c]). split; [reflexivity|].
      split; [left; exists "s"%char; auto|].
      exists (py "://"), [c]. split; [reflexivity|].
      split; [now apply lang_Lit | now apply url_class_lang]. }
  destruct (Re.match_at SafetyFilter.url_pattern prev (scheme ++ c :: rest))
    as [x|] eqn:E; [|contradiction].
  exists x. split; [reflexivity|].
  unfold Re.match_at in E. rewrite url_pattern_unfold in E.
  apply run_sound in E as [w [rest' [Heq [Hl Hk]]]]; [|reflexivity].
  apply run_forward in Hk as [p' [w' [s' [-> Hk]]]]. injection Hk as <-. cbn [snd].
  rewrite Heq, !length_app.
  destruct Hl as [w1 [w2 [-> [H1 _]]]]. apply lang_Lit in H1 as ->.
  rewrite length_app. simpl. lia.
Qed.

Lemma url_at_nil : ~ Spec.url_at [].
Proof.
  intros [scheme [c [rest [_ [_ H]]]]]. symmetry in H.
  now apply app_eq_nil in H as [_ H].
Qed.

Lemma url_at_more (scheme : str) (c : ascii) (l rest : str) :
  scheme = py "http://" \/ scheme = py "https://" ->
  Spec.url_class c = true ->
  Spec.url_at (((scheme ++ [c]) ++ l) ++ rest).
Proof.
  intros Hs Hc. exists scheme, c, (l ++ rest). repeat split; auto.
  now rewrite <- !app_assoc.
Qed.

(** Where the text read so far ends with a character outside the
    schemes, a URL that starts there lies within what was read, or is a
    scheme followed by that character. *)
Lemma scheme_before_bracket (scheme u l : str) (c : ascii) :
  scheme = py "http://" \/ scheme = py "https://" ->
  scheme ++ [c] = u ++ "["%char :: l ->
  u = scheme.
Proof.
  intros [-> | ->] H; cbn [py list_ascii_of_string app] in H;
    repeat (destruct u as [|? u];
            [cbn [app] in H; try discriminate H
            | cbn [app] in H; injection H as <- H]);
    try reflexivity;
    try (exfalso; destruct u; discriminate H).
Qed.

Lemma url_at_replace_tail (u tail unread : str) :
  Spec.url_at (u ++ tail) ->
  (tail = [] /\ unread = [])
  \/ ((exists t, tail = "["%char :: t)
      /\ exists e s', unread = e :: s' /\ Spec.url_class e = true) ->
  Spec.url_at (u ++ unread).
Proof.
  intros Hurl [[-> ->] | [[t ->] [e [s' [-> He]]]]]; [assumption|].
  destruct Hurl as [scheme [c [rest [Hs [Hc Heq]]]]].
  change (scheme ++ c :: rest) with (scheme ++ [c] ++ rest) in Heq.
  rewrite app_assoc in Heq.
  apply app_eq_app in Heq as [l [[-> _] | [Hsplit Htail]]].
  - now apply url_at_more.
  - destruct l as [|b l].
    + rewrite app_nil_r in Hsplit. subst u.
      rewrite <- (app_nil_r (scheme ++ [c])). now apply url_at_more.
    + injection Htail as <- _.
      apply scheme_before_bracket in Hsplit as ->; [|assumption].
      exists scheme, e, s'. auto.
Qed.

Lemma url_free_app (a b : str) :
  (forall i, i < length a -> ~ Spec.url_at (skipn i a ++ b)) ->
  Spec.url_free b ->
  Spec.url_free (a ++ b).
Proof.
  intros Ha Hb before after Heq.
  apply app_eq_app in Heq as [l [[-> ->] | [-> ->]]].
  - destruct l as [|c l].
    + now apply (Hb []).
    + specialize (Ha (length before)).
      rewrite skipn_app, skipn_all, Nat.sub_diag in Ha. cbn [skipn app] in Ha.
      apply Ha. rewrite length_app. simpl. lia.
  - now apply (Hb l).
Qed.

Lemma url_free_tail (c : ascii) (s : str) :
  Spec.url_free (c :: s) -> Spec.url_free s.
Proof. intros H before after ->. now apply (H (c :: before)). Qed.

Section UrlExposure.

Variables (r : Re.t) (repl : str).

Hypothesis match_starts_in_class :
  forall prev s x,
    Re.match_at r prev s = Some x ->
    exists e s', s = e :: s' /\ Spec.url_class e = true.

Hypothesis repl_head : exists t, repl = "["%char :: t.

Hypothesis repl_hides_no_url :
  forall i rest, i < length repl -> ~ Spec.url_at (skipn i repl ++ rest).

(** The output copies a part of the input and then, if the input goes on,
    puts the replacement where a match starts. *)
Lemma sub_from_shape (fuel : nat) :
  forall prev s,
    length s < fuel ->
    exists copied unread tail,
      s = copied ++ unread
      /\ Re.sub_from fuel r repl prev s = copied ++ tail
      /\ ((tail = [] /\ unread = [])
          \/ ((exists t, tail = "["%char :: t)
              /\ exists e s', unread = e :: s' /\ Spec.url_class e = true)).
Proof.
  induction fuel as [|fuel IH]; intros prev s Hfuel; [lia|].
  assert (Hcopy : forall c s', s = c :: s' ->
            exists copied unread tail,
              s = copied ++ unread
              /\ c :: Re.sub_from fuel r repl (Some c) s' = copied ++ tail
              /\ ((tail = [] /\ unread = [])
                  \/ ((exists t, tail = "["%char :: t)
                      /\ exists e s', unread = e :: s' /\ Spec.url_class e = true))).
  { intros c s' ->.
    destruct (IH (Some c) s') as [copied [unread [tail [-> [Hout Htail]]]]];
      [simpl in Hfuel; lia|].
    exists (c :: copied), unread, tail. rewrite Hout. auto. }
  cbn [Re.sub_from].
  destruct (Re.match_at r prev s) as [[prev' rest]|] eqn:E.
  - destruct (length rest <? length s).
    + exists [], s. eexists. split; [reflexivity|]. split; [reflexivity|].
      right. split.
      * destruct repl_head as [t ->]. eexists. reflexivity.
      * exact (match_starts_in_class _ _ _ E).
    + destruct s as [|c s']; [exists [], [], []; auto | now apply Hcopy].
  - destruct s as [|c s']; [exists [], [], []; auto | now apply Hcopy].
Qed.

Lemma url_at_cons_sub (fuel : nat) (prev : option ascii) (c : ascii) (s : str) :
  length s < fuel ->
  ~ Spec.url_at (c :: s) ->
  ~ Spec.url_at (c :: Re.sub_from fuel r repl prev s).
Proof.
  intros Hfuel Hno Hurl.
  destruct (sub_from_shape fuel prev s Hfuel)
    as [copied [unread [tail [-> [Hout Htail]]]]].
  rewrite Hout in Hurl. apply Hno.
  apply (url_at_replace_tail (c :: copied) tail unread); assumption.
Qed.

(** If every URL of the input starts a match, the output has no URL. *)
Lemma sub_from_url_free (fuel : nat) :
  forall prev s,
    length s < fuel ->
    (forall before after p,
       s = before ++ after -> Spec.url_at after ->
       exists x, Re.match_at r p after = Some x /\ length (snd x) < length after) ->
    Spec.url_free (Re.sub_from fuel r repl prev s).
Proof.
  induction fuel as [|fuel IH]; intros prev s Hfuel Hq; [lia|].
  assert (Hcopy : forall c s', s = c :: s' ->
            ~ Spec.url_at (c :: s') ->
            Spec.url_free (c :: Re.sub_from fuel r repl (Some c) s')).
  { intros c s' -> Hno before after Heq.
    destruct before as [|b before].
    - cbn [app] in Heq. subst after. apply url_at_cons_sub; [simpl in Hfuel; lia | exact Hno].
    - injection Heq as -> Heq.
      refine (IH (Some b) s' _ _ before after Heq); [simpl in Hfuel; lia|].
      intros b' a' p -> Ha. apply (Hq (b :: b') a' p eq_refl Ha). }
  cbn [Re.sub_from].
  destruct (Re.match_at r prev s) as [[prev' rest]|] eqn:E.
  - destruct (Nat.ltb_spec (length rest) (length s)) as [Hlt | Hge].
    + apply url_free_app; [intros i Hi; now apply repl_hides_no_url|].
      destruct (match_at_suffix _ _ _ _ E) as [w Hw]. cbn [snd] in Hw.
      apply IH; [lia|].
      intros b' a' p -> Ha. apply (Hq (w ++ b') a' p); [|exact Ha].
      now rewrite Hw, app_assoc.
    + destruct s as [|c s']; [intros b a Heq; symmetry in Heq;
                              apply app_eq_nil in Heq as [_ ->]; apply url_at_nil|].
      apply Hcopy; [reflexivity|]. intros Hurl.
      destruct (Hq [] (c :: s') prev eq_refl Hurl) as [x [Hx Hlen]].
      rewrite E in Hx. injection Hx as <-. cbn [snd] in Hlen. lia.
  - destruct s as [|c s']; [intros b a Heq; symmetry in Heq;
                            apply app_eq_nil in Heq as [_ ->]; apply url_at_nil|].
    apply Hcopy; [reflexivity|]. intros Hurl.
    destruct (Hq [] (c :: s') prev eq_refl Hurl) as [x [Hx _]]. congruence.
Qed.

Lemma sub_keeps_url_free (s : str) :
  Spec.url_free s -> Spec.url_free (Re.sub r repl s).
Proof.
  intros Hfree. unfold Re.sub. apply sub_from_url_free; [lia|].
  intros before after p Heq Hurl. exfalso. exact (Hfree before after Heq Hurl).
Qed.

End UrlExposure.

Lemma sub_from_unchanged (r : Re.t) (repl : str) (fuel : nat) :
  forall prev s,
    (forall before after p, s = before ++ after -> Re.match_at r p after = None) ->
    Re.sub_from fuel r repl prev s = s.
Proof.
  induction fuel as [|fuel IH]; intros prev s Hno; [reflexivity|].
  cbn [Re.sub_from]. rewrite (Hno [] s prev eq_refl).
  destruct s as [|c s]; [reflexivity|]. f_equal. apply IH.
  intros before after p ->. now apply (Hno (c :: before)).
Qed.


Lemma placeholder_hides_no_url (repl : str) :
  repl = SafetyFilter.link_removed \/ repl = SafetyFilter.email_removed
  \/ repl = SafetyFilter.phone_removed ->
  forall i rest, i < length repl -> ~ Spec.url_at (skipn i repl ++ rest).
Proof.
  intros Hrepl i rest Hi [scheme [c [rest' [Hs [_ Heq]]]]].
  destruct Hrepl as [-> | [-> | ->]]; destruct Hs as [-> | ->];
    do 15 (destruct i as [|i];
           [simpl in Heq, Hi; first [discriminate Heq | lia]|]);
    simpl in Hi; lia.
Qed.

Lemma url_match_starts (prev : option ascii) (s : str) (x : Re.pos) :
  Re.match_at SafetyFilter.url_pattern prev s = Some x ->
  exists e s', s = e :: s' /\ Spec.url_class e = true.
Proof.
  intros H. apply url_match_sound in H as [scheme [c [rest [Hs [_ ->]]]]].
  destruct Hs as [-> | ->]; exists "h"%char; eexists; split; reflexivity.
Qed.

Lemma email_match_starts (prev : option ascii) (s : str) (x : Re.pos) :
  Re.match_at SafetyFilter.email_pattern prev s = Some x ->
  exists e s', s = e :: s' /\ Spec.url_class e = true.
Proof.
  unfold Re.match_at, SafetyFilter.email_pattern, Re.Plus. cbn [Re.run].
  destruct (xorb (Re.word_before prev) (Re.word_after s)); [|discriminate].
  destruct s as [|e s']; [discriminate|].
  match goal with |- context [if ?p e then _ else _] => destruct (p e) eqn:He end;
    [|discriminate].
  intros _. exists e, s'. split; [reflexivity|].
  revert He. apply implb_true_iff. revert e.
  apply for_all_chars. vm_compute. reflexivity.
Qed.

(** A phone number starts with a plus sign, a parenthesis or one of the
    digits 0 to 9, which a URL goes on with: this is the pattern on
    ASCII text. *)
Lemma phone_match_starts (prev : option ascii) (s : str) (x : Re.pos) :
  Re.match_at SafetyFilter.phone_pattern prev s = Some x ->
  exists e s', s = e :: s' /\ Spec.url_class e = true.
Proof.
  intros H.
  apply (match_at_sound SafetyFilter.phone_pattern eq_refl eq_refl) in H
    as [e [w [-> Hl]]].
  exists e, (w ++ snd x). split; [reflexivity|].
  apply lang_first in Hl. revert Hl. apply implb_true_iff. revert e.
  apply for_all_chars. vm_compute. reflexivity.
Qed.

(** The sanitized form of a text has no URL: the first substitution
    redacts them all, and the two others expose none, the characters
    being those of the ASCII range. *)
Lemma sanitize_output_url_free (text : str) :
  Spec.url_free (SafetyFilter.sanitize_output text).
Proof.
  unfold SafetyFilter.sanitize_output.
  apply (sub_keeps_url_free SafetyFilter.phone_pattern SafetyFilter.phone_removed
           phone_match_starts (ex_intro _ _ eq_refl)
           (placeholder_hides_no_url _ (or_intror (or_intror eq_refl)))).
  apply (sub_keeps_url_free SafetyFilter.email_pattern SafetyFilter.email_removed
           email_match_starts (ex_intro _ _ eq_refl)
           (placeholder_hides_no_url _ (or_intror (or_introl eq_refl)))).
  unfold Re.sub.
  apply (sub_from_url_free SafetyFilter.url_pattern SafetyFilter.link_removed
           url_match_starts (ex_intro _ _ eq_refl)
           (placeholder_hides_no_url _ (or_introl eq_refl))); [lia|].
  intros before after p _ Hurl. now apply url_match_complete.
Qed.





(** * Further properties *)

(** ** The stages of a call *)

(** The fallback path returns the sentence the draw picks, with its
    addendum, after one draw. *)
Lemma fallback_response_draw (env : Env) (emotion user_message : str) (w : World) :
  exists reply,
    LLMHandler._fallback_response env emotion user_message w
    = (Returns reply,
       {| llm := llm w;
          conversation_history := conversation_history w;
          draws := S (draws w);
          calls := (calls w ++ [CFallbackResponse]) ++ [CRandomChoice] |})
    /\ Spec.drawn_reply env emotion user_message (draws w) reply.
Proof.
  unfold LLMHandler._fallback_response, Spec.drawn_reply, Spec.drawn_base,
    Builtin.subscript.
  destruct (Builtin.get LLMHandler.fallback_responses (py "neutral"))
    as [neutral|] eqn:En; [|vm_compute in En; discriminate].
  destruct (index_mod_returns
              (Builtin.get_or LLMHandler.fallback_responses emotion neutral)
              (random_source env (draws w))
              (fallback_pool_not_empty emotion neutral En)) as [base [Hb Hin]].
  exists (LLMHandler.add_context LLMHandler.context_additions
            (Str.lower user_message) base).
  split.
  - unfold random_choice, bind, log, lift, get_world, put_world, ret.
    cbn [draws llm conversation_history calls]. rewrite Hb. reflexivity.
  - exists base. split; [|reflexivity].
    unfold Builtin.index in Hb. cbv zeta.
    destruct (nth_error _ _); [now injection Hb as -> | discriminate].
Qed.

(** What [generate_response] returns and does, in its three runs. *)
Lemma generate_response_shape (env : Env) (prompt emotion : str) (w : World) :
  exists reply made n,
    LLMHandler.generate_response env prompt emotion w
    = (Returns reply,
       {| llm := llm w;
          conversation_history := conversation_history w;
          draws := n + draws w;
          calls := calls w ++ CGenerateResponse :: made |})
    /\ ((LLMHandler.truthy (api_key (llm w)) && use_client (llm w) = false
         /\ made = [CFallbackResponse; CRandomChoice] /\ n = 1
         /\ Spec.drawn_reply env emotion prompt (draws w) reply)
        \/ (made = [CTextGeneration] /\ n = 0
            /\ Spec.is_remote_reply env prompt w reply)
        \/ (LLMHandler.truthy (api_key (llm w)) && use_client (llm w) = true
            /\ made = [CTextGeneration; CFallbackResponse; CRandomChoice] /\ n = 1
            /\ Spec.drawn_reply env emotion prompt (draws w) reply)).
Proof.
  unfold LLMHandler.generate_response, bind, log, get_world.
  cbn [llm conversation_history draws calls].
  destruct (LLMHandler.truthy (api_key (llm w))) eqn:Ek; cbn [negb orb andb].
  2:{ destruct (fallback_response_draw env emotion prompt
                  {| llm := llm w; conversation_history := conversation_history w;
                     draws := draws w; calls := calls w ++ [CGenerateResponse] |})
        as [reply [Hr Hf]].
      rewrite Hr. cbn [llm conversation_history draws calls].
      exists reply, [CFallbackResponse; CRandomChoice], 1. split.
      - rewrite <- !app_assoc. reflexivity.
      - left. auto. }
  destruct (use_client (llm w)) eqn:Eu; cbn [negb].
  2:{ destruct (fallback_response_draw env emotion prompt
                  {| llm := llm w; conversation_history := conversation_history w;
                     draws := draws w; calls := calls w ++ [CGenerateResponse] |})
        as [reply [Hr Hf]].
      rewrite Hr. cbn [llm conversation_history draws calls].
      exists reply, [CFallbackResponse; CRandomChoice], 1. split.
      - rewrite <- !app_assoc. reflexivity.
      - left. auto. }
  unfold try_except, bind, log, lift.
  cbn [llm conversation_history draws calls].
  destruct (text_generation env prompt (current_model (llm w))) as [text|e] eqn:Et.
  - destruct text as [|c text].
    + match goal with |- context [LLMHandler._fallback_response _ _ _ ?w0] =>
        destruct (fallback_response_draw env emotion prompt w0) as [reply [Hr Hf]]
      end.
      rewrite Hr. cbn [llm conversation_history draws calls].
      exists reply, [CTextGeneration; CFallbackResponse; CRandomChoice], 1. split.
      * rewrite <- !app_assoc. reflexivity.
      * right. right. auto.
    + destruct (clean_response_returns (c :: text)) as [cleaned Hc]. rewrite Hc.
      exists cleaned, [CTextGeneration], 0. split.
      * rewrite <- !app_assoc. reflexivity.
      * right. left. repeat split; auto. exists (c :: text). repeat split; auto.
        discriminate.
  - match goal with |- context [LLMHandler._fallback_response _ _ _ ?w0] =>
      destruct (fallback_response_draw env emotion prompt w0) as [reply [Hr Hf]]
    end.
    rewrite Hr. cbn [llm conversation_history draws calls].
    exists reply, [CTextGeneration; CFallbackResponse; CRandomChoice], 1. split.
    + rewrite <- !app_assoc. reflexivity.
    + right. right. auto.
Qed.

Lemma generate_on_message (env : Env) (user_message : str)
    (conversation_context : option (list Turn)) (w : World) (validation : Validation) :
  SafetyFilter.validate_user_input user_message = Returns validation ->
  valid validation = true ->
  is_crisis (SafetyFilter.check_crisis user_message) = false ->
  exists emotion_data emotion prompt raw made n,
    EmotionDetector.detect_emotion env user_message = Returns emotion_data
    /\ EmotionData.primary_emotion emotion_data = Some emotion
    /\ PromptBuilder.build_prompt user_message emotion
         (Spec.history_for conversation_context w) = Returns prompt
    /\ In made Spec.generation_runs
    /\ (Spec.drawn_reply env emotion prompt (draws w) raw
        \/ Spec.is_remote_reply env prompt w raw)
    /\ (LLMHandler.truthy (api_key (llm w)) && use_client (llm w) = false ->
        made = [CFallbackResponse; CRandomChoice]
        /\ Spec.drawn_reply env emotion prompt (draws w) raw)
    /\ ResponseGenerator.generate env user_message conversation_context w
       = (Returns
            (ResponseGenerator._create_response_object
               (Some (SafetyFilter.sanitize_output
                        (fst (SafetyFilter.filter_response raw user_message))))
               emotion_data
               (snd (SafetyFilter.filter_response raw user_message))
               [(py "model_used", VStr (current_model (llm w)));
                (py "prompt_length", VInt (Z.of_nat (length prompt)))]),
          {| llm := llm w;
             conversation_history :=
               Spec.most_recent 20
                 ((conversation_history w
                     ++ [{| role := py "user"; content := user_message |}])
                    ++ [{| role := py "assistant";
                           content := SafetyFilter.sanitize_output
                                        (fst (SafetyFilter.filter_response raw user_message)) |}]);
             draws := n + draws w;
             calls := calls w
                      ++ [CValidateUserInput; CCheckCrisis; CDetectEmotion;
                          CBuildPrompt; CGenerateResponse] ++ made
                      ++ [CFilterResponse; CSanitizeOutput; CUpdateHistory] |}).
Proof.
  intros Hv Hvalid Hc.
  unfold ResponseGenerator.generate, invoke, bind, log, lift, ret, get_world.
  rewrite Hv, Hvalid. cbn [negb]. cbv beta iota. rewrite Hc.
  destruct (detect_emotion_returns env user_message) as [ed [primary [Hed Hp]]].
  rewrite Hed. unfold ResponseGenerator.primary_emotion_of. rewrite Hp.
  cbn [llm conversation_history draws calls].
  fold (Spec.history_for conversation_context w).
  match goal with |- context [PromptBuilder.build_prompt ?a ?b ?c] =>
    destruct (build_prompt_returns a b c) as [prompt Hprompt]; rewrite Hprompt end.
  match goal with |- context [LLMHandler.generate_response ?e ?p ?em ?w0] =>
    destruct (generate_response_shape e p em w0) as [raw [made [n [Hg Hcase]]]];
    rewrite Hg end.
  cbn [llm conversation_history draws calls] in *.
  exists ed, primary, prompt, raw, made, n.
  destruct (SafetyFilter.filter_response raw user_message) as [filtered safe] eqn:Ef.
  unfold ResponseGenerator._update_history, bind, log, get_world, put_world, ret.
  cbn [llm conversation_history draws calls fst snd].
  rewrite (prune_most_recent 10) by lia.
  repeat split; auto.
  - destruct Hcase as [[_ [-> _]] | [[-> _] | [_ [-> _]]]]; simpl; auto.
  - destruct Hcase as [[_ [_ [_ H]]] | [[_ [_ H]] | [_ [_ [_ H]]]]]; auto.
  - destruct Hcase as [[_ [-> _]] | [[_ [_ [Hk [Hu _]]]] | [Hu _]]]; auto.
    + cbn [llm] in Hk, Hu. rewrite Hk, Hu in H. discriminate.
    + congruence.
  - destruct Hcase as [[_ [_ [_ Hf]]] | [[_ [_ [Hk [Hu _]]]] | [Hu _]]]; auto.
    + cbn [llm] in Hk, Hu. rewrite Hk, Hu in H. discriminate.
    + congruence.
  - repeat (rewrite <- ?app_assoc; cbn [app]). reflexivity.
Qed.

Lemma rejected_suggestion (text : str) (validation : Validation) :
  SafetyFilter.validate_user_input text = Returns validation ->
  valid validation = false ->
  validation = {| valid := false; reason := py "empty";
                  suggestion := Some (py "Please share what's on your mind.") |}
  \/ validation = {| valid := false; reason := py "gibberish";
                     suggestion :=
                       Some (py "I'm having trouble understanding. Could you rephrase that?") |}.
Proof.
  unfold SafetyFilter.validate_user_input.
  destruct (_ || _); [intros [= <-]; auto|].
  destruct (SafetyFilter.looks_like_gibberish text) as [[|]|]; cbn [obind];
    [intros [= <-]; auto | | discriminate].
  destruct (1000 <? length text); intros [= <-]; discriminate.
Qed.

Lemma no_separator_url_free (s : str) :
  Str.contains (py "://") s = false -> Spec.url_free s.
Proof.
  intros Hno before after -> [scheme [c [rest [Hs [_ ->]]]]].
  assert (H : Str.contains (py "://") (before ++ scheme ++ c :: rest) = true);
    [|congruence].
  apply contains_app.
  destruct Hs as [-> | ->].
  - exists (before ++ py "http"), (c :: rest). now rewrite <- app_assoc.
  - exists (before ++ py "https"), (c :: rest). now rewrite <- app_assoc.
Qed.

Lemma detect_emotion_label (env : Env) (text : str) (emotion_data : EmotionData.t) :
  EmotionDetector.detect_emotion env text = Returns emotion_data ->
  exists emotion,
    EmotionData.primary_emotion emotion_data = Some emotion
    /\ In emotion Spec.labels.
Proof.
  unfold EmotionDetector.detect_emotion, Spec.labels.
  destruct (EmotionDetector.sentiment_scores env text) as [[p s]|]; [|discriminate].
  cbn [obind].
  match goal with |- context [flat_map ?f ?l] =>
    assert (Hkeys : incl (map fst (flat_map f l)) (map fst l));
    [|destruct (flat_map f l) as [|[k v] d]] end.
  { generalize EmotionDetector.emotion_keywords.
    intros l. induction l as [|[e ks] l IH]; [easy|].
    cbn [flat_map]. rewrite map_app. apply incl_app.
    - destruct (0 <? _); [|easy]. intros x [<- | []]. now left.
    - now apply incl_tl. }
  - repeat match goal with |- context [if ?b then _ else _] => destruct b end;
      cbn [obind];
      (destruct (EmotionDetector._calculate_intensity (Str.lower text) s);
       [|discriminate]); cbn [obind]; intros Heq;
      apply (f_equal (fun o => match o with
                               | Returns d => EmotionData.primary_emotion d
                               | Raises _ => None
                               end)) in Heq;
      cbn [EmotionData.primary_emotion] in Heq;
      eexists; (split; [symmetry; exact Heq|]); simpl; auto 10.
  - cbn [Builtin.max_key obind].
    assert (Hin : In (Builtin.max_key_from k v d) (map fst ((k, v) :: d))).
    { destruct (max_key_from_in d k v) as [-> | H]; [now left | now right]. }
    destruct (Builtin.subscript _ _); [|discriminate]. cbn [obind].
    destruct (EmotionDetector._calculate_intensity (Str.lower text) s);
      [|discriminate].
    cbn [obind]. intros Heq.
    apply (f_equal (fun o => match o with
                             | Returns d => EmotionData.primary_emotion d
                             | Raises _ => None
                             end)) in Heq.
    cbn [EmotionData.primary_emotion] in Heq.
    eexists. split; [symmetry; exact Heq|].
    apply Hkeys in Hin. simpl in Hin. simpl.
    repeat (destruct Hin as [Hin | Hin]; [auto 10|]). contradiction.
Qed.

(** X1. Whatever the message, the context, the state and the
    environment, the calls [generate] makes on its collaborators are one
    of five runs, in this order: the validation alone; the validation and
    the crisis check; or the validation, the crisis check, the classifier,
    the prompt builder, the generation client (its fallback alone, the
    service alone, or the service and then the fallback), the moderation,
    the sanitizer and the history update. *)
Theorem stages_run_in_order (env : Env) (user_message : str)
    (conversation_context : option (list Turn)) (w : World) :
  exists reply w' run,
    ResponseGenerator.generate env user_message conversation_context w
    = (Returns reply, w')
    /\ In run Spec.pipeline_runs
    /\ calls w' = calls w ++ run.
Proof.
  destruct (validate_user_input_returns user_message) as [v Hv].
  destruct (valid v) eqn:Hvalid.
  - destruct (is_crisis (SafetyFilter.check_crisis user_message)) eqn:Hc.
    + rewrite (generate_on_crisis env user_message conversation_context w v Hv Hvalid Hc).
      do 2 eexists. exists [CValidateUserInput; CCheckCrisis].
      split; [reflexivity|]. split; [right; now left|].
      cbn [calls]. now rewrite <- app_assoc.
    + destruct (generate_on_message env user_message conversation_context w v Hv Hvalid Hc)
        as [ed [e [p [raw [made [n [_ [_ [_ [Hmade [_ [_ Hg]]]]]]]]]]]].
      rewrite Hg. do 3 eexists. split; [reflexivity|]. cbn [calls].
      split; [|reflexivity]. right. right.
      apply (in_map (fun made =>
                       [CValidateUserInput; CCheckCrisis; CDetectEmotion; CBuildPrompt;
                        CGenerateResponse] ++ made
                       ++ [CFilterResponse; CSanitizeOutput; CUpdateHistory])).
      exact Hmade.
  - unfold ResponseGenerator.generate, invoke, bind, log, lift, ret.
    rewrite Hv, Hvalid. cbn [negb].
    do 2 eexists. exists [CValidateUserInput].
    split; [reflexivity|]. split; [now left | reflexivity].
Qed.

(** X2. A message the validation rejects gets the suggestion of the
    validation as its response, with the emotion neutral, confidence 1.0,
    is_safe True and validation_failed in the metadata. The validation is
    the only call made: neither the crisis check, the classifier nor the
    generation client runs, and the history, the random state and the
    handler are left as they were. *)
Theorem rejected_input_stops_the_pipeline (env : Env) (user_message : str)
    (conversation_context : option (list Turn)) (w : World) (validation : Validation) :
  SafetyFilter.validate_user_input user_message = Returns validation ->
  valid validation = false ->
  exists reply w',
    ResponseGenerator.generate env user_message conversation_context w
    = (Returns reply, w')
    /\ Reply.response reply = suggestion validation
    /\ (Reply.response reply = Some (py "Please share what's on your mind.")
        \/ Reply.response reply
           = Some (py "I'm having trouble understanding. Could you rephrase that?"))
    /\ Reply.emotion reply = py "neutral"
    /\ Reply.emotion_confidence reply = 1%Q
    /\ Reply.is_safe reply = true
    /\ Builtin.get (Reply.metadata reply) (py "validation_failed") = Some (VBool true)
    /\ calls w' = calls w ++ [CValidateUserInput]
    /\ draws w' = draws w
    /\ conversation_history w' = conversation_history w
    /\ llm w' = llm w.
Proof.
  intros Hv Hvalid.
  unfold ResponseGenerator.generate, invoke, bind, log, lift, ret.
  rewrite Hv, Hvalid. cbn [negb].
  do 2 eexists. split; [reflexivity|].
  cbn [calls draws conversation_history llm].
  destruct (rejected_suggestion user_message validation Hv Hvalid) as [-> | ->];
    repeat split; auto.
Qed.

Lemma rejected_input_stops_the_pipeline_witness :
  exists reply w',
    ResponseGenerator.generate offline (py " ?") None fresh = (Returns reply, w')
    /\ Reply.response reply
       = suggestion {| valid := false; reason := py "empty";
                       suggestion := Some (py "Please share what's on your mind.") |}
    /\ (Reply.response reply = Some (py "Please share what's on your mind.")
        \/ Reply.response reply
           = Some (py "I'm having trouble understanding. Could you rephrase that?"))
    /\ Reply.emotion reply = py "neutral"
    /\ Reply.emotion_confidence reply = 1%Q
    /\ Reply.is_safe reply = true
    /\ Builtin.get (Reply.metadata reply) (py "validation_failed") = Some (VBool true)
    /\ calls w' = calls fresh ++ [CValidateUserInput]
    /\ draws w' = draws fresh
    /\ conversation_history w' = conversation_history fresh
    /\ llm w' = llm fresh.
Proof.
  apply (rejected_input_stops_the_pipeline offline (py " ?") None fresh
           {| valid := false; reason := py "empty";
              suggestion := Some (py "Please share what's on your mind.") |}).
  - vm_compute; reflexivity.
  - reflexivity.
Defined.

(** X3. For a valid message that is no crisis, [generate] appends the
    user message and the response it returns, the sanitized text, to the
    history of the orchestrator, whatever context the caller passed, and
    keeps the twenty most recent turns. *)
Theorem generate_records_the_exchange (env : Env) (user_message : str)
    (conversation_context : option (list Turn)) (w : World) (validation : Validation) :
  SafetyFilter.validate_user_input user_message = Returns validation ->
  valid validation = true ->
  is_crisis (SafetyFilter.check_crisis user_message) = false ->
  exists reply w' final,
    ResponseGenerator.generate env user_message conversation_context w
    = (Returns reply, w')
    /\ Reply.response reply = Some final
    /\ conversation_history w'
       = Spec.most_recent 20
           (conversation_history w
            ++ [ {| role := py "user"; content := user_message |};
                 {| role := py "assistant"; content := final |} ])
    /\ length (conversation_history w') <= 20
    /\ llm w' = llm w.
Proof.
  intros Hv Hvalid Hc.
  destruct (generate_on_message env user_message conversation_context w validation
              Hv Hvalid Hc)
    as [ed [e [p [raw [made [n [_ [_ [_ [_ [_ [_ Hg]]]]]]]]]]]].
  rewrite Hg. do 3 eexists. split; [reflexivity|].
  cbn [conversation_history llm ResponseGenerator._create_response_object Reply.response].
  rewrite <- app_assoc. repeat split.
  unfold Spec.most_recent. rewrite length_skipn. lia.
Qed.

Lemma generate_records_the_exchange_witness :
  exists reply w' final,
    ResponseGenerator.generate offline (py "I feel sad today") None fresh
    = (Returns reply, w')
    /\ Reply.response reply = Some final
    /\ conversation_history w'
       = Spec.most_recent 20
           (conversation_history fresh
            ++ [ {| role := py "user"; content := py "I feel sad today" |};
                 {| role := py "assistant"; content := final |} ])
    /\ length (conversation_history w') <= 20
    /\ llm w' = llm fresh.
Proof.
  apply (generate_records_the_exchange offline (py "I feel sad today") None fresh
           {| valid := true; reason := py "ok"; suggestion := None |}).
  - vm_compute; reflexivity.
  - reflexivity.
  - vm_compute; reflexivity.
Defined.

(** X4. When the remote service answers in ASCII text, the response of
    every reply of [generate] is a text in which no URL starts: the
    sanitized text on the full path, and the fixed messages of the
    validation and of the crisis branch. *)
Theorem replies_hide_urls (env : Env) (user_message : str)
    (conversation_context : option (list Turn)) (w : World) :
  (forall prompt model text,
     text_generation env prompt model = Returns text ->
     Str.is_ascii text = true) ->
  exists reply w' text,
    ResponseGenerator.generate env user_message conversation_context w
    = (Returns reply, w')
    /\ Reply.response reply = Some text
    /\ Spec.url_free text.
Proof.
  intros _.
  destruct (validate_user_input_returns user_message) as [v Hv].
  destruct (valid v) eqn:Hvalid.
  - destruct (is_crisis (SafetyFilter.check_crisis user_message)) eqn:Hc.
    + rewrite (generate_on_crisis env user_message conversation_context w v Hv Hvalid Hc).
      do 3 eexists. split; [reflexivity|]. split; [reflexivity|].
      apply no_separator_url_free. vm_compute. reflexivity.
    + destruct (generate_on_message env user_message conversation_context w v Hv Hvalid Hc)
        as [ed [e [p [raw [made [n [_ [_ [_ [_ [_ [_ Hg]]]]]]]]]]]].
      rewrite Hg. do 3 eexists. split; [reflexivity|]. split; [reflexivity|].
      apply sanitize_output_url_free.
  - unfold ResponseGenerator.generate, invoke, bind, log, lift, ret.
    rewrite Hv, Hvalid. cbn [negb].
    destruct (rejected_suggestion user_message v Hv Hvalid) as [-> | ->];
      do 3 eexists; (split; [reflexivity|]); (split; [reflexivity|]);
      apply no_separator_url_free; vm_compute; reflexivity.
Qed.

Lemma replies_hide_urls_witness :
  exists reply w' text,
    ResponseGenerator.generate linking (py "hello there") None connected
    = (Returns reply, w')
    /\ Reply.response reply = Some text
    /\ Spec.url_free text.
Proof.
  apply (replies_hide_urls linking (py "hello there") None connected).
  intros prompt model text H. injection H as <-. reflexivity.
Defined.

(** X5. When a reply of [generate] has is_safe False, its response is
    the fixed safe alternative, and that text is the last turn of the
    history. *)
Theorem unsafe_reply_is_the_safe_alternative (env : Env) (user_message : str)
    (conversation_context : option (list Turn)) (w : World)
    (reply : Reply.t) (w' : World) :
  ResponseGenerator.generate env user_message conversation_context w
  = (Returns reply, w') ->
  Reply.is_safe reply = false ->
  Reply.response reply = Some SafetyFilter._get_safe_alternative
  /\ exists earlier,
       conversation_history w'
       = earlier ++ [ {| role := py "assistant";
                         content := SafetyFilter._get_safe_alternative |} ].
Proof.
  destruct (validate_user_input_returns user_message) as [v Hv].
  destruct (valid v) eqn:Hvalid.
  - destruct (is_crisis (SafetyFilter.check_crisis user_message)) eqn:Hc.
    + rewrite (generate_on_crisis env user_message conversation_context w v Hv Hvalid Hc).
      intros [= <- <-]. discriminate.
    + destruct (generate_on_message env user_message conversation_context w v Hv Hvalid Hc)
        as [ed [e [p [raw [made [n [_ [_ [_ [_ [_ [_ Hg]]]]]]]]]]]].
      rewrite Hg. intros [= <- <-].
      cbn [ResponseGenerator._create_response_object Reply.is_safe Reply.response
           conversation_history].
      unfold SafetyFilter.filter_response.
      destruct (_ || _); cbn [fst snd]; [intros _ | discriminate].
      assert (Hs : SafetyFilter.sanitize_output SafetyFilter._get_safe_alternative
                   = SafetyFilter._get_safe_alternative) by (vm_compute; reflexivity).
      rewrite Hs. split; [reflexivity|].
      unfold Spec.most_recent. rewrite skipn_app.
      eexists. f_equal.
      match goal with |- skipn ?k ?l = _ => replace k with 0 end.
      * reflexivity.
      * rewrite length_app, length_app. simpl. lia.
  - unfold ResponseGenerator.generate, invoke, bind, log, lift, ret.
    rewrite Hv, Hvalid. cbn [negb]. intros [= <- <-]. discriminate.
Qed.

Lemma unsafe_reply_is_the_safe_alternative_witness :
  exists reply w',
    ResponseGenerator.generate advising (py "I cannot sleep at night") None connected
    = (Returns reply, w')
    /\ Reply.is_safe reply = false
    /\ Reply.response reply = Some SafetyFilter._get_safe_alternative
    /\ exists earlier,
         conversation_history w'
         = earlier ++ [ {| role := py "assistant";
                           content := SafetyFilter._get_safe_alternative |} ].
Proof.
  do 2 eexists.
  assert (Hg : ResponseGenerator.generate advising (py "I cannot sleep at night")
                 None connected
               = (Returns _, _)) by (vm_compute; reflexivity).
  split; [exact Hg|]. split; [reflexivity|].
  apply (unsafe_reply_is_the_safe_alternative advising
           (py "I cannot sleep at night") None connected _ _ Hg).
  reflexivity.
Defined.

(** The prompt names health, or a topic declared before it. *)
Lemma prompt_addendum (user_message emotion : str) (history : list Turn)
    (prompt : str) :
  PromptBuilder.build_prompt user_message emotion history = Returns prompt ->
  exists addition,
    In addition (firstn 4 (map snd LLMHandler.context_additions))
    /\ Spec.addendum_for LLMHandler.context_additions prompt = Some addition.
Proof.
  intros Hp.
  assert (Hstart : exists rest, prompt = PromptBuilder.system_prompt ++ rest).
  { unfold PromptBuilder.build_prompt in Hp.
    destruct (PromptBuilder._get_emotion_context emotion) as [context|]; [|discriminate].
    cbn [obind] in Hp. destruct history; injection Hp as <-;
      cbn [app Str.join]; eexists; reflexivity. }
  destruct Hstart as [rest ->].
  assert (Hhealth : Spec.mentions (py "health|sick|pain|hurt")
                      (PromptBuilder.system_prompt ++ rest) = true).
  { unfold Spec.mentions, Str.any_in. rewrite lower_app.
    change (Str.split "|"%char (py "health|sick|pain|hurt"))
      with [py "health"; py "sick"; py "pain"; py "hurt"].
    cbn [existsb]. rewrite contains_prefix_app; [reflexivity|].
    vm_compute. reflexivity. }
  unfold LLMHandler.context_additions. cbn [Spec.addendum_for].
  rewrite Hhealth.
  repeat match goal with |- context [if ?b then _ else _] => destruct b end;
    eexists; (split; [|reflexivity]); cbn [map snd firstn]; auto 6 using in_eq, in_cons.
Qed.

Lemma filter_verdict (response user_message : str) :
  snd (SafetyFilter.filter_response response user_message)
  = negb (Str.any_in SafetyFilter.medical_keywords (Str.lower response)
          || Str.any_in SafetyFilter.prohibited_phrases (Str.lower response)).
Proof.
  unfold SafetyFilter.filter_response. now destruct (_ || _).
Qed.

(** X6. Without a usable remote service, the moderation discards the
    reply to a valid message that is no crisis exactly when the draw
    picks, in the pool of the emotion of the reply, the sentence of the
    neutral pool that says "you have", a prohibited phrase. No other
    sentence of the pools is discarded, with any addendum the prompt can
    bring. *)
Theorem offline_block_is_one_sentence (env : Env) (user_message : str)
    (conversation_context : option (list Turn)) (w : World) (validation : Validation) :
  SafetyFilter.validate_user_input user_message = Returns validation ->
  valid validation = true ->
  is_crisis (SafetyFilter.check_crisis user_message) = false ->
  LLMHandler.truthy (api_key (llm w)) && use_client (llm w) = false ->
  exists reply w',
    ResponseGenerator.generate env user_message conversation_context w
    = (Returns reply, w')
    /\ (Reply.is_safe reply = false <->
        Spec.drawn_base env (Reply.emotion reply) (draws w)
        = Some (py "I'm interested in what you have to share. What brings you here?")).
Proof.
  intros Hv Hvalid Hc Hoff.
  destruct (generate_on_message env user_message conversation_context w validation
              Hv Hvalid Hc)
    as [ed [e [p [raw [made [n [Hed [Hprimary [Hp [_ [_ [Hlocal Hg]]]]]]]]]]]].
  rewrite Hg. do 2 eexists. split; [reflexivity|].
  cbn [ResponseGenerator._create_response_object Reply.is_safe Reply.emotion].
  rewrite Hprimary, filter_verdict.
  destruct (Hlocal Hoff) as [_ [base [Hbase ->]]].
  rewrite add_context_addendum, Hbase.
  destruct (prompt_addendum _ _ _ _ Hp) as [addition [Hadd ->]].
  destruct (detect_emotion_label env user_message ed Hed) as [e' [He' Hlabel]].
  rewrite Hprimary in He'. injection He' as <-.
  unfold Spec.drawn_base in Hbase.
  destruct (Builtin.get LLMHandler.fallback_responses (py "neutral"))
    as [pool|] eqn:Hpool; [|discriminate].
  vm_compute in Hpool. injection Hpool as <-. cbv zeta in Hbase.
  set (r := random_source env (draws w)) in *.
  cbn [map snd firstn LLMHandler.context_additions] in Hadd.
  unfold Spec.labels in Hlabel.
  repeat (destruct Hlabel as [<- | Hlabel]);
    try contradiction;
    match type of Hbase with
    | context [Builtin.get_or ?d ?k ?v] =>
        let l := eval vm_compute in (Builtin.get_or d k v) in
        change (nth_error l (r mod 5) = Some base) in Hbase
    end;
    (assert (Hlt : r mod 5 < 5) by (apply Nat.mod_upper_bound; discriminate));
    (destruct (r mod 5) as [|[|[|[|[|k]]]]]; try lia);
    cbn [nth_error] in Hbase; injection Hbase as <-;
    repeat (destruct Hadd as [<- | Hadd]); try contradiction;
    (split;
     [ intros H; vm_compute in H; first [discriminate H | reflexivity]
     | intros H; first [discriminate H | vm_compute; reflexivity] ]).
Qed.

Lemma offline_block_is_one_sentence_witness :
  exists reply w',
    ResponseGenerator.generate offline (py "I feel sad today") None fresh
    = (Returns reply, w')
    /\ (Reply.is_safe reply = false <->
        Spec.drawn_base offline (Reply.emotion reply) (draws fresh)
        = Some (py "I'm interested in what you have to share. What brings you here?")).
Proof.
  apply (offline_block_is_one_sentence offline (py "I feel sad today") None fresh
           {| valid := true; reason := py "ok"; suggestion := None |}).
  - vm_compute; reflexivity.
  - reflexivity.
  - vm_compute; reflexivity.
  - reflexivity.
Defined.

(** X7. The emotion of every reply of [generate] is one of the seven
    labels, and its emoji and colour are the entries of the tables for
    that label: the defaults of [get_emotion_emoji] and
    [get_emotion_color] are never used. *)
Theorem reply_look_is_tabulated (env : Env) (user_message : str)
    (conversation_context : option (list Turn)) (w : World) :
  exists reply w',
    ResponseGenerator.generate env user_message conversation_context w
    = (Returns reply, w')
    /\ In (Reply.emotion reply) Spec.labels
    /\ Builtin.get EmotionDetector.emoji_map (Reply.emotion reply)
       = Some (Reply.emoji reply)
    /\ Builtin.get EmotionDetector.color_map (Reply.emotion reply)
       = Some (Reply.color reply).
Proof.
  destruct (validate_user_input_returns user_message) as [v Hv].
  destruct (valid v) eqn:Hvalid.
  - destruct (is_crisis (SafetyFilter.check_crisis user_message)) eqn:Hc.
    + rewrite (generate_on_crisis env user_message conversation_context w v Hv Hvalid Hc).
      do 2 eexists. split; [reflexivity|].
      split; [vm_compute; auto 10 | split; vm_compute; reflexivity].
    + destruct (generate_on_message env user_message conversation_context w v Hv Hvalid Hc)
        as [ed [e [p [raw [made [n [Hed [Hprimary [_ [_ [_ [_ Hg]]]]]]]]]]]].
      rewrite Hg. do 2 eexists. split; [reflexivity|].
      cbn [ResponseGenerator._create_response_object Reply.emotion Reply.emoji
           Reply.color].
      rewrite Hprimary.
      destruct (detect_emotion_label env user_message ed Hed) as [e' [He' Hlabel]].
      rewrite Hprimary in He'. injection He' as <-.
      split; [assumption|]. unfold Spec.labels in Hlabel.
      repeat (destruct Hlabel as [<- | Hlabel]); try contradiction;
        split; vm_compute; reflexivity.
  - unfold ResponseGenerator.generate, invoke, bind, log, lift, ret.
    rewrite Hv, Hvalid. cbn [negb].
    do 2 eexists. split; [reflexivity|].
    split; [vm_compute; auto 10 | split; vm_compute; reflexivity].
Qed.

(** X8. Without a key or without the client, [generate_response] does
    not call the remote service: it logs the fallback and one random
    draw, returns the sentence the draw picks with its addendum, and
    leaves the handler and the history as they were. *)
Theorem offline_generation_stays_local (env : Env) (prompt emotion : str) (w : World) :
  LLMHandler.truthy (api_key (llm w)) && use_client (llm w) = false ->
  exists reply,
    LLMHandler.generate_response env prompt emotion w
    = (Returns reply,
       {| llm := llm w;
          conversation_history := conversation_history w;
          draws := S (draws w);
          calls := calls w ++ [CGenerateResponse; CFallbackResponse; CRandomChoice] |})
    /\ Spec.drawn_reply env emotion prompt (draws w) reply.
Proof.
  intros Hoff.
  destruct (generate_response_shape env prompt emotion w)
    as [reply [made [n [Hg [[_ [-> [-> Hd]]] | [[_ [_ [Hk [Hu _]]]] | [Hon _]]]]]]].
  - exists reply. split; [exact Hg | exact Hd].
  - rewrite Hk, Hu in Hoff. discriminate.
  - congruence.
Qed.

Lemma offline_generation_stays_local_witness :
  exists reply,
    LLMHandler.generate_response failing (py "I am tired") (py "sad") fresh
    = (Returns reply,
       {| llm := llm fresh;
          conversation_history := conversation_history fresh;
          draws := S (draws fresh);
          calls := calls fresh
                   ++ [CGenerateResponse; CFallbackResponse; CRandomChoice] |})
    /\ Spec.drawn_reply failing (py "sad") (py "I am tired") (draws fresh) reply.
Proof.
  apply (offline_generation_stays_local failing (py "I am tired") (py "sad") fresh).
  reflexivity.
Defined.

(** ** More on safety_filter.py *)

(** A keyword found in a text cut by a character it does not contain is
    found on one side of the cut. *)
Lemma contains_across (keyword a b : str) (c : ascii) :
  ~ In c keyword ->
  Str.contains keyword (a ++ c :: b) = true ->
  Str.contains keyword a = true \/ Str.contains keyword b = true.
Proof.
  intros Hc. rewrite !contains_app. intros [x [y Heq]].
  apply app_eq_app in Heq as [l [[-> Heq] | [-> Heq]]].
  - apply app_eq_app in Heq as [l2 [[-> Heq] | [-> Heq]]].
    + destruct l2 as [|d l2].
      * left. exists x, []. now rewrite !app_nil_r.
      * injection Heq as <- _. elim Hc. apply in_or_app. right. now left.
    + left. now exists x, l2.
  - destruct l as [|d l].
    + cbn [app] in Heq. destruct keyword as [|d keyword].
      * left. exists a, []. now rewrite app_nil_r.
      * injection Heq as -> _. elim Hc. now left.
    + injection Heq as _ ->. right. now exists l, y.
Qed.

Lemma any_in_across (keywords : list str) (a b : str) (c : ascii) :
  forallb (fun k => negb (Str.mem c k)) keywords = true ->
  Str.any_in keywords (a ++ c :: b) = true ->
  Str.any_in keywords a = true \/ Str.any_in keywords b = true.
Proof.
  intros Hks. rewrite forallb_forall in Hks. unfold Str.any_in.
  rewrite !existsb_exists. intros [k [Hin Hk]].
  apply contains_across in Hk as [Hk | Hk]; [left | right | ]; eauto.
  specialize (Hks k Hin). apply negb_true_iff in Hks. unfold Str.mem in Hks.
  intros Hc. assert (existsb (Ascii.eqb c) k = true); [|congruence].
  apply existsb_exists. exists c. split; [assumption | apply Ascii.eqb_refl].
Qed.

Lemma any_in_prefix_app (keywords : list str) (a b : str) :
  Str.any_in keywords a = true -> Str.any_in keywords (a ++ b) = true.
Proof.
  unfold Str.any_in. rewrite !existsb_exists. intros [k [Hin Hk]].
  exists k. split; [assumption | now apply contains_prefix_app].
Qed.

(** X9. [filter_response] is idempotent: filtering its own output
    returns the same text and the same verdict. The disclaimer is
    appended at most once, and the safe alternative, which says
    diagnosis, is replaced by itself. *)
Theorem filter_response_is_idempotent (response user_message user_message' : str) :
  SafetyFilter.filter_response
    (fst (SafetyFilter.filter_response response user_message)) user_message'
  = SafetyFilter.filter_response response user_message.
Proof.
  unfold SafetyFilter.filter_response at 2 3.
  destruct (Str.any_in SafetyFilter.medical_keywords (Str.lower response)
            || Str.any_in SafetyFilter.prohibited_phrases (Str.lower response))
    eqn:Hflag.
  - cbn [fst]. vm_compute. reflexivity.
  - unfold SafetyFilter._is_mental_health_topic.
    destruct (Str.any_in SafetyFilter.mental_health_terms (Str.lower response))
      eqn:Htopic; cbn [fst].
    2:{ unfold SafetyFilter.filter_response, SafetyFilter._is_mental_health_topic.
        now rewrite Hflag, Htopic. }
    unfold SafetyFilter._add_disclaimer.
    destruct (Str.contains SafetyFilter.disclaimer response) eqn:Hd; cbn [negb].
    { unfold SafetyFilter.filter_response, SafetyFilter._is_mental_health_topic,
        SafetyFilter._add_disclaimer.
      now rewrite Hflag, Htopic, Hd. }
    unfold SafetyFilter.filter_response, SafetyFilter._is_mental_health_topic,
      SafetyFilter._add_disclaimer.
    rewrite lower_app.
    assert (Hclean :
      Str.any_in SafetyFilter.medical_keywords
        (Str.lower response ++ Str.lower SafetyFilter.disclaimer)
      || Str.any_in SafetyFilter.prohibited_phrases
           (Str.lower response ++ Str.lower SafetyFilter.disclaimer) = false).
    { apply orb_false_iff in Hflag as [Hm Hp].
      apply orb_false_iff. split.
      - destruct (Str.any_in SafetyFilter.medical_keywords
                    (Str.lower response ++ Str.lower SafetyFilter.disclaimer))
          eqn:E; [|reflexivity].
        change (Str.lower SafetyFilter.disclaimer)
          with ("010"%char :: tl (Str.lower SafetyFilter.disclaimer)) in E.
        apply any_in_across in E as [E | E]; [congruence | | vm_compute; reflexivity].
        vm_compute in E. discriminate E.
      - destruct (Str.any_in SafetyFilter.prohibited_phrases
                    (Str.lower response ++ Str.lower SafetyFilter.disclaimer))
          eqn:E; [|reflexivity].
        change (Str.lower SafetyFilter.disclaimer)
          with ("010"%char :: tl (Str.lower SafetyFilter.disclaimer)) in E.
        apply any_in_across in E as [E | E]; [congruence | | vm_compute; reflexivity].
        vm_compute in E. discriminate E. }
    rewrite Hclean, (any_in_prefix_app _ _ _ Htopic).
    assert (Hthere : Str.contains SafetyFilter.disclaimer
                       (response ++ SafetyFilter.disclaimer) = true).
    { apply contains_app. exists response, []. now rewrite app_nil_r. }
    now rewrite Hthere.
Qed.

(** X10. A crisis keyword is found whatever the case of the letters and
    whatever comes before and after: when [check_crisis] reports a crisis
    for a text, it reports it, with the severity high and the crisis
    message, for every text that contains that text up to case. *)
Theorem crisis_survives_context (text text' before after : str) :
  is_crisis (SafetyFilter.check_crisis text) = true ->
  Str.lower text' = Str.lower text ->
  SafetyFilter.check_crisis (before ++ text' ++ after)
  = {| is_crisis := true;
       severity := py "high";
       message := Some SafetyFilter._get_crisis_response |}.
Proof.
  unfold SafetyFilter.check_crisis. intros Hc Hl.
  destruct (Str.any_in SafetyFilter.crisis_keywords (Str.lower text)) eqn:E;
    [|discriminate Hc].
  rewrite !lower_app, Hl.
  assert (H : Str.any_in SafetyFilter.crisis_keywords
                (Str.lower before ++ Str.lower text ++ Str.lower after) = true);
    [|now rewrite H].
  unfold Str.any_in in *. rewrite existsb_exists in *.
  destruct E as [k [Hin Hk]]. exists k. split; [assumption|].
  apply contains_app in Hk as [x [y ->]]. apply contains_app.
  exists (Str.lower before ++ x), (y ++ Str.lower after).
  now rewrite <- !app_assoc.
Qed.

Lemma crisis_survives_context_witness :
  SafetyFilter.check_crisis
    (py "Honestly, " ++ py "I Want To DIE" ++ py " but thanks for asking.")
  = {| is_crisis := true;
       severity := py "high";
       message := Some SafetyFilter._get_crisis_response |}.
Proof.
  apply (crisis_survives_context (py "i want to die") (py "I Want To DIE")).
  - vm_compute; reflexivity.
  - vm_compute; reflexivity.
Defined.

(** ** More on the sanitizer *)

(** What the matcher reads is a word the pattern accepts. *)
Lemma run_accepts (r : Re.t) :
  forall prev s k x,
    Re.run r prev s k = Some x ->
    exists prev' w s', s = w ++ s' /\ Re.accepts r w /\ k prev' s' = Some x.
Proof.
  induction r as [|p|a IHa b IHb|a IHa b IHb|a IHa|]; intros prev s k x Hrun;
    cbn [Re.run] in Hrun.
  - exists prev, [], s. repeat split; [constructor | assumption].
  - destruct s as [|c s]; [discriminate|]. destruct (p c) eqn:Hp; [|discriminate].
    exists (Some c), [c], s. repeat split; [now constructor | assumption].
  - apply IHa in Hrun as [p1 [w1 [s1 [-> [H1 Hrun]]]]].
    apply IHb in Hrun as [p2 [w2 [s2 [-> [H2 Hk]]]]].
    exists p2, (w1 ++ w2), s2. rewrite app_assoc.
    repeat split; [now constructor | assumption].
  - destruct (Re.run a prev s k) eqn:Ea.
    + injection Hrun as <-. apply IHa in Ea as [p1 [w [s' [-> [H Hk]]]]].
      exists p1, w, s'. repeat split; [now apply Re.accepts_left | assumption].
    + apply IHb in Hrun as [p1 [w [s' [-> [H Hk]]]]].
      exists p1, w, s'. repeat split; [now apply Re.accepts_right | assumption].
  - revert Hrun. generalize (length s) at 1. intros fuel. revert prev s.
    induction fuel as [|fuel IH]; intros prev s Hrun.
    { exists prev, [], s. repeat split; [constructor | assumption]. }
    match type of Hrun with context [Re.run a prev s ?k'] =>
      destruct (Re.run a prev s k') eqn:Ea end.
    + injection Hrun as <-. apply IHa in Ea as [p1 [w1 [s1 [-> [H1 Hk]]]]].
      destruct (length s1 <? length (w1 ++ s1)); [|discriminate].
      apply IH in Hk as [p2 [w2 [s2 [-> [H2 Hk]]]]].
      exists p2, (w1 ++ w2), s2. rewrite app_assoc.
      repeat split; [now apply Re.accepts_more | assumption].
    + exists prev, [], s. repeat split; [constructor | assumption].
  - destruct (xorb (Re.word_before prev) (Re.word_after s)); [|discriminate].
    exists prev, [], s. repeat split; [constructor | assumption].
Qed.

Lemma needs_sound (p : ascii -> bool) (r : Re.t) (w : str) :
  Re.accepts r w -> Re.needs p r = true -> existsb p w = true.
Proof.
  induction 1 as [|q c Hq|a b w1 w2 _ IH1 _ IH2|a b w _ IH|a b w _ IH| | |];
    cbn [Re.needs]; try discriminate.
  - intros Hall. cbn [existsb]. rewrite orb_false_r.
    assert (H : implb (q c) (p c) = true).
    { apply (for_all_chars (fun c => implb (q c) (p c))).
      unfold Re.all_chars in Hall. rewrite forallb_forall in *.
      intros n Hn. apply Hall. now apply in_map. }
    now rewrite Hq in H.
  - rewrite existsb_app. intros H. apply orb_true_iff in H as [H | H];
      [rewrite (IH1 H) | rewrite (IH2 H)]; auto using orb_true_r.
  - intros H. apply andb_true_iff in H as [H _]. auto.
  - intros H. apply andb_true_iff in H as [_ H]. auto.
Qed.

(** A text without any character of a class the pattern needs is left
    as it is. *)
Lemma sub_without (p : ascii -> bool) (r : Re.t) (repl s : str) :
  Re.needs p r = true ->
  forallb (fun c => negb (p c)) s = true ->
  Re.sub r repl s = s.
Proof.
  intros Hneeds Hs. apply sub_from_unchanged. intros before after prev Heq.
  destruct (Re.match_at r prev after) as [x|] eqn:E; [exfalso | reflexivity].
  apply run_accepts in E as [prev' [w [s' [-> [Hw _]]]]].
  apply (needs_sound p) in Hw; [|assumption].
  apply existsb_exists in Hw as [c [Hin Hc]].
  rewrite forallb_forall in Hs. specialize (Hs c).
  rewrite Hc in Hs. discriminate Hs.
  subst s. apply in_or_app. right. apply in_or_app. now left.
Qed.

(** X11. [sanitize_output] returns an ASCII text without digit, colon
    and at sign as it is. *)
Theorem sanitize_output_leaves_prose (text : str) :
  Str.is_ascii text = true ->
  forallb Spec.plain text = true ->
  SafetyFilter.sanitize_output text = text.
Proof.
  intros _ Hplain. unfold SafetyFilter.sanitize_output.
  assert (Hcolon : forallb (fun c => negb (Ascii.eqb c ":"%char)) text = true).
  { rewrite forallb_forall in *. intros c Hc. specialize (Hplain c Hc).
    unfold Spec.plain in Hplain. destruct (Ascii.eqb c ":"); [|reflexivity].
    now rewrite orb_true_r in Hplain. }
  assert (Hat : forallb (fun c => negb (Ascii.eqb c "@"%char)) text = true).
  { rewrite forallb_forall in *. intros c Hc. specialize (Hplain c Hc).
    unfold Spec.plain in Hplain. destruct (Ascii.eqb c "@"); [|reflexivity].
    now rewrite orb_true_r in Hplain. }
  assert (Hdigit : forallb (fun c => negb (Str.is_digit c)) text = true).
  { rewrite forallb_forall in *. intros c Hc. specialize (Hplain c Hc).
    unfold Spec.plain in Hplain. now destruct (Str.is_digit c). }
  rewrite (sub_without (fun c => Ascii.eqb c ":"%char) SafetyFilter.url_pattern)
    by (assumption || (vm_compute; reflexivity)).
  rewrite (sub_without (fun c => Ascii.eqb c "@"%char) SafetyFilter.email_pattern)
    by (assumption || (vm_compute; reflexivity)).
  apply (sub_without Str.is_digit); [vm_compute; reflexivity | assumption].
Qed.

Lemma sanitize_output_leaves_prose_witness :
  SafetyFilter.sanitize_output (py "Take a slow breath. You are not alone!")
  = py "Take a slow breath. You are not alone!".
Proof.
  apply (sanitize_output_leaves_prose (py "Take a slow breath. You are not alone!"));
    vm_compute; reflexivity.
Defined.

Section NoMatchLeft.

Variables (r : Re.t) (repl : str).
Hypothesis r_simple : Re.simple r = true.
Hypothesis r_not_nullable : Re.nullable r = false.
Hypothesis repl_starts_no_match :
  forallb (fun c => negb (Re.first r c)) repl = true.
Hypothesis repl_head_outside :
  match repl with
  | b :: _ => negb (Re.alphabet r b)
  | [] => false
  end = true.

(** After the substitution, the pattern matches nowhere. *)
Lemma sub_from_leaves_no_match (fuel : nat) :
  forall prev s,
    length s < fuel ->
    forall before after prev',
      Re.sub_from fuel r repl prev s = before ++ after ->
      Re.match_at r prev' after = None.
Proof.
  induction fuel as [|fuel IH]; intros prev s Hfuel before after prev' Hout; [lia|].
  destruct (Re.match_at r prev s) as [[p1 rest]|] eqn:E.
  - rewrite (sub_from_match r repl r_simple r_not_nullable fuel _ _ _ _ E) in Hout.
    apply (match_at_shorter r r_simple r_not_nullable) in E. cbn [snd] in E.
    apply app_eq_app in Hout as [l [[Hrepl Hafter] | [-> Hrest]]].
    + destruct l as [|c l].
      * cbn [app] in Hafter. subst after.
        apply (IH p1 rest) with (before := []); [lia | reflexivity].
      * subst after. cbn [app].
        apply (no_match_at r r_simple r_not_nullable).
        rewrite forallb_forall in repl_starts_no_match.
        apply negb_true_iff, repl_starts_no_match.
        rewrite Hrepl. apply in_or_app. right. now left.
    + apply (IH p1 rest) with (before := l); [lia | assumption].
  - destruct s as [|c s].
    + cbn [Re.sub_from] in Hout. rewrite E in Hout.
      symmetry in Hout. apply app_eq_nil in Hout as [_ ->].
      apply (no_match_at_end r r_simple r_not_nullable).
    + rewrite (sub_from_no_match r repl fuel _ _ _ E) in Hout.
      destruct before as [|b before].
      * cbn [app] in Hout. subst after.
        destruct (Re.match_at r prev' (c :: Re.sub_from fuel r repl (Some c) s))
          as [x|] eqn:E'; [exfalso | reflexivity].
        apply (match_at_sound r r_simple r_not_nullable) in E' as [d [w [Heq Hl]]].
        destruct (sub_from_prefix r repl r_simple r_not_nullable repl_starts_no_match
                    repl_head_outside fuel (Some c) s)
          as [copied [unread [tail [-> [Hout Htail]]]]]; [simpl in Hfuel; lia|].
        rewrite Hout in Heq.
        destruct (prefix_within (Re.alphabet r) (d :: w) (c :: copied) tail (snd x))
          as [y Hy]; [exact Heq | now apply lang_alphabet | exact Htail |].
        change (c :: copied ++ unread) with ((c :: copied) ++ unread) in E.
        rewrite Hy, <- app_assoc in E.
        revert E. apply (run_complete r r_simple (d :: w) Hl). discriminate.
      * injection Hout as _ Hout.
        apply (IH (Some c) s) with (before := before); [simpl in Hfuel; lia | assumption].
Qed.

End NoMatchLeft.

(** Ten digits in a row are a phone number for the pattern. *)
Lemma ten_digits_match (digits : str) :
  length digits = 10 ->
  forallb Str.is_digit digits = true ->
  Re.lang SafetyFilter.phone_pattern digits.
Proof.
  intros Hlen Hd.
  do 10 (destruct digits as [|? digits]; [discriminate Hlen|]).
  destruct digits; [|discriminate Hlen].
  cbn [forallb] in Hd.
  repeat (apply andb_true_iff in Hd as [? Hd]).
  unfold SafetyFilter.phone_pattern, SafetyFilter.separator, SafetyFilter.digit,
    Re.Opt.
  cbn [Re.Rep Re.lang].
  exists [], [a; a0; a1; a2; a3; a4; a5; a6; a7; a8]. split; [reflexivity|].
  split; [now right|].
  exists [], [a; a0; a1; a2; a3; a4; a5; a6; a7; a8]. split; [reflexivity|].
  split; [now right|].
  exists [a; a0; a1], [a2; a3; a4; a5; a6; a7; a8]. split; [reflexivity|].
  split.
  { exists [a], [a0; a1]. repeat split; eauto.
    exists [a0], [a1]. repeat split; eauto.
    exists [a1], []. repeat split; eauto. }
  exists [], [a2; a3; a4; a5; a6; a7; a8]. split; [reflexivity|].
  split; [now right|].
  exists [], [a2; a3; a4; a5; a6; a7; a8]. split; [reflexivity|].
  split; [now right|].
  exists [a2; a3; a4], [a5; a6; a7; a8]. split; [reflexivity|].
  split.
  { exists [a2], [a3; a4]. repeat split; eauto.
    exists [a3], [a4]. repeat split; eauto.
    exists [a4], []. repeat split; eauto. }
  exists [], [a5; a6; a7; a8]. split; [reflexivity|].
  split; [now right|].
  exists [a5], [a6; a7; a8]. repeat split; eauto.
  exists [a6], [a7; a8]. repeat split; eauto.
  exists [a7], [a8]. repeat split; eauto.
  exists [a8], []. repeat split; eauto.
Qed.

(** X12. After [sanitize_output], the pattern of phone numbers matches
    nowhere in the text; in particular the text holds no ten digits in a
    row. *)
Theorem sanitize_output_hides_phone_numbers (text : str) :
  Spec.phone_free (SafetyFilter.sanitize_output text)
  /\ (forall before digits after,
        SafetyFilter.sanitize_output text = before ++ digits ++ after ->
        length digits = 10 ->
        forallb Str.is_digit digits = false).
Proof.
  assert (Hfree : Spec.phone_free (SafetyFilter.sanitize_output text)).
  { unfold Spec.phone_free, SafetyFilter.sanitize_output, Re.sub.
    intros before after prev Heq.
    eapply (sub_from_leaves_no_match SafetyFilter.phone_pattern
              SafetyFilter.phone_removed eq_refl eq_refl eq_refl eq_refl);
      [|exact Heq]. lia. }
  split; [exact Hfree|].
  intros before digits after Heq Hlen.
  destruct (forallb Str.is_digit digits) eqn:Hd; [exfalso | reflexivity].
  specialize (Hfree before (digits ++ after) None Heq).
  revert Hfree. unfold Re.match_at.
  apply (run_complete SafetyFilter.phone_pattern eq_refl digits
           (ten_digits_match digits Hlen Hd)).
  discriminate.
Qed.

(** ** The emptiness check *)

Lemma lstrip_spaces (p : ascii -> bool) (spaces s : str) :
  forallb p spaces = true -> Str.lstrip_by p (spaces ++ s) = Str.lstrip_by p s.
Proof.
  induction spaces as [|c spaces IH]; [reflexivity|]. cbn [forallb app Str.lstrip_by].
  intros H. apply andb_true_iff in H as [-> H]. now apply IH.
Qed.

Lemma rstrip_spaces (p : ascii -> bool) (s spaces : str) :
  forallb p spaces = true -> Str.rstrip_by p (s ++ spaces) = Str.rstrip_by p s.
Proof.
  intros H. unfold Str.rstrip_by. rewrite rev_app_distr, lstrip_spaces; [reflexivity|].
  rewrite forallb_forall in *. intros c Hc. apply H. now apply in_rev.
Qed.

(** X13. A message made of white space, or of one character between
    white space, is reported empty by [validate_user_input]. *)
Theorem blank_message_is_rejected (before body after : str) :
  forallb Str.is_space before = true ->
  forallb Str.is_space after = true ->
  length body <= 1 ->
  SafetyFilter.validate_user_input (before ++ body ++ after)
  = Returns {| valid := false;
               reason := py "empty";
               suggestion := Some (py "Please share what's on your mind.") |}.
Proof.
  intros Hb Ha Hlen.
  assert (Hstrip : length (Str.strip (before ++ body ++ after)) < 2).
  { unfold Str.strip. rewrite (lstrip_spaces _ _ _ Hb).
    destruct body as [|c [|d body]]; [| |simpl in Hlen; lia].
    - cbn [app]. rewrite <- (app_nil_r after), (lstrip_spaces _ _ _ Ha). simpl. lia.
    - cbn [app Str.lstrip_by]. destruct (Str.is_space c) eqn:Ec.
      + rewrite <- (app_nil_r after), (lstrip_spaces _ _ _ Ha). simpl. lia.
      + change (c :: after) with ([c] ++ after). rewrite (rstrip_spaces _ _ _ Ha).
        unfold Str.rstrip_by. cbn [rev app Str.lstrip_by]. rewrite Ec. simpl. lia. }
  unfold SafetyFilter.validate_user_input.
  apply Nat.ltb_lt in Hstrip. rewrite Hstrip. now rewrite orb_true_r.
Qed.

Lemma blank_message_is_rejected_witness :
  SafetyFilter.validate_user_input (py "   " ++ py "?" ++ py "  ")
  = Returns {| valid := false;
               reason := py "empty";
               suggestion := Some (py "Please share what's on your mind.") |}.
Proof.
  apply (blank_message_is_rejected (py "   ") (py "?") (py "  ")).
  - reflexivity.
  - reflexivity.
  - simpl. lia.
Defined.

(** ** More on emotion_detector.py *)

Section FirstMaximum.

Variable f : list str -> nat.

Lemma max_key_from_first (table : list (str * list str)) :
  forall best best_v,
    (Builtin.max_key_from best best_v (Spec.scores_of f table) = best
     /\ forall j e ks, nth_error table j = Some (e, ks) -> f ks <= best_v)
    \/ exists i e ks,
         nth_error table i = Some (e, ks)
         /\ Builtin.max_key_from best best_v (Spec.scores_of f table) = e
         /\ best_v < f ks
         /\ forall j e' ks',
              nth_error table j = Some (e', ks') ->
              f ks' <= f ks /\ (j < i -> f ks' < f ks).
Proof.
  induction table as [|[e ks] table IH]; intros best best_v.
  - left. split; [reflexivity|]. intros [|j] ? ? H; discriminate H.
  - unfold Spec.scores_of. cbn [flat_map]. fold (Spec.scores_of f table). cbv zeta.
    destruct (Nat.ltb_spec 0 (f ks)) as [Hpos | Hzero]; cbn [app].
    + cbn [Builtin.max_key_from].
      destruct (Nat.ltb_spec best_v (f ks)) as [Hlt | Hge].
      * destruct (IH e (f ks)) as [[Hm Hall] | [i [e1 [ks1 [Hi [Hm [Hgt Hall]]]]]]].
        -- right. exists 0, e, ks. repeat split; auto.
           ++ destruct j as [|j]; [injection H as _ <-; lia | eapply Hall; eassumption].
           ++ lia.
        -- right. exists (S i), e1, ks1. repeat split; auto; try lia.
           ++ destruct j as [|j]; [injection H as _ <-; lia|].
              eapply (proj1 (Hall _ _ _ H)).
           ++ intros Hj. destruct j as [|j]; [injection H as _ <-; lia|].
              apply (proj2 (Hall _ _ _ H)). lia.
      * destruct (IH best best_v) as [[Hm Hall] | [i [e1 [ks1 [Hi [Hm [Hgt Hall]]]]]]].
        -- left. split; [assumption|]. intros [|j] e' ks' H;
             [injection H as _ <-; lia | eapply Hall; eassumption].
        -- right. exists (S i), e1, ks1. repeat split; auto.
           ++ destruct j as [|j]; [injection H as _ <-; lia|].
              eapply (proj1 (Hall _ _ _ H)).
           ++ intros Hj. destruct j as [|j]; [injection H as _ <-; lia|].
              apply (proj2 (Hall _ _ _ H)). lia.
    + destruct (IH best best_v) as [[Hm Hall] | [i [e1 [ks1 [Hi [Hm [Hgt Hall]]]]]]].
      * left. split; [assumption|]. intros [|j] e' ks' H;
          [injection H as _ <-; lia | eapply Hall; eassumption].
      * right. exists (S i), e1, ks1. repeat split; auto.
        -- destruct j as [|j]; [injection H as _ <-; lia|].
           eapply (proj1 (Hall _ _ _ H)).
        -- intros Hj. destruct j as [|j]; [injection H as _ <-; lia|].
           apply (proj2 (Hall _ _ _ H)). lia.
Qed.

(** [max(emotion_scores, key=emotion_scores.get)] is the first category,
    in the order of the table, whose score is the greatest. *)
Lemma max_key_first (table : list (str * list str)) :
  Spec.scores_of f table = []
  /\ (forall j e ks, nth_error table j = Some (e, ks) -> f ks = 0)
  \/ exists i e ks,
       nth_error table i = Some (e, ks)
       /\ Builtin.max_key (Spec.scores_of f table) = Returns e
       /\ 0 < f ks
       /\ forall j e' ks',
            nth_error table j = Some (e', ks') ->
            f ks' <= f ks /\ (j < i -> f ks' < f ks).
Proof.
  induction table as [|[e ks] table IH].
  - left. split; [reflexivity|]. intros [|j] ? ? H; discriminate H.
  - unfold Spec.scores_of. cbn [flat_map]. fold (Spec.scores_of f table). cbv zeta.
    destruct (Nat.ltb_spec 0 (f ks)) as [Hpos | Hzero]; cbn [app].
    + right. cbn [Builtin.max_key].
      destruct (max_key_from_first table e (f ks))
        as [[Hm Hall] | [i [e1 [ks1 [Hi [Hm [Hgt Hall]]]]]]].
      * exists 0, e, ks. rewrite Hm. repeat split; auto.
        -- destruct j as [|j]; [injection H as _ <-; lia | eapply Hall; eassumption].
        -- lia.
      * exists (S i), e1, ks1. rewrite Hm. repeat split; auto; try lia.
        -- destruct j as [|j]; [injection H as _ <-; lia|].
           eapply (proj1 (Hall _ _ _ H)).
        -- intros Hj. destruct j as [|j]; [injection H as _ <-; lia|].
           apply (proj2 (Hall _ _ _ H)). lia.
    + destruct IH as [[Hnil Hall] | [i [e1 [ks1 [Hi [Hm [Hgt Hall]]]]]]].
      * left. split; [assumption|]. intros [|j] e' ks' H;
          [injection H as _ <-; lia | eapply Hall; eassumption].
      * right. exists (S i), e1, ks1. repeat split; auto.
        -- destruct j as [|j]; [injection H as _ <-; lia|].
           eapply (proj1 (Hall _ _ _ H)).
        -- intros Hj. destruct j as [|j]; [injection H as _ <-; lia|].
           apply (proj2 (Hall _ _ _ H)). lia.
Qed.

(** The score kept for a category, the names of the table being distinct. *)
Lemma scores_of_get (table : list (str * list str)) (i : nat) (e : str)
    (ks : list str) :
  NoDup (map fst table) ->
  nth_error table i = Some (e, ks) ->
  0 < f ks ->
  Builtin.get (Spec.scores_of f table) e = Some (f ks).
Proof.
  revert i. induction table as [|[e' ks'] table IH]; intros i Hnd Hi Hpos.
  - destruct i; discriminate Hi.
  - unfold Spec.scores_of. cbn [flat_map]. fold (Spec.scores_of f table). cbv zeta.
    cbn [map fst] in Hnd. inversion Hnd as [|? ? Hnotin Hnd']; subst.
    destruct i as [|i].
    + injection Hi as -> ->. apply Nat.ltb_lt in Hpos. rewrite Hpos.
      cbn [app Builtin.get]. now rewrite eqb_refl.
    + cbn [nth_error] in Hi.
      assert (Hne : Str.eqb e' e = false).
      { destruct (Str.eqb e' e) eqn:E; [|reflexivity].
        apply eqb_eq in E. subst e'. elim Hnotin.
        apply nth_error_In in Hi. now apply (in_map fst) in Hi. }
      destruct (0 <? f ks'); cbn [app Builtin.get]; rewrite ?Hne; eauto.
Qed.

End FirstMaximum.

Lemma count_in_le (keywords : list str) (text : str) :
  Str.count_in keywords text <= length keywords.
Proof. apply filter_length_le. Qed.

(** The confidence of the keyword branch: a quarter for each keyword
    found, up to four. *)
Lemma keyword_confidence (score : nat) :
  0 < score <= 16 ->
  (Float.round2
     (Float.min (Float.mul (Float.of_int (Z.of_nat score)) (Float.lit (1 # 4)))
        (Float.lit 1))
   == inject_Z (Z.min (Z.of_nat score) 4) / 4)%Q.
Proof.
  intros Hs.
  assert (Hall : forallb
            (fun n =>
               Qeq_bool
                 (Float.round2
                    (Float.min
                       (Float.mul (Float.of_int (Z.of_nat n)) (Float.lit (1 # 4)))
                       (Float.lit 1)))
                 (inject_Z (Z.min (Z.of_nat n) 4) / 4))
            (seq 1 16) = true) by (vm_compute; reflexivity).
  rewrite forallb_forall in Hall. apply Qeq_bool_iff, Hall, in_seq. lia.
Qed.

(** The result of [detect_emotion], by cases on whether a keyword of a
    category is found. *)
Lemma detect_emotion_shape (env : Env) (text : str) :
  exists polarity subjectivity intensity primary confidence,
    EmotionDetector.sentiment_scores env text = Returns (polarity, subjectivity)
    /\ EmotionDetector._calculate_intensity (Str.lower text) subjectivity
       = Returns intensity
    /\ EmotionDetector.detect_emotion env text
       = Returns
           {| EmotionData.primary_emotion := Some primary;
              EmotionData.confidence := Some (Float.round2 confidence);
              EmotionData.sentiment :=
                Some (if Float.gtb polarity (Float.lit (1 # 10)) then py "positive"
                      else if Float.ltb polarity (Float.lit (- (1 # 10)))
                           then py "negative"
                           else py "neutral");
              EmotionData.intensity := Some intensity;
              EmotionData.polarity := Some (Float.round2 polarity);
              EmotionData.subjectivity := Some (Float.round2 subjectivity) |}
    /\ (((forall j e ks,
            nth_error EmotionDetector.emotion_keywords j = Some (e, ks) ->
            Spec.score ks text = 0)
         /\ (primary, confidence) = Spec.by_polarity polarity)
        \/ exists i ks,
             nth_error EmotionDetector.emotion_keywords i = Some (primary, ks)
             /\ 0 < Spec.score ks text <= 16
             /\ (forall j e' ks',
                   nth_error EmotionDetector.emotion_keywords j = Some (e', ks') ->
                   Spec.score ks' text <= Spec.score ks text
                   /\ (j < i -> Spec.score ks' text < Spec.score ks text))
             /\ confidence
                = Float.min
                    (Float.mul (Float.of_int (Z.of_nat (Spec.score ks text)))
                       (Float.lit (1 # 4)))
                    (Float.lit 1)).
Proof.
  unfold EmotionDetector.detect_emotion.
  destruct (sentiment_scores_returns env text) as [p [s Hs]]. rewrite Hs.
  cbn [obind].
  destruct (calculate_intensity_returns (Str.lower text) s) as [intensity Hi].
  pose proof (max_key_first (fun ks => Str.count_in ks (Str.lower text))
                EmotionDetector.emotion_keywords) as Hfirst.
  pose proof (scores_of_get (fun ks => Str.count_in ks (Str.lower text))
                EmotionDetector.emotion_keywords) as Hget.
  unfold Spec.scores_of in Hfirst, Hget. unfold Spec.score, Spec.by_polarity.
  exists p, s, intensity.
  destruct Hfirst as [[Hnil Hall] | [i [e [ks [Hnth [Hmax [Hpos Hall]]]]]]].
  - rewrite Hnil.
    destruct (Float.gtb p (Float.lit (3 # 10)));
      [|destruct (Float.ltb p (Float.lit (- (3 # 10))))];
      cbn [obind]; rewrite Hi; cbn [obind];
      do 2 eexists; (split; [reflexivity|]); (split; [reflexivity|]);
      (split; [reflexivity|]);
      left; (split; [exact Hall | reflexivity]).
  - specialize (Hget i e ks).
    match type of Hmax with Builtin.max_key ?sc = _ =>
      destruct sc as [|[k v] d] eqn:Escores end.
    { discriminate Hmax. }
    rewrite Hmax. cbn [obind]. unfold Builtin.subscript.
    rewrite Hget; [| | assumption | assumption].
    2:{ assert (E : nodup (list_eq_dec ascii_dec)
                      (map fst EmotionDetector.emotion_keywords)
                    = map fst EmotionDetector.emotion_keywords)
          by (vm_compute; reflexivity).
        rewrite <- E. apply NoDup_nodup. }
    cbn [obind]. rewrite Hi. cbn [obind].
    do 2 eexists. split; [reflexivity|]. split; [reflexivity|]. split; [reflexivity|].
    right. exists i, ks.
    split; [assumption|]. split; [|split; [exact Hall | reflexivity]].
    split; [assumption|].
    apply Nat.le_trans with (length ks); [apply count_in_le|].
    apply nth_error_In in Hnth.
    assert (Hlen : forallb (fun entry => length (snd entry) <=? 16)
                     EmotionDetector.emotion_keywords = true)
      by (vm_compute; reflexivity).
    rewrite forallb_forall in Hlen. apply Hlen in Hnth. now apply Nat.leb_le in Hnth.
Qed.

(** X14. [detect_emotion] always returns, with a primary emotion. When
    no keyword of any category is in the text, the primary emotion is
    happy, sad or neutral. Otherwise it is the first category, in the
    order of the table, whose score (the number of its keywords in the
    text, whatever the case) is the greatest: no category has a greater
    score, every category declared before it has a smaller one, and the
    confidence is a quarter of that score, capped at 1. *)
Theorem primary_emotion_is_first_maximum (env : Env) (text : str) :
  exists emotion_data primary,
    EmotionDetector.detect_emotion env text = Returns emotion_data
    /\ EmotionData.primary_emotion emotion_data = Some primary
    /\ (((forall j e ks,
            nth_error EmotionDetector.emotion_keywords j = Some (e, ks) ->
            Spec.score ks text = 0)
         /\ In primary [py "happy"; py "sad"; py "neutral"])
        \/ exists i ks confidence,
             nth_error EmotionDetector.emotion_keywords i = Some (primary, ks)
             /\ 0 < Spec.score ks text
             /\ (forall j e' ks',
                   nth_error EmotionDetector.emotion_keywords j = Some (e', ks') ->
                   Spec.score ks' text <= Spec.score ks text
                   /\ (j < i -> Spec.score ks' text < Spec.score ks text))
             /\ EmotionData.confidence emotion_data = Some confidence
             /\ (confidence
                 == inject_Z (Z.min (Z.of_nat (Spec.score ks text)) 4) / 4)%Q).
Proof.
  destruct (detect_emotion_shape env text)
    as [p [s [intensity [primary [confidence [_ [_ [Hd Hcase]]]]]]]].
  rewrite Hd. do 2 eexists. split; [reflexivity|]. split; [reflexivity|].
  destruct Hcase as [[Hnone Hby] | [i [ks [Hnth [Hscore [Hall ->]]]]]].
  - left. split; [exact Hnone|]. unfold Spec.by_polarity in Hby.
    destruct (Float.gtb p (Float.lit (3 # 10)));
      [|destruct (Float.ltb p (Float.lit (- (3 # 10))))];
      injection Hby as -> _; simpl; auto.
  - right. exists i, ks. eexists.
    split; [assumption|]. split; [lia|]. split; [exact Hall|].
    split; [reflexivity|]. now apply keyword_confidence.
Qed.

(** X15. Without TextBlob, [detect_emotion] returns the same result for
    two texts that differ only in the case of their letters: capitals
    change neither the emotion nor the intensity. *)
Theorem offline_detection_ignores_case (env : Env) (text text' : str) :
  HAS_TEXTBLOB env = false ->
  Str.lower text = Str.lower text' ->
  EmotionDetector.detect_emotion env text
  = EmotionDetector.detect_emotion env text'.
Proof.
  intros Hoff Hl.
  unfold EmotionDetector.detect_emotion, EmotionDetector.sentiment_scores.
  rewrite Hoff, Hl. reflexivity.
Qed.

Lemma offline_detection_ignores_case_witness :
  EmotionDetector.detect_emotion offline (py "I AM SO ANGRY!!")
  = EmotionDetector.detect_emotion offline (py "i am so angry!!").
Proof.
  apply (offline_detection_ignores_case offline (py "I AM SO ANGRY!!")
           (py "i am so angry!!")).
  - reflexivity.
  - vm_compute; reflexivity.
Defined.

Lemma count_in_app (a b : list str) (text : str) :
  Str.count_in (a ++ b) text = Str.count_in a text + Str.count_in b text.
Proof. unfold Str.count_in. now rewrite filter_app, length_app. Qed.

Lemma count_in_incl (a b : list str) (text : str) :
  NoDup a -> incl a b -> Str.count_in a text <= Str.count_in b text.
Proof.
  intros Hnd Hincl. unfold Str.count_in. apply NoDup_incl_length.
  - now apply NoDup_filter.
  - intros k Hk. apply filter_In in Hk as [Hk Hc]. apply filter_In. auto.
Qed.

Lemma count_in_any (keywords : list str) (text : str) :
  0 < Str.count_in keywords text -> Str.any_in keywords text = true.
Proof.
  unfold Str.count_in, Str.any_in. intros H. apply existsb_exists.
  destruct (filter (fun k => Str.contains k text) keywords) as [|k l] eqn:E;
    [simpl in H; lia|].
  assert (Hk : In k (filter (fun k => Str.contains k text) keywords))
    by (rewrite E; now left).
  apply filter_In in Hk. now exists k.
Qed.

(** X16. [detect_emotion] reports fearful only for a text that contains
    frightened, horror, phobia or nightmare: the other keywords of that
    category are keywords of anxious too, which is declared before it
    and wins the ties. *)
Theorem fearful_needs_its_own_keyword (env : Env) (text : str)
    (emotion_data : EmotionData.t) :
  EmotionDetector.detect_emotion env text = Returns emotion_data ->
  EmotionData.primary_emotion emotion_data = Some (py "fearful") ->
  Str.any_in [py "frightened"; py "horror"; py "phobia"; py "nightmare"]
    (Str.lower text) = true.
Proof.
  unfold EmotionDetector.detect_emotion.
  destruct (EmotionDetector.sentiment_scores env text) as [[p s]|]; [|discriminate].
  cbn [obind].
  pose proof (max_key_first (fun ks => Str.count_in ks (Str.lower text))
                EmotionDetector.emotion_keywords) as Hfirst.
  unfold Spec.scores_of in Hfirst.
  destruct Hfirst as [[Hnil Hall] | [i [e [ks [Hnth [Hmax [Hpos Hall]]]]]]].
  - rewrite Hnil.
    repeat match goal with |- context [if ?b then _ else _] => destruct b end;
      cbn [obind];
      (destruct (EmotionDetector._calculate_intensity (Str.lower text) s);
       [|discriminate]); intros Heq H;
      apply (f_equal (fun o => match o with
                               | Returns d => EmotionData.primary_emotion d
                               | Raises _ => None
                               end)) in Heq;
      cbn [obind EmotionData.primary_emotion] in Heq; rewrite H in Heq;
      vm_compute in Heq; discriminate Heq.
  - match type of Hmax with Builtin.max_key ?sc = _ =>
      destruct sc as [|[k v] d] eqn:Escores end.
    { discriminate Hmax. }
    rewrite Hmax. cbn [obind].
    destruct (Builtin.subscript _ _); [|discriminate]. cbn [obind].
    destruct (EmotionDetector._calculate_intensity (Str.lower text) s);
      [|discriminate].
    intros Heq H.
    apply (f_equal (fun o => match o with
                             | Returns d => EmotionData.primary_emotion d
                             | Raises _ => None
                             end)) in Heq.
    cbn [obind EmotionData.primary_emotion] in Heq. rewrite H in Heq.
    assert (He : e = py "fearful") by congruence. subst e. clear Heq H.
    destruct (Hall 1 (py "anxious")
                [ py "anxious"; py "worried"; py "nervous"; py "stress"; py "panic";
                  py "fear"; py "scared"; py "overwhelmed"; py "tense";
                  py "restless"; py "uneasy"; py "terrified"; py "afraid";
                  py "concern"; py "dread" ] eq_refl) as [_ Hlt].
    assert (Hi : i = 4).
    { do 6 (destruct i as [|i];
            [cbn [nth_error EmotionDetector.emotion_keywords] in Hnth;
             injection Hnth as He;
             first [reflexivity | vm_compute in He; discriminate He]|]).
      destruct i; discriminate Hnth. }
    subst i. specialize (Hlt ltac:(lia)).
    assert (Hks : ks = [ py "fear"; py "scared"; py "afraid"; py "terrified" ]
                       ++ [ py "frightened"; py "horror" ]
                       ++ [ py "panic"; py "dread" ]
                       ++ [ py "phobia"; py "nightmare" ])
      by (vm_compute in Hnth; injection Hnth as <-; reflexivity).
    subst ks.
    set (t := Str.lower text) in *.
    rewrite !count_in_app in Hlt.
    assert (Hshared :
      Str.count_in ([ py "fear"; py "scared"; py "afraid"; py "terrified" ]
                    ++ [ py "panic"; py "dread" ]) t
      <= Str.count_in
           [ py "anxious"; py "worried"; py "nervous"; py "stress"; py "panic";
             py "fear"; py "scared"; py "overwhelmed"; py "tense";
             py "restless"; py "uneasy"; py "terrified"; py "afraid";
             py "concern"; py "dread" ] t).
    { apply count_in_incl.
      - assert (E : nodup (list_eq_dec ascii_dec)
                      ([ py "fear"; py "scared"; py "afraid"; py "terrified" ]
                       ++ [ py "panic"; py "dread" ])
                    = [ py "fear"; py "scared"; py "afraid"; py "terrified" ]
                      ++ [ py "panic"; py "dread" ])
          by (vm_compute; reflexivity).
        rewrite <- E. apply NoDup_nodup.
      - intros k0 Hk. simpl in Hk. simpl.
        repeat (destruct Hk as [<- | Hk]; [auto 20|]). contradiction. }
    rewrite count_in_app in Hshared.
    apply count_in_any.
    change [ py "frightened"; py "horror"; py "phobia"; py "nightmare" ]
      with ([ py "frightened"; py "horror" ] ++ [ py "phobia"; py "nightmare" ]).
    rewrite count_in_app. lia.
Qed.

Lemma fearful_needs_its_own_keyword_witness :
  Str.any_in [py "frightened"; py "horror"; py "phobia"; py "nightmare"]
    (Str.lower (py "I had a nightmare and I am scared")) = true.
Proof.
  assert (Hd : EmotionDetector.detect_emotion offline
                 (py "I had a nightmare and I am scared")
               = Returns _) by (vm_compute; reflexivity).
  apply (fearful_needs_its_own_keyword offline
           (py "I had a nightmare and I am scared") _ Hd).
  reflexivity.
Defined.

(** ** Exact float operations *)

Section FloatExact.

Local Open Scope Q_scope.

Lemma round_half_even_proper (a b : Q) :
a == b -> Float.round_half_even a = Float.round_half_even b.
Proof.
intros E. unfold Float.round_half_even.
rewrite (Qfloor_comp a b E).
assert (H : a - inject_Z (Qfloor b) == b - inject_Z (Qfloor b)) by now rewrite E.
now rewrite (Qcompare_comp _ _ H _ _ (Qeq_refl (1 # 2))).
Qed.

Lemma floor_log2_proper (a b : Q) :
a == b -> Float.floor_log2 a = Float.floor_log2 b.
Proof.
intros E. unfold Float.floor_log2.
rewrite (Qleb_comp 1 1 (Qeq_refl 1) a b E), (Qfloor_comp a b E).
assert (H : / a == / b) by now rewrite E.
now rewrite (Qceiling_comp _ _ H).
Qed.

Lemma round_pos_proper (a b : Q) : a == b -> Float.round_pos a = Float.round_pos b.
Proof.
intros E. unfold Float.round_pos, Float.ulp.
rewrite (floor_log2_proper a b E).
set (u := 2 ^ (Z.max (Float.floor_log2 b) (-1022) - 52)).
assert (H : a / u == b / u) by now rewrite E.
now rewrite (round_half_even_proper _ _ H).
Qed.

Lemma fl_proper (a b : Q) : a == b -> Float.fl a = Float.fl b.
Proof.
intros E. unfold Float.fl.
rewrite (Qcompare_comp a b E 0 0 (Qeq_refl 0)).
assert (H : - a == - b) by now rewrite E.
now rewrite (round_pos_proper a b E), (round_pos_proper _ _ H).
Qed.

Lemma floor_log2_lt (x : Q) : 1 <= x -> x < 2 ^ (Float.floor_log2 x + 1).
Proof.
intros Hx. unfold Float.floor_log2.
apply Qle_bool_iff in Hx as Hb. rewrite Hb.
assert (Hf : (1 <= Qfloor x)%Z).
{ rewrite <- (Qfloor_Z 1). now apply Qfloor_resp_le. }
apply Qlt_le_trans with (inject_Z (Qfloor x + 1)); [apply Qlt_floor|].
rewrite <- (Zpower_Qpower 2) by (pose proof (Z.log2_nonneg (Qfloor x)); lia).
rewrite <- Zle_Qle.
destruct (Z.log2_spec (Qfloor x)) as [_ Hlt]; [lia|].
change (Z.succ (Z.log2 (Qfloor x))) with (Z.log2 (Qfloor x) + 1)%Z in Hlt. lia.
Qed.

Lemma round_half_even_integer (y : Q) (k : Z) :
y == inject_Z k -> Float.round_half_even y = k.
Proof.
intros E. rewrite (round_half_even_proper _ _ E).
unfold Float.round_half_even. rewrite Qfloor_Z.
assert (H : inject_Z k - inject_Z k == 0) by ring.
now rewrite (Qcompare_comp _ _ H _ _ (Qeq_refl (1 # 2))).
Qed.

Lemma inverse_unique (a b : Q) : a * b == 1 -> / a == b.
Proof.
intros H.
assert (Ha : ~ a == 0).
{ intros E. rewrite E in H. revert H. rewrite Qmult_0_l. discriminate. }
transitivity (/ a * (a * b)); [rewrite H; ring | field; assumption].
Qed.

(** A half of an integer of 53 bits is a float. *)
Lemma round_pos_half (m : Z) :
(2 <= m < 2 ^ 53)%Z ->
Float.round_pos (inject_Z m / 2) == inject_Z m / 2.
Proof.
intros Hm. set (x := inject_Z m / 2).
assert (Hx1 : 1 <= x).
{ unfold x. apply Qle_shift_div_l; [reflexivity|].
  change (1 * 2) with (inject_Z 2). rewrite <- Zle_Qle. lia. }
assert (Hx52 : x < inject_Z (2 ^ 52)).
{ unfold x. apply Qlt_shift_div_r; [reflexivity|].
  change (inject_Z (2 ^ 52) * 2) with (inject_Z (2 ^ 52) * inject_Z 2).
  rewrite <- inject_Z_mult, <- Zlt_Qlt.
  change (2 ^ 52 * 2)%Z with (2 ^ 53)%Z. lia. }
destruct (floor_log2_le x Hx1) as [He Hlow].
set (e := Float.floor_log2 x) in *.
assert (He51 : (e <= 51)%Z).
{ rewrite <- (Zpower_Qpower 2) in Hlow by assumption.
  assert (H : inject_Z (2 ^ e) < inject_Z (2 ^ 52)) by (eapply Qle_lt_trans; eassumption).
  rewrite <- Zlt_Qlt in H. apply Z.pow_lt_mono_r_iff in H; lia. }
unfold Float.round_pos, Float.ulp. fold e. rewrite Z.max_l by lia.
rewrite Qred_correct.
set (u := 2 ^ (e - 52)).
assert (Hu : u * (2 * inject_Z (2 ^ (51 - e))) == 1).
{ unfold u. rewrite (Zpower_Qpower 2) by lia.
  change 2 with (2 ^ 1) at 2. rewrite <- !Qpower_plus by discriminate.
  replace (e - 52 + (1 + (51 - e)))%Z with 0%Z by lia. reflexivity. }
assert (Hdiv : x / u == inject_Z (m * 2 ^ (51 - e))).
{ unfold Qdiv. rewrite (inverse_unique _ _ Hu). unfold x.
  rewrite inject_Z_mult. field. }
rewrite (round_half_even_integer _ _ Hdiv). rewrite inject_Z_mult.
unfold x.
transitivity (inject_Z m / 2 * (u * (2 * inject_Z (2 ^ (51 - e))))); [field | rewrite Hu; ring].
Qed.

Lemma fl_half (x : Q) (m : Z) :
x == inject_Z m / 2 -> (Z.abs m < 2 ^ 53)%Z -> Float.fl x == inject_Z m / 2.
Proof.
intros E Hm. rewrite (fl_proper _ _ E).
destruct (Z.eq_dec m 0) as [-> | H0]; [reflexivity|].
destruct (Z.eq_dec m 1) as [-> | H1]; [vm_compute; reflexivity|].
destruct (Z.eq_dec m (-1)) as [-> | H2]; [vm_compute; reflexivity|].
unfold Float.fl.
destruct (Qcompare_spec (inject_Z m / 2) 0) as [Hz | Hneg | Hpos].
- exfalso. apply H0. unfold Qeq, Qdiv, Qmult, Qinv in Hz. simpl in Hz. lia.
- assert (Hm' : (m < 0)%Z).
  { unfold Qlt, Qdiv, Qmult, Qinv in Hneg. simpl in Hneg. lia. }
  assert (Hopp : - (inject_Z m / 2) == inject_Z (- m) / 2)
    by (rewrite inject_Z_opp; field).
  rewrite (round_pos_proper _ _ Hopp), round_pos_half by lia.
  rewrite inject_Z_opp. field.
- assert (Hm' : (0 < m)%Z).
  { unfold Qlt, Qdiv, Qmult, Qinv in Hpos. simpl in Hpos. lia. }
  apply round_pos_half. lia.
Qed.

Lemma of_int_half (n : Z) :
(Z.abs n < 2 ^ 52)%Z -> Float.of_int n == inject_Z (2 * n) / 2.
Proof.
intros Hn. unfold Float.of_int. apply fl_half; [|lia].
rewrite inject_Z_mult. change (inject_Z 2) with 2. field.
Qed.

Lemma add_half (a b : Q) (ma mb : Z) :
a == inject_Z ma / 2 -> b == inject_Z mb / 2 -> (Z.abs (ma + mb) < 2 ^ 53)%Z ->
Float.add a b == inject_Z (ma + mb) / 2.
Proof.
intros Ha Hb Hm. unfold Float.add. apply fl_half; [|assumption].
rewrite Ha, Hb, inject_Z_plus. field.
Qed.

Lemma sub_half (a b : Q) (ma mb : Z) :
a == inject_Z ma / 2 -> b == inject_Z mb / 2 -> (Z.abs (ma - mb) < 2 ^ 53)%Z ->
Float.sub a b == inject_Z (ma - mb) / 2.
Proof.
intros Ha Hb Hm. unfold Float.sub. apply fl_half; [|assumption].
rewrite Ha, Hb. unfold Zminus. rewrite inject_Z_plus, inject_Z_opp. field.
Qed.

Lemma mul_three_halves (a : Q) (n : Z) :
a == inject_Z (2 * n) / 2 -> (Z.abs (3 * n) < 2 ^ 53)%Z ->
Float.mul a (Float.lit (3 # 2)) == inject_Z (3 * n) / 2.
Proof.
intros Ha Hn. unfold Float.mul. apply fl_half; [|assumption].
assert (Hlit : Float.lit (3 # 2) == 3 # 2) by (vm_compute; reflexivity).
rewrite Ha, Hlit, !inject_Z_mult.
change (inject_Z 2) with 2. change (inject_Z 3) with 3. field.
Qed.

Lemma mul_zero (a b : Q) : a == 0 -> Float.mul a b == inject_Z 0 / 2.
Proof.
intros Ha. unfold Float.mul. apply fl_half; [|reflexivity].
rewrite Ha. change (inject_Z 0) with 0. field.
Qed.

End FloatExact.


Lemma count_lower_mark (s : str) :
  Str.count "!"%char (Str.lower s) = Str.count "!"%char s.
Proof.
  unfold Str.count, Str.lower. induction s as [|c s IH]; [reflexivity|].
  cbn [map count_occ]. rewrite IH.
  assert (H : Bool.eqb (Ascii.eqb (Str.lower_char c) "!") (Ascii.eqb c "!") = true).
  { revert c. apply for_all_chars. vm_compute. reflexivity. }
  apply eqb_prop in H.
  destruct (ascii_dec (Str.lower_char c) "!") as [E | E];
    destruct (ascii_dec c "!") as [E' | E']; try reflexivity; exfalso.
  - apply Ascii.eqb_eq in E. rewrite E in H. symmetry in H.
    now apply Ascii.eqb_eq in H.
  - apply Ascii.eqb_eq in E'. rewrite E' in H. now apply Ascii.eqb_eq in H.
Qed.

(** The intensity of a text without capitals and of subjectivity 0.0:
    every operation of the score is exact. *)
Lemma calculate_intensity_offline (text : str) :
  filter Str.is_upper text = [] ->
  (Z.of_nat (length text) < 2 ^ 49)%Z ->
  EmotionDetector._calculate_intensity text (Float.lit 0)
  = Returns
      (let doubled :=
         (4 * Z.of_nat (Str.count_in
                          (Builtin.get_or EmotionDetector.intensity_words
                             (py "high") []) text)
          + 3 * Z.of_nat (Str.count "!"%char text)
          - 4 * Z.of_nat (Str.count_in
                            (Builtin.get_or EmotionDetector.intensity_words
                               (py "low") []) text))%Z in
       if (10 <? doubled)%Z then py "high"
       else if (4 <? doubled)%Z then py "medium"
       else py "low").
Proof.
  intros Hupper Hlen. unfold EmotionDetector._calculate_intensity.
  assert (Hh : Builtin.subscript EmotionDetector.intensity_words (py "high")
               = Returns (Builtin.get_or EmotionDetector.intensity_words
                            (py "high") []))
    by (vm_compute; reflexivity).
  assert (Hl : Builtin.subscript EmotionDetector.intensity_words (py "low")
               = Returns (Builtin.get_or EmotionDetector.intensity_words
                            (py "low") []))
    by (vm_compute; reflexivity).
  rewrite Hh, Hl, Hupper. cbn [obind length].
  pose proof (count_in_le (Builtin.get_or EmotionDetector.intensity_words
                             (py "high") []) text) as Hhigh.
  pose proof (count_in_le (Builtin.get_or EmotionDetector.intensity_words
                             (py "low") []) text) as Hlow.
  change (length (Builtin.get_or EmotionDetector.intensity_words (py "high") []))
    with 6 in Hhigh.
  change (length (Builtin.get_or EmotionDetector.intensity_words (py "low") []))
    with 5 in Hlow.
  assert (Hmarks : Str.count "!"%char text <= length text)
    by (unfold Str.count; apply count_occ_bound).
  set (h := Str.count_in _ text) in *. clearbody h.
  set (l := Str.count_in _ text) in *. clearbody l.
  set (e := Str.count "!"%char text) in *. clearbody e.
  unfold Builtin.truediv.
  destruct (Z.eqb_spec (Z.max (Z.of_nat (length text)) 1) 0) as [E | _]; [lia|].
  cbn [obind].
  assert (Hcaps : (Float.fl (inject_Z (Z.of_nat 0)
                             / inject_Z (Z.max (Z.of_nat (length text)) 1)) == 0)%Q).
  { assert (H := fl_half (inject_Z (Z.of_nat 0)
                          / inject_Z (Z.max (Z.of_nat (length text)) 1)) 0).
    rewrite H; [reflexivity | | reflexivity].
    unfold Qdiv. change (inject_Z (Z.of_nat 0)) with 0%Q.
    now rewrite !Qmult_0_l. }
  assert (Hpow : (2 ^ 49 = 562949953421312)%Z) by reflexivity.
  assert (Hpow52 : (2 ^ 52 = 4503599627370496)%Z) by reflexivity.
  assert (Hpow53 : (2 ^ 53 = 9007199254740992)%Z) by reflexivity.
  pose proof (of_int_half (Z.of_nat h * 2) ltac:(lia)) as E1.
  pose proof (of_int_half (Z.of_nat e) ltac:(lia)) as E2.
  pose proof (mul_three_halves _ _ E2 ltac:(lia)) as E3.
  pose proof (add_half _ _ _ _ E1 E3 ltac:(lia)) as E4.
  pose proof (mul_zero _ (Float.of_int 10) Hcaps) as E5.
  pose proof (add_half _ _ _ _ E4 E5 ltac:(lia)) as E6.
  assert (Hzero : (Float.lit 0 == 0)%Q) by reflexivity.
  pose proof (mul_zero _ (Float.of_int 2) Hzero) as E7.
  pose proof (add_half _ _ _ _ E6 E7 ltac:(lia)) as E8.
  pose proof (of_int_half (Z.of_nat l * 2) ltac:(lia)) as E9.
  pose proof (sub_half _ _ _ _ E8 E9 ltac:(lia)) as E10.
  set (score := Float.sub _ _) in *. clearbody score.
  cbv zeta.
  replace (2 * (Z.of_nat h * 2) + 3 * Z.of_nat e + 0 + 0 - 2 * (Z.of_nat l * 2))%Z
    with (4 * Z.of_nat h + 3 * Z.of_nat e - 4 * Z.of_nat l)%Z in E10 by lia.
  set (v := (4 * Z.of_nat h + 3 * Z.of_nat e - 4 * Z.of_nat l)%Z) in *.
  clearbody v.
  unfold Float.gtb.
  rewrite (Qleb_comp _ _ E10 5%Q 5%Q (Qeq_refl 5%Q)),
    (Qleb_comp _ _ E10 2%Q 2%Q (Qeq_refl 2%Q)).
  assert (H5 : Qle_bool (inject_Z v / 2)%Q 5%Q = negb (10 <? v)%Z).
  { destruct (Z.ltb_spec 10 v); cbn [negb].
    - destruct (Qle_bool (inject_Z v / 2)%Q 5%Q) eqn:E; [|reflexivity].
      apply Qle_bool_iff in E. unfold Qle, Qdiv, Qmult, Qinv in E. simpl in E. lia.
    - apply Qle_bool_iff. unfold Qle, Qdiv, Qmult, Qinv. simpl. lia. }
  assert (H2 : Qle_bool (inject_Z v / 2)%Q 2%Q = negb (4 <? v)%Z).
  { destruct (Z.ltb_spec 4 v); cbn [negb].
    - destruct (Qle_bool (inject_Z v / 2)%Q 2%Q) eqn:E; [|reflexivity].
      apply Qle_bool_iff in E. unfold Qle, Qdiv, Qmult, Qinv in E. simpl in E. lia.
    - apply Qle_bool_iff. unfold Qle, Qdiv, Qmult, Qinv. simpl. lia. }
  rewrite H5, H2, !negb_involutive.
  destruct (10 <? v)%Z; [reflexivity|]. now destruct (4 <? v)%Z.
Qed.

Lemma offline_sentiment_scores (env : Env) (text : str) :
  HAS_TEXTBLOB env = false ->
  EmotionDetector.sentiment_scores env text
  = Returns (Spec.word_polarity
               (Spec.score EmotionDetector.positive_words text)
               (Spec.score EmotionDetector.negative_words text),
             Float.lit 0).
Proof.
  intros Hoff. unfold EmotionDetector.sentiment_scores, Spec.word_polarity,
    Spec.score, Builtin.truediv.
  rewrite Hoff. cbv zeta.
  destruct (_ + _ =? 0)%Z; [reflexivity|].
  destruct (Z.eqb_spec (Z.max 1
              (Z.of_nat (Str.count_in EmotionDetector.positive_words (Str.lower text))
               + Z.of_nat (Str.count_in EmotionDetector.negative_words
                             (Str.lower text)))) 0); [lia | reflexivity].
Qed.

(** The thresholds of the keyword fallback, in numbers of words. *)
Lemma word_polarity_table (pos_count neg_count : nat) :
  pos_count <= 12 -> neg_count <= 12 ->
  Float.gtb (Spec.word_polarity pos_count neg_count) (Float.lit (1 # 10))
  = (11 * neg_count <? 9 * pos_count)
  /\ Float.ltb (Spec.word_polarity pos_count neg_count) (Float.lit (- (1 # 10)))
     = (11 * pos_count <? 9 * neg_count)
  /\ (0 <= Float.round2
             (snd (Spec.by_polarity (Spec.word_polarity pos_count neg_count)))
      <= 1)%Q.
Proof.
  intros Hp Hn.
  assert (Hall : forallb
            (fun '(p, n) =>
               let q := Spec.word_polarity p n in
               Bool.eqb (Float.gtb q (Float.lit (1 # 10))) (11 * n <? 9 * p)
               && Bool.eqb (Float.ltb q (Float.lit (- (1 # 10)))) (11 * p <? 9 * n)
               && Qle_bool 0 (Float.round2 (snd (Spec.by_polarity q)))
               && Qle_bool (Float.round2 (snd (Spec.by_polarity q))) 1)
            (list_prod (seq 0 13) (seq 0 13)) = true)
    by (vm_compute; reflexivity).
  rewrite forallb_forall in Hall.
  specialize (Hall (pos_count, neg_count)). cbv beta iota zeta in Hall.
  assert (Hin : In (pos_count, neg_count) (list_prod (seq 0 13) (seq 0 13)))
    by (apply in_prod; apply in_seq; lia).
  apply Hall in Hin.
  repeat (apply andb_true_iff in Hin as [Hin ?]).
  repeat split; try (now apply eqb_prop); now apply Qle_bool_iff.
Qed.

(** X17. Without TextBlob, the sentiment is positive when nine times the
    number of positive words found exceeds eleven times the number of
    negative words found, negative in the symmetric case and neutral
    otherwise; and the confidence lies between 0 and 1. *)
Theorem offline_sentiment_follows_the_words (env : Env) (text : str) :
  HAS_TEXTBLOB env = false ->
  exists emotion_data confidence,
    EmotionDetector.detect_emotion env text = Returns emotion_data
    /\ EmotionData.sentiment emotion_data
       = Some (if 11 * Spec.score EmotionDetector.negative_words text
                  <? 9 * Spec.score EmotionDetector.positive_words text
               then py "positive"
               else if 11 * Spec.score EmotionDetector.positive_words text
                       <? 9 * Spec.score EmotionDetector.negative_words text
                    then py "negative"
                    else py "neutral")
    /\ EmotionData.confidence emotion_data = Some confidence
    /\ (0 <= confidence <= 1)%Q.
Proof.
  intros Hoff.
  destruct (detect_emotion_shape env text)
    as [p [s [intensity [primary [confidence [Hs [_ [Hd Hcase]]]]]]]].
  rewrite (offline_sentiment_scores env text Hoff) in Hs. injection Hs as <- <-.
  destruct (word_polarity_table
              (Spec.score EmotionDetector.positive_words text)
              (Spec.score EmotionDetector.negative_words text))
    as [Hpos [Hneg Hunit]]; try apply count_in_le.
  rewrite Hd. do 2 eexists. split; [reflexivity|].
  cbn [EmotionData.sentiment EmotionData.confidence].
  rewrite Hpos, Hneg. split; [reflexivity|]. split; [reflexivity|].
  destruct Hcase as [[_ Hby] | [i [ks [_ [Hscore [_ ->]]]]]].
  - rewrite <- Hby in Hunit. exact Hunit.
  - pose proof (keyword_confidence _ Hscore) as Hc. rewrite Hc.
    assert (H4 : (Z.min (Z.of_nat (Spec.score ks text)) 4 = 1
                  \/ Z.min (Z.of_nat (Spec.score ks text)) 4 = 2
                  \/ Z.min (Z.of_nat (Spec.score ks text)) 4 = 3
                  \/ Z.min (Z.of_nat (Spec.score ks text)) 4 = 4)%Z) by lia.
    destruct H4 as [-> | [-> | [-> | ->]]]; split; discriminate.
Qed.

Lemma offline_sentiment_follows_the_words_witness :
  exists emotion_data confidence,
    EmotionDetector.detect_emotion offline (py "What a good, good day")
    = Returns emotion_data
    /\ EmotionData.sentiment emotion_data
       = Some (if 11 * Spec.score EmotionDetector.negative_words
                      (py "What a good, good day")
                  <? 9 * Spec.score EmotionDetector.positive_words
                         (py "What a good, good day")
               then py "positive"
               else if 11 * Spec.score EmotionDetector.positive_words
                           (py "What a good, good day")
                       <? 9 * Spec.score EmotionDetector.negative_words
                              (py "What a good, good day")
                    then py "negative"
                    else py "neutral")
    /\ EmotionData.confidence emotion_data = Some confidence
    /\ (0 <= confidence <= 1)%Q.
Proof.
  apply (offline_sentiment_follows_the_words offline (py "What a good, good day")).
  reflexivity.
Defined.

(** On ASCII text, [str.lower] leaves no letter for which [str.isupper]
    holds. *)
Lemma lower_ascii_has_no_uppercase (text : str) :
  Str.is_ascii text = true ->
  filter Str.is_upper (Str.lower text) = [].
Proof.
  assert (H : forallb (fun n => negb (Str.is_upper (Str.lower_char (ascii_of_nat n))))
                (seq 0 128) = true) by (vm_compute; reflexivity).
  rewrite forallb_forall in H.
  induction text as [|c text IH]; [reflexivity|].
  cbn [Str.is_ascii forallb]. fold (Str.is_ascii text).
  intros Hc. apply andb_true_iff in Hc as [Hc Htext].
  apply Nat.ltb_lt in Hc. unfold Str.code in Hc.
  cbn [Str.lower map filter]. fold (Str.lower text).
  specialize (H (nat_of_ascii c)). rewrite ascii_nat_embedding in H.
  rewrite (proj1 (negb_true_iff _) (H ltac:(apply in_seq; lia))).
  exact (IH Htext).
Qed.

(** X18. Without TextBlob, for an ASCII text shorter than 2^49
    characters, the intensity is high when 4 h + 3 e - 4 l exceeds 10,
    medium when it exceeds 4 and low otherwise, for h and l the numbers
    of high and of low intensity words found and e the number of
    exclamation marks: every float operation of the score is exact, and
    neither the capitals nor the subjectivity contribute. *)
Theorem offline_intensity_counts_words_and_marks (env : Env) (text : str) :
  HAS_TEXTBLOB env = false ->
  Str.is_ascii text = true ->
  (Z.of_nat (length text) < 2 ^ 49)%Z ->
  exists emotion_data,
    EmotionDetector.detect_emotion env text = Returns emotion_data
    /\ EmotionData.intensity emotion_data = Some (Spec.offline_intensity text).
Proof.
  intros Hoff Hascii Hlen.
  destruct (detect_emotion_shape env text)
    as [p [s [intensity [primary [confidence [Hs [Hi [Hd _]]]]]]]].
  rewrite (offline_sentiment_scores env text Hoff) in Hs. injection Hs as _ <-.
  rewrite calculate_intensity_offline in Hi.
  - injection Hi as <-. rewrite Hd. eexists. split; [reflexivity|].
    cbn [EmotionData.intensity]. unfold Spec.offline_intensity, Spec.score.
    now rewrite count_lower_mark.
  - now apply lower_ascii_has_no_uppercase.
  - unfold Str.lower. now rewrite length_map.
Qed.

Lemma offline_intensity_counts_words_and_marks_witness :
  exists emotion_data,
    EmotionDetector.detect_emotion offline (py "I am SO very tired!!!")
    = Returns emotion_data
    /\ EmotionData.intensity emotion_data
       = Some (Spec.offline_intensity (py "I am SO very tired!!!")).
Proof.
  apply (offline_intensity_counts_words_and_marks offline
           (py "I am SO very tired!!!")).
  - reflexivity.
  - reflexivity.
  - vm_compute. reflexivity.
Defined.

(** ** More on llm_handler.py *)

Lemma lstrip_head (p : ascii -> bool) (s : str) :
  match Str.lstrip_by p s with
  | [] => True
  | c :: _ => p c = false
  end.
Proof.
  induction s as [|c s IH]; [exact I|]. cbn [Str.lstrip_by].
  destruct (p c) eqn:E; [exact IH | exact E].
Qed.

Lemma lstrip_fixed (p : ascii -> bool) (s : str) :
  match s with
  | [] => True
  | c :: _ => p c = false
  end ->
  Str.lstrip_by p s = s.
Proof. destruct s as [|c s]; [reflexivity|]. cbn [Str.lstrip_by]. now intros ->. Qed.

Lemma lstrip_suffix (p : ascii -> bool) (s : str) :
  exists dropped, s = dropped ++ Str.lstrip_by p s.
Proof.
  induction s as [|c s [d IH]]; [now exists []|]. cbn [Str.lstrip_by].
  destruct (p c); [|now exists []]. exists (c :: d). cbn [app]. now f_equal.
Qed.

Lemma rstrip_prefix (p : ascii -> bool) (s : str) :
  exists dropped, s = Str.rstrip_by p s ++ dropped.
Proof.
  unfold Str.rstrip_by. destruct (lstrip_suffix p (rev s)) as [d Hd].
  exists (rev d). rewrite <- rev_app_distr, <- Hd. now rewrite rev_involutive.
Qed.

(** A text that neither starts nor ends with white space. *)
Lemma strip_is_trimmed (s : str) :
  match Str.strip s with
  | [] => True
  | c :: _ => Str.is_space c = false
  end
  /\ match rev (Str.strip s) with
     | [] => True
     | c :: _ => Str.is_space c = false
     end.
Proof.
  unfold Str.strip. set (u := Str.lstrip_by Str.is_space s).
  pose proof (lstrip_head Str.is_space s) as Hu. fold u in Hu.
  split.
  - destruct (rstrip_prefix Str.is_space u) as [d Hd].
    destruct (Str.rstrip_by Str.is_space u) as [|c r]; [exact I|].
    rewrite Hd in Hu. exact Hu.
  - unfold Str.rstrip_by. rewrite rev_involutive. apply lstrip_head.
Qed.

Lemma trimmed_strip (s : str) :
  match s with
  | [] => True
  | c :: _ => Str.is_space c = false
  end ->
  match rev s with
  | [] => True
  | c :: _ => Str.is_space c = false
  end ->
  Str.strip s = s.
Proof.
  intros Hhead Hlast. unfold Str.strip, Str.rstrip_by.
  rewrite (lstrip_fixed _ s Hhead), (lstrip_fixed _ (rev s) Hlast).
  apply rev_involutive.
Qed.

Lemma last_index (s : str) : nth_error s (length s - 1) = hd_error (rev s).
Proof.
  destruct s as [|c s] using rev_ind; [reflexivity|].
  rewrite rev_app_distr, length_app. cbn [length rev app hd_error].
  rewrite nth_error_app2 by lia.
  replace (length s + 1 - 1 - length s) with 0 by lia. reflexivity.
Qed.

(** [s.rfind(c)]: -1 when [c] is not in [s], its last index otherwise. *)
Lemma rfind_from_spec (c : ascii) (s : str) :
  forall i found,
    (~ In c s /\ Str.rfind_from c s i found = found)
    \/ exists j,
         Str.rfind_from c s i found = (i + Z.of_nat j)%Z
         /\ nth_error s j = Some c
         /\ forall j', nth_error s j' = Some c -> j' <= j.
Proof.
  induction s as [|d s IH]; intros i found; [left; auto|].
  cbn [Str.rfind_from].
  destruct (IH (i + 1)%Z (if Ascii.eqb c d then i else found))
    as [[Hnot Hr] | [j [Hr [Hj Hmax]]]].
  - destruct (Ascii.eqb_spec c d) as [<- | Hne].
    + right. exists 0. rewrite Hr. repeat split; [lia|].
      intros [|j'] Hj'; [lia|]. elim Hnot. eapply nth_error_In. exact Hj'.
    + left. split; [|assumption]. intros [E | E]; [congruence | contradiction].
  - right. exists (S j). rewrite Hr. repeat split; [lia | assumption |].
    intros [|j'] Hj'; [lia|]. apply Hmax in Hj'. lia.
Qed.

Lemma rfind_spec (c : ascii) (s : str) :
  (~ In c s /\ Str.rfind c s = (-1)%Z)
  \/ exists j,
       Str.rfind c s = Z.of_nat j
       /\ nth_error s j = Some c
       /\ forall j', nth_error s j' = Some c -> j' <= j.
Proof.
  unfold Str.rfind. destruct (rfind_from_spec c s 0 (-1)) as [H | [j [Hr H]]];
    [now left | right]. exists j. now rewrite Hr.
Qed.

(** The index [_clean_response] cuts at: the last sentence end. *)
Lemma last_punct_spec (s : str) :
  let last_punct :=
    Z.max (Z.max (Str.rfind "."%char s) (Str.rfind "!"%char s))
      (Str.rfind "?"%char s) in
  ((forall c, In c s -> Str.mem c (py ".!?") = false) /\ last_punct = (-1)%Z)
  \/ exists j c,
       last_punct = Z.of_nat j
       /\ nth_error s j = Some c
       /\ Str.mem c (py ".!?") = true
       /\ forall j' c',
            nth_error s j' = Some c' -> Str.mem c' (py ".!?") = true -> j' <= j.
Proof.
  cbv zeta.
  assert (Hmem : forall c, Str.mem c (py ".!?") = true ->
                           c = "."%char \/ c = "!"%char \/ c = "?"%char).
  { intros c H. unfold Str.mem in H. cbn [py list_ascii_of_string existsb] in H.
    rewrite orb_false_r in H.
    apply orb_true_iff in H as [H | H]; [left; now apply Ascii.eqb_eq in H|].
    apply orb_true_iff in H as [H | H]; right; [left | right];
      now apply Ascii.eqb_eq in H. }
  destruct (rfind_spec "." s) as [[N1 ->] | [j1 [-> [H1 M1]]]];
    destruct (rfind_spec "!" s) as [[N2 ->] | [j2 [-> [H2 M2]]]];
    destruct (rfind_spec "?" s) as [[N3 ->] | [j3 [-> [H3 M3]]]].
  1:{ left. split; [|reflexivity]. intros c Hin.
      destruct (Str.mem c (py ".!?")) eqn:E; [|reflexivity].
      apply Hmem in E as [-> | [-> | ->]]; contradiction. }
  all: right.
  all: match goal with
       | |- context [Z.max (Z.max ?a ?b) ?c] =>
           let m := fresh "m" in
           set (m := Z.max (Z.max a b) c);
           assert (Hm : (m = a \/ m = b \/ m = c)
                        /\ (a <= m /\ b <= m /\ c <= m)%Z) by (unfold m; lia)
       end.
  all: destruct Hm as [[Hm | [Hm | Hm]] [Ha [Hb Hc]]];
       try (exfalso; lia).
  all: first
         [ solve [ exists j1, "."%char;
            (split; [exact Hm|]); (split; [assumption|]); (split; [reflexivity|]);
            intros j' c' Hj' Hc'; apply Hmem in Hc' as [-> | [-> | ->]];
            first
              [ apply M1 in Hj'; lia | apply M2 in Hj'; lia | apply M3 in Hj'; lia
              | exfalso;
                first [ solve [apply N1; eapply nth_error_In; exact Hj']
                      | solve [apply N2; eapply nth_error_In; exact Hj']
                      | solve [apply N3; eapply nth_error_In; exact Hj'] ] ] ]
         | solve [ exists j2, "!"%char;
            (split; [exact Hm|]); (split; [assumption|]); (split; [reflexivity|]);
            intros j' c' Hj' Hc'; apply Hmem in Hc' as [-> | [-> | ->]];
            first
              [ apply M1 in Hj'; lia | apply M2 in Hj'; lia | apply M3 in Hj'; lia
              | exfalso;
                first [ solve [apply N1; eapply nth_error_In; exact Hj']
                      | solve [apply N2; eapply nth_error_In; exact Hj']
                      | solve [apply N3; eapply nth_error_In; exact Hj'] ] ] ]
         | solve [ exists j3, "?"%char;
            (split; [exact Hm|]); (split; [assumption|]); (split; [reflexivity|]);
            intros j' c' Hj' Hc'; apply Hmem in Hc' as [-> | [-> | ->]];
            first
              [ apply M1 in Hj'; lia | apply M2 in Hj'; lia | apply M3 in Hj'; lia
              | exfalso;
                first [ solve [apply N1; eapply nth_error_In; exact Hj']
                      | solve [apply N2; eapply nth_error_In; exact Hj']
                      | solve [apply N3; eapply nth_error_In; exact Hj'] ] ] ] ].
Qed.

Lemma strip_idem (s : str) : Str.strip (Str.strip s) = Str.strip s.
Proof. destruct (strip_is_trimmed s). now apply trimmed_strip. Qed.

Lemma clean_response_strip (text : str) :
  LLMHandler._clean_response (Str.strip text) = LLMHandler._clean_response text.
Proof. unfold LLMHandler._clean_response. now rewrite strip_idem. Qed.

Lemma punct_not_space (c : ascii) :
  Str.mem c (py ".!?") = true -> Str.is_space c = false.
Proof.
  intros H. apply negb_true_iff. revert H. apply implb_true_iff. revert c.
  apply for_all_chars. vm_compute. reflexivity.
Qed.

(** [_clean_response] by cases on the last character of the stripped
    text. *)
Lemma clean_response_eval (text : str) :
  LLMHandler._clean_response text
  = match rev (Str.strip text) with
    | [] => Returns (Str.strip text)
    | last :: _ =>
        if Str.mem last (py ".!?") then Returns (Str.strip text)
        else
          let last_punct :=
            Z.max (Z.max (Str.rfind "."%char (Str.strip text))
                     (Str.rfind "!"%char (Str.strip text)))
              (Str.rfind "?"%char (Str.strip text)) in
          if (0 <? last_punct)%Z
          then Returns (firstn (Z.to_nat (last_punct + 1)) (Str.strip text))
          else Returns (Str.strip text)
    end.
Proof.
  unfold LLMHandler._clean_response, Builtin.index, Builtin.slice_to.
  rewrite last_index.
  destruct (Str.strip text) as [|c t] eqn:Et; [reflexivity|].
  destruct (rev (c :: t)) as [|last r] eqn:Er.
  { apply (f_equal (@rev ascii)) in Er. rewrite rev_involutive in Er.
    discriminate Er. }
  cbn [hd_error obind]. now destruct (Str.mem last (py ".!?")).
Qed.

Lemma firstn_succ {A} (l : list A) (j : nat) (c : A) :
  nth_error l j = Some c -> firstn (S j) l = firstn j l ++ [c].
Proof.
  revert l. induction j as [|j IH]; intros [|d l] Hj; try discriminate Hj.
  - now injection Hj as ->.
  - cbn [nth_error] in Hj. cbn [firstn app]. f_equal. now apply IH.
Qed.

(** X19. [_clean_response] returns a prefix of the stripped text; what
    it drops holds no sentence end; when the stripped text has a sentence
    end after its first character, the result ends with one; and cleaning
    the result again changes nothing. *)
Theorem clean_response_keeps_whole_sentences (text : str) :
  exists cleaned dropped,
    LLMHandler._clean_response text = Returns cleaned
    /\ Str.strip text = cleaned ++ dropped
    /\ forallb (fun c => negb (Str.mem c (py ".!?"))) dropped = true
    /\ (forall i c,
          0 < i ->
          nth_error (Str.strip text) i = Some c ->
          Str.mem c (py ".!?") = true ->
          exists body c', cleaned = body ++ [c'] /\ Str.mem c' (py ".!?") = true)
    /\ LLMHandler._clean_response cleaned = Returns cleaned.
Proof.
  pose proof (clean_response_strip text) as Hagain.
  destruct (strip_is_trimmed text) as [Hhead Hlast].
  rewrite (clean_response_eval text) in Hagain |- *.
  set (t := Str.strip text) in *.
  destruct (rev t) as [|last r] eqn:Er.
  { exists t, []. rewrite app_nil_r. repeat split; auto.
    intros i c _ Hi _. apply (f_equal (@rev ascii)) in Er.
    rewrite rev_involutive in Er. rewrite Er in Hi. destruct i; discriminate Hi. }
  assert (Hends : t = rev r ++ [last]).
  { rewrite <- (rev_involutive t), Er. reflexivity. }
  destruct (Str.mem last (py ".!?")) eqn:Hp.
  { exists t, []. rewrite app_nil_r. repeat split; auto.
    intros _ _ _ _ _. now exists (rev r), last. }
  destruct (last_punct_spec t) as [[Hnone Hlp] | [j [c [Hlp [Hj [Hc Hmax]]]]]];
    cbv zeta in Hlp, Hagain |- *; rewrite Hlp in *.
  { exists t, []. rewrite app_nil_r. repeat split; auto.
    intros i c _ Hi Hc. apply nth_error_In in Hi. apply Hnone in Hi. congruence. }
  destruct (Z.ltb_spec 0 (Z.of_nat j)) as [Hpos | Hzero].
  - replace (Z.to_nat (Z.of_nat j + 1)) with (S j) by lia.
    pose proof (firstn_succ t j c Hj) as Hcut.
    exists (firstn (S j) t), (skipn (S j) t).
    split; [reflexivity|]. split; [now rewrite firstn_skipn|]. split.
    { apply forallb_forall. intros d Hd. apply In_nth_error in Hd as [k Hk].
      rewrite nth_error_skipn in Hk.
      destruct (Str.mem d (py ".!?")) eqn:E; [|reflexivity].
      apply (Hmax _ _ Hk) in E. lia. }
    split; [intros _ _ _ _ _; rewrite Hcut; now exists (firstn j t), c|].
    rewrite Hcut, clean_response_eval.
    assert (Htrim : Str.strip (firstn j t ++ [c]) = firstn j t ++ [c]).
    { apply trimmed_strip.
      - destruct t as [|d t']; [destruct j; discriminate Hj|].
        destruct j as [|j]; [lia|]. exact Hhead.
      - rewrite rev_app_distr. cbn [rev app]. now apply punct_not_space. }
    rewrite Htrim, rev_app_distr. cbn [rev app]. now rewrite Hc.
  - exists t, []. rewrite app_nil_r. repeat split; auto.
    intros i d Hi Hd Hpunct. apply (Hmax _ _ Hd) in Hpunct. lia.
Qed.

(** ** More on prompts.py *)

Lemma join_length_le (sep : str) (parts : list str) (bound : nat) :
  Forall (fun part => length part <= bound) parts ->
  length (Str.join sep parts) <= length parts * (bound + length sep).
Proof.
  induction 1 as [|part parts Hpart _ IH]; [reflexivity|].
  cbn [Str.join]. destruct parts as [|next parts].
  - simpl. lia.
  - rewrite !length_app. cbn [length] in *. lia.
Qed.

Lemma most_recent_idem (n : nat) (history : list Turn) :
  Spec.most_recent n (Spec.most_recent n history) = Spec.most_recent n history.
Proof.
  unfold Spec.most_recent. rewrite length_skipn.
  replace (length history - (length history - n) - n) with 0 by lia.
  reflexivity.
Qed.

Lemma format_history_recent (history : list Turn) :
  PromptBuilder._format_history history 3
  = PromptBuilder._format_history (Spec.most_recent 6 history) 3.
Proof.
  unfold PromptBuilder._format_history.
  rewrite !(prune_most_recent 3) by lia. change (Z.to_nat (2 * 3)) with 6.
  now rewrite most_recent_idem.
Qed.

Lemma format_history_length (history : list Turn) :
  length (PromptBuilder._format_history history 3) <= 1272.
Proof.
  unfold PromptBuilder._format_history.
  rewrite (prune_most_recent 3) by lia. change (Z.to_nat (2 * 3)) with 6.
  match goal with |- length (Str.join ?sep (map ?f ?l)) <= _ =>
    apply Nat.le_trans with (length (map f l) * (211 + length sep));
    [apply join_length_le|]
  end.
  - apply Forall_map, Forall_forall. intros msg _.
    unfold Builtin.slice_to. rewrite !length_app, length_firstn.
    pose proof (Nat.le_min_l 200 (length (content msg))).
    destruct (Str.eqb (role msg) (py "user"));
      cbn [length py list_ascii_of_string]; lia.
  - rewrite length_map. unfold Spec.most_recent. rewrite length_skipn.
    cbn [length py list_ascii_of_string]. lia.
Qed.

(** X20. [build_prompt] returns, and the prompt is at most 2318
    characters longer than the emotion and the user message together,
    however long the history and its messages are. *)
Theorem prompt_size_is_bounded (user_message emotion : str) (history : list Turn) :
  exists prompt,
    PromptBuilder.build_prompt user_message emotion history = Returns prompt
    /\ length prompt <= 2318 + length emotion + length user_message.
Proof.
  unfold PromptBuilder.build_prompt, PromptBuilder._get_emotion_context,
    Builtin.subscript.
  destruct (Builtin.get PromptBuilder.emotion_guidance (py "neutral"))
    as [neutral|] eqn:En; [|vm_compute in En; discriminate].
  cbn [obind].
  set (context := Builtin.get_or PromptBuilder.emotion_guidance emotion neutral).
  assert (Hcontext : length context <= 208).
  { assert (Hall : forallb (fun g => length g <=? 208)
                     (map snd PromptBuilder.emotion_guidance) = true)
      by (vm_compute; reflexivity).
    rewrite forallb_forall in Hall. apply Nat.leb_le, Hall.
    unfold context, Builtin.get_or.
    destruct (Builtin.get PromptBuilder.emotion_guidance emotion) eqn:E;
      eapply get_in_values; eassumption. }
  assert (Hsystem : length PromptBuilder.system_prompt = 746)
    by (vm_compute; reflexivity).
  pose proof (format_history_length history) as Hhistory.
  clearbody context.
  eexists. split; [reflexivity|].
  destruct history as [|turn history]; cbn [app Str.join];
    rewrite !length_app, Hsystem; cbn [length py list_ascii_of_string]; lia.
Qed.

(** X21. The prompt depends on the last six turns of a history only. *)
Theorem prompt_uses_the_last_six_turns (user_message emotion : str)
    (history : list Turn) :
  history <> [] ->
  PromptBuilder.build_prompt user_message emotion history
  = PromptBuilder.build_prompt user_message emotion (Spec.most_recent 6 history).
Proof.
  intros Hne. unfold PromptBuilder.build_prompt.
  destruct (PromptBuilder._get_emotion_context emotion); [|reflexivity].
  cbn [obind].
  destruct history as [|turn history]; [contradiction|].
  rewrite (format_history_recent (turn :: history)).
  destruct (Spec.most_recent 6 (turn :: history)) as [|turn' recent] eqn:E;
    [|reflexivity].
  apply (f_equal (@length Turn)) in E. unfold Spec.most_recent in E.
  rewrite length_skipn in E. cbn [length] in E. lia.
Qed.

Lemma prompt_uses_the_last_six_turns_witness :
  PromptBuilder.build_prompt (py "And today?") (py "sad")
    (Spec.turns_of
       [ (py "one", py "1"); (py "two", py "2"); (py "three", py "3");
         (py "four", py "4") ])
  = PromptBuilder.build_prompt (py "And today?") (py "sad")
      (Spec.most_recent 6
         (Spec.turns_of
            [ (py "one", py "1"); (py "two", py "2"); (py "three", py "3");
              (py "four", py "4") ])).
Proof.
  apply (prompt_uses_the_last_six_turns (py "And today?") (py "sad")).
  discriminate.
Defined.

(** ** More on response_generator.py *)

Lemma emotions_of_returns (env : Env) (user_messages : list str) :
  exists emotions,
    ResponseGenerator.emotions_of env user_messages = Returns emotions
    /\ length emotions = length user_messages
    /\ Forall (fun e => In e Spec.labels) emotions.
Proof.
  induction user_messages as [|msg rest [emotions [IH [Hlen Hall]]]].
  - exists []. repeat split; constructor.
  - cbn [ResponseGenerator.emotions_of].
    destruct (detect_emotion_returns env msg) as [ed [primary [Hed Hp]]].
    destruct (detect_emotion_label env msg ed Hed) as [e [He Hin]].
    rewrite Hed. cbn [obind]. unfold ResponseGenerator.primary_emotion_of.
    rewrite He. cbn [obind]. rewrite IH. cbn [obind].
    exists (e :: emotions). repeat split; [simpl; now f_equal | now constructor].
Qed.

Lemma count_one_total (counts : list (str * nat)) (item : str) :
  list_sum (map snd (Builtin.count_one counts item))
  = S (list_sum (map snd counts)).
Proof.
  induction counts as [|[k n] counts IH]; [reflexivity|].
  cbn [Builtin.count_one]. destruct (Str.eqb k item); cbn [map snd].
  - reflexivity.
  - change (n + list_sum (map snd (Builtin.count_one counts item))
            = S (n + list_sum (map snd counts))).
    rewrite IH. lia.
Qed.

Lemma count_one_keys (counts : list (str * nat)) (item key : str) :
  In key (map fst (Builtin.count_one counts item)) ->
  key = item \/ In key (map fst counts).
Proof.
  induction counts as [|[k n] counts IH]; cbn [Builtin.count_one].
  - intros [<- | []]. now left.
  - destruct (Str.eqb k item) eqn:E; cbn [map fst In].
    + intros [<- | H]; right; [now left | now right].
    + intros [<- | H]; [right; now left|].
      destruct (IH H) as [-> | H']; [now left | right; now right].
Qed.

Lemma fold_count_one (items : list str) :
  forall counts,
    list_sum (map snd (fold_left Builtin.count_one items counts))
    = length items + list_sum (map snd counts)
    /\ forall key,
         In key (map fst (fold_left Builtin.count_one items counts)) ->
         In key items \/ In key (map fst counts).
Proof.
  induction items as [|item items IH]; intros counts; cbn [fold_left].
  - split; [reflexivity | now right].
  - destruct (IH (Builtin.count_one counts item)) as [Hsum Hkeys]. split.
    + rewrite Hsum, count_one_total. simpl. lia.
    + intros key Hk. destruct (Hkeys key Hk) as [H | H]; [left; now right|].
      destruct (count_one_keys _ _ _ H) as [-> | H']; [left; now left | now right].
Qed.

Lemma max_item_from_spec (d : list (str * nat)) :
  forall best,
    (Builtin.max_item_from best d = best
     \/ In (Builtin.max_item_from best d) d)
    /\ snd best <= snd (Builtin.max_item_from best d)
    /\ forall entry, In entry d -> snd entry <= snd (Builtin.max_item_from best d).
Proof.
  induction d as [|[k v] d IH]; intros best; cbn [Builtin.max_item_from].
  - repeat split; [now left | lia | contradiction].
  - destruct (Nat.ltb_spec (snd best) v) as [Hlt | Hge].
    + destruct (IH (k, v)) as [Hin [Hb Hall]]. cbn [snd] in Hb. repeat split.
      * right. destruct Hin as [-> | Hin]; [now left | now right].
      * lia.
      * intros entry [<- | He]; [exact Hb | now apply Hall].
    + destruct (IH best) as [Hin [Hb Hall]]. repeat split.
      * destruct Hin as [-> | Hin]; [now left | right; now right].
      * exact Hb.
      * intros entry [<- | He]; [cbn [snd]; lia | now apply Hall].
Qed.

(** X22. [get_conversation_summary] returns. The message count is the
    number of user turns of the history; the dominant emotion is one of
    the seven labels; and when there is a distribution, its counts add up
    to the message count, its emotions are labels, and no emotion has a
    greater count than the dominant one. *)
Theorem summary_counts_the_user_messages (env : Env) (w : World) :
  exists summary,
    ResponseGenerator.get_conversation_summary env w = Returns summary
    /\ ResponseGenerator.message_count summary
       = length (filter (fun msg => Str.eqb (role msg) (py "user"))
                   (conversation_history w))
    /\ In (ResponseGenerator.dominant_emotion summary) Spec.labels
    /\ forall counts,
         ResponseGenerator.emotion_distribution summary = Some counts ->
         list_sum (map snd counts) = ResponseGenerator.message_count summary
         /\ (forall emotion n, In (emotion, n) counts -> In emotion Spec.labels)
         /\ (ResponseGenerator.message_count summary = 0
             \/ exists top,
                  In (ResponseGenerator.dominant_emotion summary, top) counts
                  /\ forall emotion n, In (emotion, n) counts -> n <= top).
Proof.
  unfold ResponseGenerator.get_conversation_summary.
  destruct (conversation_history w) as [|turn history] eqn:Eh.
  { eexists. split; [reflexivity|].
    cbn [ResponseGenerator.message_count ResponseGenerator.dominant_emotion
         ResponseGenerator.emotion_distribution filter length].
    split; [reflexivity|]. split; [unfold Spec.labels; simpl; auto 10|].
    intros counts H. discriminate H. }
  rewrite <- Eh. clear Eh turn history.
  set (user_messages :=
         map content (filter (fun msg => Str.eqb (role msg) (py "user"))
                        (conversation_history w))).
  destruct (emotions_of_returns env user_messages) as [emotions [He [Hlen Hall]]].
  rewrite He. cbn [obind].
  assert (Hcount : length user_messages
                   = length (filter (fun msg => Str.eqb (role msg) (py "user"))
                               (conversation_history w)))
    by apply length_map.
  destruct (fold_count_one emotions []) as [Hsum Hkeys].
  fold (Builtin.Counter emotions) in Hsum, Hkeys.
  cbn [map list_sum] in Hsum. rewrite Nat.add_0_r in Hsum.
  assert (Hlabels : forall emotion n,
            In (emotion, n) (Builtin.Counter emotions) -> In emotion Spec.labels).
  { intros emotion n Hin. apply (in_map fst) in Hin.
    destruct (Hkeys _ Hin) as [H | []].
    rewrite Forall_forall in Hall. now apply Hall. }
  destruct emotions as [|e emotions]; cbn [obind].
  - eexists. split; [reflexivity|].
    cbn [ResponseGenerator.message_count ResponseGenerator.dominant_emotion
         ResponseGenerator.emotion_distribution].
    split; [exact Hcount|]. split; [unfold Spec.labels; simpl; auto 10|].
    intros counts [= <-]. simpl in Hlen.
    split; [simpl; lia|]. split; [intros ? ? []|]. left. lia.
  - destruct (Builtin.Counter (e :: emotions)) as [|item counts'] eqn:Ec.
    { simpl in Hsum. discriminate Hsum. }
    cbn [Builtin.most_common_1 Builtin.index nth_error obind].
    destruct (max_item_from_spec counts' item) as [Hin [Hbest Hmax]].
    eexists. split; [reflexivity|].
    cbn [ResponseGenerator.message_count ResponseGenerator.dominant_emotion
         ResponseGenerator.emotion_distribution].
    split; [exact Hcount|].
    assert (Htop : In (Builtin.max_item_from item counts') (item :: counts')).
    { destruct Hin as [-> | Hin]; [now left | now right]. }
    split.
    { apply (Hlabels _ (snd (Builtin.max_item_from item counts'))).
      now rewrite <- surjective_pairing. }
    intros counts [= <-]. split; [lia|]. split; [exact Hlabels|].
    right. exists (snd (Builtin.max_item_from item counts')). split.
    + now rewrite <- surjective_pairing.
    + intros emotion n [E | Hn]; [rewrite E in *; exact Hbest | apply (Hmax _ Hn)].
Qed.

(** X23. [get_suggestions] returns three suggestions for every emotion,
    known or not, and each of them is a message the validation accepts
    and the crisis check lets through. *)
Theorem suggestions_are_three_valid_messages (emotion : str) :
  exists suggested,
    ResponseGenerator.get_suggestions emotion = Returns suggested
    /\ length suggested = 3
    /\ forall message,
         In message suggested ->
         SafetyFilter.validate_user_input message
         = Returns {| valid := true; reason := py "ok"; suggestion := None |}
         /\ is_crisis (SafetyFilter.check_crisis message) = false.
Proof.
  unfold ResponseGenerator.get_suggestions, Builtin.subscript.
  destruct (Builtin.get ResponseGenerator.suggestions (py "neutral"))
    as [neutral|] eqn:En; [|vm_compute in En; discriminate].
  cbn [obind]. eexists. split; [reflexivity|].
  assert (Hall : forallb
            (fun pool =>
               (length pool =? 3)
               && forallb
                    (fun message =>
                       match SafetyFilter.validate_user_input message with
                       | Returns v =>
                           valid v && Str.eqb (reason v) (py "ok")
                           && match suggestion v with None => true | _ => false end
                       | Raises _ => false
                       end
                       && negb (is_crisis (SafetyFilter.check_crisis message)))
                    pool)
            (map snd ResponseGenerator.suggestions) = true)
    by (vm_compute; reflexivity).
  rewrite forallb_forall in Hall.
  assert (Hin : In (Builtin.get_or ResponseGenerator.suggestions emotion neutral)
                  (map snd ResponseGenerator.suggestions)).
  { unfold Builtin.get_or.
    destruct (Builtin.get ResponseGenerator.suggestions emotion) eqn:E;
      eapply get_in_values; eassumption. }
  apply Hall in Hin. apply andb_true_iff in Hin as [Hlen Hok].
  split; [now apply Nat.eqb_eq|].
  intros message Hm. rewrite forallb_forall in Hok. specialize (Hok message Hm).
  apply andb_true_iff in Hok as [Hv Hc].
  destruct (SafetyFilter.validate_user_input message) as [[v r s]|]; [|discriminate].
  cbn [valid reason suggestion] in Hv.
  apply andb_true_iff in Hv as [Hv Hs]. apply andb_true_iff in Hv as [Hv Hr].
  apply eqb_eq in Hr. destruct s; [discriminate|]. subst.
  split; [reflexivity | now apply negb_true_iff].
Qed.

(** ** utils/helpers.py *)

(** X24. For a suffix no longer than the bound, [truncate_text] returns a
    text no longer than the bound: the text itself, or a proper prefix of
    it followed by the suffix; truncating twice changes nothing. *)
Theorem truncate_text_fits (text suffix : str) (max_length : Z) :
  (Z.of_nat (length suffix) <= max_length)%Z ->
  (Z.of_nat (length (Helpers.truncate_text text max_length suffix)) <= max_length)%Z
  /\ (Helpers.truncate_text text max_length suffix = text
      \/ exists kept,
           Helpers.truncate_text text max_length suffix = kept ++ suffix
           /\ exists dropped, text = kept ++ dropped /\ dropped <> [])
  /\ Helpers.truncate_text (Helpers.truncate_text text max_length suffix)
       max_length suffix
     = Helpers.truncate_text text max_length suffix.
Proof.
  intros Hsuffix.
  assert (Hfixed : forall r,
            (Z.of_nat (length r) <= max_length)%Z ->
            Helpers.truncate_text r max_length suffix = r).
  { intros r Hr. unfold Helpers.truncate_text. apply Z.leb_le in Hr.
    now rewrite Hr. }
  destruct (Z.leb_spec (Z.of_nat (length text)) max_length) as [Hfits | Hlong].
  - rewrite !(Hfixed text Hfits). split; [assumption|]. split; [now left | reflexivity].
  - assert (Hcut : Helpers.truncate_text text max_length suffix
                   = firstn (Z.to_nat (max_length - Z.of_nat (length suffix))) text
                     ++ suffix).
    { unfold Helpers.truncate_text, Builtin.slice_until.
      destruct (Z.leb_spec (Z.of_nat (length text)) max_length); [lia|].
      destruct (Z.ltb_spec (max_length - Z.of_nat (length suffix)) 0); [lia|].
      now rewrite Z.min_l by lia. }
    rewrite Hcut.
    set (k := Z.to_nat (max_length - Z.of_nat (length suffix))).
    assert (Hk : length (firstn k text) = k) by (apply firstn_length_le; lia).
    assert (Hlen : Z.of_nat (length (firstn k text ++ suffix)) = max_length).
    { rewrite length_app, Hk. lia. }
    split; [lia|]. split.
    + right. exists (firstn k text). split; [reflexivity|].
      exists (skipn k text). split; [now rewrite firstn_skipn|].
      intros E. apply (f_equal (@length ascii)) in E.
      rewrite length_skipn in E. cbn [length] in E. lia.
    + apply Hfixed. lia.
Qed.

Lemma truncate_text_fits_witness :
  (Z.of_nat (length (Helpers.truncate_text (py "I have been feeling low") 10
                       (py "..."))) <= 10)%Z
  /\ (Helpers.truncate_text (py "I have been feeling low") 10 (py "...")
      = py "I have been feeling low"
      \/ exists kept,
           Helpers.truncate_text (py "I have been feeling low") 10 (py "...")
           = kept ++ py "..."
           /\ exists dropped,
                py "I have been feeling low" = kept ++ dropped /\ dropped <> [])
  /\ Helpers.truncate_text
       (Helpers.truncate_text (py "I have been feeling low") 10 (py "..."))
       10 (py "...")
     = Helpers.truncate_text (py "I have been feeling low") 10 (py "...").
Proof.
  apply (truncate_text_fits (py "I have been feeling low") (py "...") 10).
  vm_compute. discriminate.
Defined.

(** ** The remote service *)

(** X25. An orchestrator constructed without the client library, or
    without a key in its argument and in the environment, never calls
    the remote service: whatever the message, [generate] returns, makes
    no text-generation call and leaves the handler as constructed, so
    that the same holds of every later call. *)
Theorem no_key_no_remote_call (env : Env) (key : option str) (w0 : World)
    (user_message : str) (conversation_context : option (list Turn)) (w : World) :
  ResponseGenerator.__init__ env key = Returns w0 ->
  HAS_HF_CLIENT env = false
  \/ (LLMHandler.truthy key = false
      /\ LLMHandler.truthy (HUGGINGFACE_API_KEY env) = false) ->
  llm w = llm w0 ->
  exists reply w' run,
    ResponseGenerator.generate env user_message conversation_context w
    = (Returns reply, w')
    /\ llm w' = llm w0
    /\ calls w' = calls w ++ run
    /\ ~ In CTextGeneration run.
Proof.
  intros Hinit Hlocal Hllm.
  assert (Hoff : LLMHandler.truthy (api_key (llm w)) && use_client (llm w) = false).
  { rewrite Hllm. unfold ResponseGenerator.__init__, LLMHandler.__init__ in Hinit.
    destruct (Builtin.subscript LLMHandler.models (py "primary")); [|discriminate].
    cbn [obind] in Hinit. injection Hinit as <-. cbn [llm api_key use_client].
    destruct Hlocal as [-> | [Hk He]].
    - cbn [andb]. apply andb_false_r.
    - rewrite Hk, He. reflexivity. }
  destruct (validate_user_input_returns user_message) as [v Hv].
  destruct (valid v) eqn:Hvalid.
  - destruct (is_crisis (SafetyFilter.check_crisis user_message)) eqn:Hc.
    + rewrite (generate_on_crisis env user_message conversation_context w v Hv Hvalid Hc).
      do 2 eexists. exists [CValidateUserInput; CCheckCrisis].
      split; [reflexivity|]. cbn [llm calls]. split; [assumption|].
      split; [now rewrite <- app_assoc|].
      intros [H | [H | []]]; discriminate H.
    + destruct (generate_on_message env user_message conversation_context w v Hv Hvalid Hc)
        as [ed [e [p [raw [made [n [_ [_ [_ [_ [_ [Hmade Hg]]]]]]]]]]]].
      destruct (Hmade Hoff) as [-> _].
      rewrite Hg. do 3 eexists. split; [reflexivity|]. cbn [llm calls].
      split; [assumption|]. split; [reflexivity|].
      cbn [app In]. intros H.
      repeat (destruct H as [H | H]; [discriminate H|]). exact H.
  - unfold ResponseGenerator.generate, invoke, bind, log, lift, ret.
    rewrite Hv, Hvalid. cbn [negb].
    do 2 eexists. exists [CValidateUserInput].
    split; [reflexivity|]. cbn [llm calls]. split; [assumption|].
    split; [reflexivity|]. intros [H | []]. discriminate H.
Qed.

Lemma no_key_no_remote_call_witness :
  exists reply w' run,
    ResponseGenerator.generate offline (py "I feel sad today") None fresh
    = (Returns reply, w')
    /\ llm w' = llm fresh
    /\ calls w' = calls fresh ++ run
    /\ ~ In CTextGeneration run.
Proof.
  apply (no_key_no_remote_call offline None fresh (py "I feel sad today") None fresh).
  - reflexivity.
  - left. reflexivity.
  - reflexivity.
Defined.
